(** * page-to-markdown: extraction and Markdown conversion

    A shallow embedding of the content pipeline of the extension:
    - [src/utils/content-extractor.ts] and [src/utils/markdown-converter.ts]
      (the TypeScript pipeline built on defuddle, DOMPurify and turndown),
    - [src/content.js] and [src/background.js] (the vanilla build).

    Strings are sequences of code units below 256 ([string]); the whitespace
    class is the part of the ECMAScript [\s] class that lies in that range.
    Host facilities (HTML parsing and serialisation, URL parsing) and the
    third-party libraries are interfaces whose operations may throw. *)

From Stdlib Require Import String Ascii List Bool Arith PeanoNat Lia.
From Stdlib Require Import DecimalString.
Import ListNotations.
Open Scope string_scope.
Open Scope bool_scope.

Set Implicit Arguments.

(* ================================================================== *)
(** * String primitives of the host language *)
(* ================================================================== *)

Module Js.

Definition nl : ascii := "010"%char.
Definition dquote : ascii := "034"%char.
Definition backslash : ascii := "092"%char.

Definition str (c : ascii) : string := String c EmptyString.

(** [\s] of regular expressions, which is also the set [trim] strips:
    TAB, LF, VT, FF, CR, SPACE and NO-BREAK SPACE. *)
Definition is_space (c : ascii) : bool :=
  let n := nat_of_ascii c in
  (Nat.leb 9 n && Nat.leb n 13) || Nat.eqb n 32 || Nat.eqb n 160.

Definition is_empty (s : string) : bool :=
  match s with EmptyString => true | String _ _ => false end.

(** JavaScript truthiness of a string: [Boolean(s)]. *)
Definition truthy (s : string) : bool := negb (is_empty s).

(** [a || b] on strings. *)
Definition or_else (a b : string) : string := if truthy a then a else b.

Fixpoint trimStart (s : string) : string :=
  match s with
  | EmptyString => EmptyString
  | String c r => if is_space c then trimStart r else s
  end.

Fixpoint trimEnd (s : string) : string :=
  match s with
  | EmptyString => EmptyString
  | String c r =>
      let r' := trimEnd r in
      if is_space c && is_empty r' then EmptyString else String c r'
  end.

(** [s.trim()] *)
Definition trim (s : string) : string := trimEnd (trimStart s).

(** [s.replace(/\s+/g, ' ')]: [in_ws] records that the previous code unit
    belonged to the whitespace run already replaced. *)
Fixpoint collapse_ws_from (in_ws : bool) (s : string) : string :=
  match s with
  | EmptyString => EmptyString
  | String c r =>
      if is_space c
      then if in_ws then collapse_ws_from true r
           else String " " (collapse_ws_from true r)
      else String c (collapse_ws_from false r)
  end.

Definition collapse_ws (s : string) : string := collapse_ws_from false s.

(** [s.replace(/\n{3,}/g, '\n\n')]: [k] counts the line feeds of the
    current run seen so far; the third and later ones are dropped. *)
Fixpoint collapse_newlines_from (k : nat) (s : string) : string :=
  match s with
  | EmptyString => EmptyString
  | String c r =>
      if Ascii.eqb c nl
      then if Nat.ltb k 2 then String nl (collapse_newlines_from (S k) r)
           else collapse_newlines_from k r
      else String c (collapse_newlines_from 0 r)
  end.

Definition collapse_newlines (s : string) : string :=
  collapse_newlines_from 0 s.

(** [s.replace(/"/g, '\\"')] *)
Fixpoint escape_quotes (s : string) : string :=
  match s with
  | EmptyString => EmptyString
  | String c r =>
      if Ascii.eqb c dquote
      then String backslash (String dquote (escape_quotes r))
      else String c (escape_quotes r)
  end.

(** [s.split(/\s+/)]: [cur] is the piece being read, [in_sep] tells that
    the separator run in progress has already closed a piece. *)
Fixpoint split_ws_from (in_sep : bool) (cur : string) (s : string)
  : list string :=
  match s with
  | EmptyString => [cur]
  | String c r =>
      if is_space c
      then if in_sep then split_ws_from true EmptyString r
           else cur :: split_ws_from true EmptyString r
      else split_ws_from false (cur ++ str c) r
  end.

Definition split_ws (s : string) : list string :=
  split_ws_from false EmptyString s.

(** [s.replace(/<[^>]*>/g, '')]: [pend] holds the text read since an
    unclosed [<]; it is dropped at the next [>] and kept when the string
    ends first (the expression then matches nowhere in it). *)
Fixpoint strip_tags_from (pend : option string) (s : string) : string :=
  match s with
  | EmptyString => match pend with Some p => p | None => EmptyString end
  | String c r =>
      match pend with
      | None =>
          if Ascii.eqb c "<"
          then strip_tags_from (Some (str c)) r
          else String c (strip_tags_from None r)
      | Some p =>
          if Ascii.eqb c ">"
          then strip_tags_from None r
          else strip_tags_from (Some (p ++ str c)) r
      end
  end.

Definition strip_tags (s : string) : string := strip_tags_from None s.

(** [s.replace(/\[]\([^)]*\)/g, '')] *)
Fixpoint remove_empty_links_from (pend : option string) (s : string)
  : string :=
  match pend with
  | Some p =>
      match s with
      | EmptyString => p
      | String c r =>
          if Ascii.eqb c ")"
          then remove_empty_links_from None r
          else remove_empty_links_from (Some (p ++ str c)) r
      end
  | None =>
      match s with
      | EmptyString => EmptyString
      | String "[" (String "]" (String "(" r)) =>
          remove_empty_links_from (Some "[](") r
      | String c r => String c (remove_empty_links_from None r)
      end
  end.

Definition remove_empty_links (s : string) : string :=
  remove_empty_links_from None s.

(** [s.startsWith(p)] *)
Definition startsWith (p s : string) : bool := String.prefix p s.

(** [s.substring(0, n)] *)
Definition take (n : nat) (s : string) : string := String.substring 0 n s.

(** [s.lastIndexOf(' ')], [None] standing for [-1]. *)
Fixpoint lastIndexOf_space (s : string) : option nat :=
  match s with
  | EmptyString => None
  | String c r =>
      match lastIndexOf_space r with
      | Some i => Some (S i)
      | None => if Ascii.eqb c " " then Some 0 else None
      end
  end.

(** Template interpolation of a non-negative integer. *)
Definition of_nat (n : nat) : string :=
  NilEmpty.string_of_uint (Nat.to_uint n).

(** [lines.join('\n')] *)
Definition join_lines (l : list string) : string :=
  String.concat (str nl) l.

(** ** Spacing after images

    The replacement of an image reference followed by blank lines: the
    expression reads [!], [\[], a group of code units other than [\]],
    [\]], [(], a non-empty group of code units other than [)], [)] and
    then [\s*\n\s*\n]; the match becomes [!\[$1\]($2)\n\n]. *)

(** The text before the first [stop] and the text after it. *)
Fixpoint span_until (stop : ascii) (s : string) : option (string * string) :=
  match s with
  | EmptyString => None
  | String c r =>
      if Ascii.eqb c stop then Some (EmptyString, r)
      else match span_until stop r with
           | Some (a, rest) => Some (String c a, rest)
           | None => None
           end
  end.

(** The longest whitespace prefix and what follows it. *)
Fixpoint span_ws (s : string) : string * string :=
  match s with
  | EmptyString => (EmptyString, EmptyString)
  | String c r =>
      if is_space c
      then let (w, rest) := span_ws r in (String c w, rest)
      else (EmptyString, s)
  end.

Fixpoint count_nl (s : string) : nat :=
  match s with
  | EmptyString => 0
  | String c r => (if Ascii.eqb c nl then 1 else 0) + count_nl r
  end.

(** What follows the last line feed of [w]. *)
Fixpoint after_last_nl (w : string) : string :=
  match w with
  | EmptyString => EmptyString
  | String c r =>
      if Nat.ltb 0 (count_nl r) then after_last_nl r
      else if Ascii.eqb c nl then r else w
  end.

(** A match that starts at [!\[], given the text after these two code
    units: the two groups and the text after the match.  Neither group
    can give back a code unit, since the one after it is the one it
    excludes; [\s*\n\s*\n] ends at the last line feed of the whitespace
    after [)] and needs two of them. *)
Definition match_image_tail (s : string) : option (string * string * string) :=
  match span_until "]" s with
  | Some (alt, String "(" r2) =>
      match span_until ")" r2 with
      | Some (src, r3) =>
          if is_empty src then None
          else
            let (w, r4) := span_ws r3 in
            if Nat.leb 2 (count_nl w)
            then Some (alt, src, after_last_nl w ++ r4)
            else None
      | None => None
      end
  | _ => None
  end.

(** A match that starts at the head of [s]. *)
Definition image_at (s : string) : option (string * string * string) :=
  match s with
  | String c1 (String c2 r) =>
      if Ascii.eqb c1 "!" && Ascii.eqb c2 "[" then match_image_tail r
      else None
  | _ => None
  end.

(** The scan, left to right: a match is replaced and the scan goes on
    after it, otherwise one code unit is copied.  Every step consumes a
    code unit, so a budget of [length s] steps reaches the end of [s]. *)
Fixpoint fix_image_spacing_steps (n : nat) (s : string) : string :=
  match n with
  | 0 => s
  | S n' =>
      match image_at s with
      | Some (alt, src, rest) =>
          "![" ++ alt ++ "](" ++ src ++ ")" ++ str nl ++ str nl
            ++ fix_image_spacing_steps n' rest
      | None =>
          match s with
          | EmptyString => EmptyString
          | String c r => String c (fix_image_spacing_steps n' r)
          end
      end
  end.

Definition fix_image_spacing (s : string) : string :=
  fix_image_spacing_steps (String.length s) s.

(** ** File names *)

(** The class of the first replacement of [sanitizeFileName]: the
    control characters below U+0020 and the nine characters that file
    systems refuse (angle brackets, colon, double quote, slash,
    backslash, bar, question mark, asterisk). *)
Definition is_unsafe (c : ascii) : bool :=
  Nat.ltb (nat_of_ascii c) 32
  || Ascii.eqb c "<" || Ascii.eqb c ">" || Ascii.eqb c ":"
  || Ascii.eqb c dquote || Ascii.eqb c "/" || Ascii.eqb c backslash
  || Ascii.eqb c "|" || Ascii.eqb c "?" || Ascii.eqb c "*".

(** The replacement of every character of that class by a dash. *)
Fixpoint replace_unsafe (s : string) : string :=
  match s with
  | EmptyString => EmptyString
  | String c r => String (if is_unsafe c then "-"%char else c) (replace_unsafe r)
  end.

(** [s.replace(/\s+/g, '-')] *)
Fixpoint ws_runs_to_dash_from (in_ws : bool) (s : string) : string :=
  match s with
  | EmptyString => EmptyString
  | String c r =>
      if is_space c
      then if in_ws then ws_runs_to_dash_from true r
           else String "-" (ws_runs_to_dash_from true r)
      else String c (ws_runs_to_dash_from false r)
  end.

Definition ws_runs_to_dash (s : string) : string :=
  ws_runs_to_dash_from false s.

(** [s.replace(/\s/g, '-')] *)
Fixpoint ws_each_to_dash (s : string) : string :=
  match s with
  | EmptyString => EmptyString
  | String c r => String (if is_space c then "-"%char else c) (ws_each_to_dash r)
  end.

(** [s.replace(/-+/g, '-')] *)
Fixpoint collapse_dashes_from (in_run : bool) (s : string) : string :=
  match s with
  | EmptyString => EmptyString
  | String c r =>
      if Ascii.eqb c "-"
      then if in_run then collapse_dashes_from true r
           else String "-" (collapse_dashes_from true r)
      else String c (collapse_dashes_from false r)
  end.

Definition collapse_dashes (s : string) : string :=
  collapse_dashes_from false s.

(** The [-$] alternative: a dash that ends the string goes. *)
Fixpoint drop_last_dash (s : string) : string :=
  match s with
  | EmptyString => EmptyString
  | String c r =>
      if Ascii.eqb c "-" && is_empty r then EmptyString
      else String c (drop_last_dash r)
  end.

(** [s.replace(/^-|-$/g, '')]: a dash at the start goes, and the scan,
    which goes on after it, removes a dash at the end of what is left. *)
Definition strip_edge_dashes (s : string) : string :=
  match s with
  | String "-" r => drop_last_dash r
  | _ => drop_last_dash s
  end.

(** [s.split('T')[0]] *)
Fixpoint before_T (s : string) : string :=
  match s with
  | EmptyString => EmptyString
  | String c r => if Ascii.eqb c "T" then EmptyString else String c (before_T r)
  end.

(** ASCII lower case, as selector matching applies it to the values of
    some attributes. *)
Definition lower_char (c : ascii) : ascii :=
  let n := nat_of_ascii c in
  if Nat.leb 65 n && Nat.leb n 90 then ascii_of_nat (n + 32) else c.

Fixpoint lower (s : string) : string :=
  match s with
  | EmptyString => EmptyString
  | String c r => String (lower_char c) (lower r)
  end.

(** ** The language of a code block *)

(** [\w] *)
Definition is_word (c : ascii) : bool :=
  let n := nat_of_ascii c in
  (Nat.leb 48 n && Nat.leb n 57) || (Nat.leb 65 n && Nat.leb n 90)
  || (Nat.leb 97 n && Nat.leb n 122) || Nat.eqb n 95.

(** The longest prefix of word characters. *)
Fixpoint word_prefix (s : string) : string :=
  match s with
  | EmptyString => EmptyString
  | String c r => if is_word c then String c (word_prefix r) else EmptyString
  end.

(** What follows the prefix [p] of [s], if [s] starts with [p]. *)
Fixpoint after_prefix (p s : string) : option string :=
  match p with
  | EmptyString => Some s
  | String a p' =>
      match s with
      | EmptyString => None
      | String b s' => if Ascii.eqb a b then after_prefix p' s' else None
      end
  end.

(** [className.match(/language-(\w+)/)]: the group of the leftmost
    match, [None] when there is none. *)
Fixpoint match_language (className : string) : option string :=
  match after_prefix "language-" className with
  | Some rest =>
      if is_empty (word_prefix rest)
      then match className with
           | EmptyString => None
           | String _ r => match_language r
           end
      else Some (word_prefix rest)
  | None =>
      match className with
      | EmptyString => None
      | String _ r => match_language r
      end
  end.

End Js.

(* ================================================================== *)
(** * Exceptions *)
(* ================================================================== *)

(** A computation either returns or throws; the thrown value is not
    inspected anywhere in the sources. *)
Inductive Result (A : Type) : Type :=
| Ok (a : A)
| Throw.

Arguments Ok {A} a.
Arguments Throw {A}.

Definition rbind {A B} (m : Result A) (k : A -> Result B) : Result B :=
  match m with Ok a => k a | Throw => Throw end.

(** [try { body } catch { handler }] *)
Definition try_catch {A} (body handler : Result A) : Result A :=
  match body with Ok a => Ok a | Throw => handler end.

Declare Scope result_scope.
Delimit Scope result_scope with result.
Notation "x <- m ;; k" := (rbind m (fun x => k))
  (at level 61, m at next level, right associativity) : result_scope.

(* ================================================================== *)
(** * The document object model *)
(* ================================================================== *)

Module Dom.

Definition attrs := list (string * string).

(** A node of the tree.  An element carries the identity under which
    script references denote it. *)
#[local] Unset Elimination Schemes.
Inductive node : Type :=
| Text (data : string)
| Comment (data : string)
| Elem (id : nat) (tag : string) (a : attrs) (children : list node).
#[local] Set Elimination Schemes.

(** Induction on a tree, with the hypothesis for every child. *)
Fixpoint node_ind (P : node -> Prop)
         (HT : forall d, P (Text d)) (HC : forall d, P (Comment d))
         (HE : forall i t a ch, Forall P ch -> P (Elem i t a ch))
         (n : node) : P n :=
  match n with
  | Text d => HT d
  | Comment d => HC d
  | Elem i t a ch =>
      HE i t a ch
        ((fix go (l : list node) : Forall P l :=
            match l with
            | [] => Forall_nil P
            | x :: r => Forall_cons x (node_ind HT HC HE x) (go r)
            end) ch)
  end.

Definition is_elem (n : node) : bool :=
  match n with Elem _ _ _ _ => true | _ => false end.

Definition children_of (n : node) : list node :=
  match n with Elem _ _ _ ch => ch | _ => [] end.

Definition tag_of (n : node) : string :=
  match n with Elem _ t _ _ => t | _ => EmptyString end.

Definition attrs_of (n : node) : attrs :=
  match n with Elem _ _ a _ => a | _ => [] end.

(** [el.getAttribute(k)]; [None] is [null]. *)
Fixpoint lookup_attr (k : string) (a : attrs) : option string :=
  match a with
  | [] => None
  | (k', v) :: r => if String.eqb k k' then Some v else lookup_attr k r
  end.

Definition getAttribute (k : string) (n : node) : option string :=
  lookup_attr k (attrs_of n).

Definition hasAttribute (k : string) (n : node) : bool :=
  match getAttribute k n with Some _ => true | None => false end.

(** [el.setAttribute(k, v)] on the attribute list. *)
Fixpoint update_attr (k v : string) (a : attrs) : attrs :=
  match a with
  | [] => [(k, v)]
  | (k', v') :: r =>
      if String.eqb k k' then (k, v) :: r else (k', v') :: update_attr k v r
  end.

(** [node.textContent]: the data of the text nodes below, in order. *)
Fixpoint textContent (n : node) : string :=
  match n with
  | Text d => d
  | Comment _ => EmptyString
  | Elem _ _ _ ch =>
      (fix go (l : list node) : string :=
         match l with
         | [] => EmptyString
         | x :: r => textContent x ++ go r
         end) ch
  end.

(** ** Selectors *)

Inductive simple : Type :=
| STag (t : string)                 (* [t] *)
| SClass (c : string)               (* [.c] *)
| SId (i : string)                  (* [#i] *)
| SAttr (k : string)                (* [[k]] *)
| SAttrEq (k v : string)            (* [[k="v"]] *)
| SAttrSub (k v : string).          (* [[k*="v"]] *)

(** A compound selector is a conjunction of simple ones, a complex one
    a chain of compounds under the descendant combinator (subject last),
    a selector a comma-separated list of complex ones. *)
Definition compound := list simple.
Definition complex := list compound.
Definition selector := list complex.

(** ASCII whitespace separates class names. *)
Definition is_class_sep (c : ascii) : bool :=
  let n := nat_of_ascii c in
  Nat.eqb n 9 || Nat.eqb n 10 || Nat.eqb n 12 || Nat.eqb n 13 || Nat.eqb n 32.

Fixpoint class_tokens_from (cur : string) (s : string) : list string :=
  match s with
  | EmptyString => [cur]
  | String c r =>
      if is_class_sep c then cur :: class_tokens_from EmptyString r
      else class_tokens_from (cur ++ Js.str c) r
  end.

Definition has_class (c : string) (a : attrs) : bool :=
  match lookup_attr "class" a with
  | Some v => existsb (String.eqb c) (class_tokens_from EmptyString v)
  | None => false
  end.

(** [hay.includes(needle)] *)
Fixpoint includes (needle hay : string) : bool :=
  String.prefix needle hay ||
  match hay with
  | EmptyString => false
  | String _ r => includes needle r
  end.

(** The attributes whose values a selector compares without regard to
    ASCII case on the elements of an HTML document. *)
Definition case_insensitive_values : list string :=
  [ "accept"; "accept-charset"; "align"; "alink"; "axis"; "bgcolor";
    "charset"; "checked"; "clear"; "codetype"; "color"; "compact";
    "declare"; "defer"; "dir"; "direction"; "disabled"; "enctype"; "face";
    "frame"; "hreflang"; "http-equiv"; "lang"; "language"; "link"; "media";
    "method"; "multiple"; "nohref"; "noresize"; "noshade"; "nowrap";
    "readonly"; "rel"; "rev"; "rules"; "scope"; "scrolling"; "selected";
    "shape"; "target"; "text"; "type"; "valign"; "valuetype"; "vlink" ].

(** The value of attribute [k] as a selector compares it. *)
Definition compared (k v : string) : string :=
  if existsb (String.eqb k) case_insensitive_values then Js.lower v else v.

(** The document is an HTML document out of quirks mode: tags and
    attribute names are in lower case in the tree and in the selectors
    of the sources, class names and identifiers are compared as they
    are, and so are attribute values, except those of the attributes
    listed above. *)
Definition matches_simple (s : simple) (t : string) (a : attrs) : bool :=
  match s with
  | STag t' => String.eqb t' t
  | SClass c => negb (Js.is_empty c) && has_class c a
  | SId i =>
      match lookup_attr "id" a with Some v => String.eqb i v | None => false end
  | SAttr k =>
      match lookup_attr k a with Some _ => true | None => false end
  | SAttrEq k v =>
      match lookup_attr k a with
      | Some v' => String.eqb (compared k v) (compared k v')
      | None => false
      end
  | SAttrSub k v =>
      match lookup_attr k a with
      | Some v' =>
          negb (Js.is_empty v) && includes (compared k v) (compared k v')
      | None => false
      end
  end.

Definition matches_compound (c : compound) (e : string * attrs) : bool :=
  forallb (fun s => matches_simple s (fst e) (snd e)) c.

(** [anc] lists the ancestors, nearest first; [rest] the compounds still
    to be found among them, innermost first. *)
Fixpoint ancestors_match (rest : list compound) (anc : list (string * attrs))
  : bool :=
  match rest with
  | [] => true
  | c :: rest' =>
      match anc with
      | [] => false
      | e :: anc' =>
          (matches_compound c e && ancestors_match rest' anc')
          || ancestors_match rest anc'
      end
  end.

Definition matches_complex (cx : complex) (anc : list (string * attrs))
           (e : string * attrs) : bool :=
  match rev cx with
  | [] => false
  | subject :: outer => matches_compound subject e && ancestors_match outer anc
  end.

Definition matches (sel : selector) (anc : list (string * attrs))
           (e : string * attrs) : bool :=
  existsb (fun cx => matches_complex cx anc e) sel.

(** ** Queries *)

Definition info (n : node) : string * attrs := (tag_of n, attrs_of n).

(** The elements of the subtree of [n] (itself included) that match,
    in document order; [anc] are the ancestors of [n]. *)
Fixpoint select_from (sel : selector) (anc : list (string * attrs))
         (n : node) : list node :=
  match n with
  | Elem _ t a ch =>
      ((if matches sel anc (t, a) then [n] else []) ++
       (fix go (l : list node) : list node :=
          match l with
          | [] => []
          | x :: r => (select_from sel ((t, a) :: anc) x ++ go r)%list
          end) ch)%list
  | _ => []
  end.

Definition select_in_list (sel : selector) (anc : list (string * attrs))
           (l : list node) : list node :=
  flat_map (select_from sel anc) l.

(** [el.querySelectorAll(sel)]: matching descendants of [el].  The
    sources pass no combinator to a scoped query, so the ancestors of
    [el] itself are not needed. *)
Definition querySelectorAll (sel : selector) (el : node) : list node :=
  select_in_list sel [info el] (children_of el).

(** ** Identity-directed updates of a tree *)

Definition has_id (i : nat) (n : node) : bool :=
  match n with Elem j _ _ _ => Nat.eqb i j | _ => false end.

(** The identities of the elements of a subtree. *)
Fixpoint ids (n : node) : list nat :=
  match n with
  | Elem i _ _ ch =>
      i :: (fix go (l : list node) : list nat :=
              match l with [] => [] | x :: r => (ids x ++ go r)%list end) ch
  | _ => []
  end.

Definition ids_list (l : list node) : list nat := flat_map ids l.

(** The identities of the elements of a list themselves, as a static
    node list holds them. *)
Definition root_ids (l : list node) : list nat :=
  flat_map (fun n => match n with Elem i _ _ _ => [i] | _ => [] end) l.

(** The element of identity [i] in the subtree of [n]. *)
Fixpoint find_elem (i : nat) (n : node) : option node :=
  match n with
  | Elem j _ _ ch =>
      if Nat.eqb i j then Some n
      else (fix go (l : list node) : option node :=
              match l with
              | [] => None
              | x :: r =>
                  match find_elem i x with Some e => Some e | None => go r end
              end) ch
  | _ => None
  end.

(** Detach the element of identity [i] from its parent, wherever it
    occurs strictly below [n]. *)
Fixpoint prune (i : nat) (n : node) : node :=
  match n with
  | Elem j t a ch =>
      Elem j t a
        ((fix go (l : list node) : list node :=
            match l with
            | [] => []
            | x :: r => if has_id i x then go r else prune i x :: go r
            end) ch)
  | _ => n
  end.

(** [setAttribute(k, v)] on the element of identity [i]. *)
Fixpoint set_attr_at (i : nat) (k v : string) (n : node) : node :=
  match n with
  | Elem j t a ch =>
      Elem j t (if Nat.eqb i j then update_attr k v a else a)
        ((fix go (l : list node) : list node :=
            match l with
            | [] => []
            | x :: r => set_attr_at i k v x :: go r
            end) ch)
  | _ => n
  end.

(** A deep copy whose elements receive the identities [nx], [nx+1], ...
    in document order; returns the first unused identity. *)
Fixpoint relabel (n : node) (nx : nat) : node * nat :=
  match n with
  | Elem _ t a ch =>
      let (ch', k) :=
        (fix go (l : list node) (k : nat) : list node * nat :=
           match l with
           | [] => ([], k)
           | x :: r =>
               let (x', k1) := relabel x k in
               let (r', k2) := go r k1 in
               (x' :: r', k2)
           end) ch (S nx) in
      (Elem nx t a ch', k)
  | _ => (n, nx)
  end.

(** [relabel] along a list of siblings. *)
Fixpoint relabel_list (l : list node) (k : nat) : list node * nat :=
  match l with
  | [] => ([], k)
  | x :: r =>
      let (x', k1) := relabel x k in
      let (r', k2) := relabel_list r k1 in
      (x' :: r', k2)
  end.

(** Rewrite the attributes of every element of a tree; [f] receives the
    tag and the attributes. *)
Fixpoint map_attrs (f : string -> attrs -> attrs) (n : node) : node :=
  match n with
  | Elem j t a ch =>
      Elem j t (f t a)
        ((fix go (l : list node) : list node :=
            match l with [] => [] | x :: r => map_attrs f x :: go r end) ch)
  | _ => n
  end.

End Dom.

(* ================================================================== *)
(** * Documents, host facilities and libraries *)
(* ================================================================== *)

(** A document as the HTML parser builds it from a string: the parser
    always creates the [html], [head] and [body] elements, so that
    [doc_body], the [body] of the parsed document, is an element. *)
Record document : Type := {
  doc_title : string;
  doc_root_id : nat;
  doc_head : Dom.node;
  doc_body : Dom.node
}.

(** What the browser provides.  [new_DOMParser] is [new DOMParser()],
    which throws where the constructor is not defined (a service
    worker has none); [parseFromString] is the method of the parser, for
    [text/html].  [URL_hostname u] is [new URL(u).hostname] and
    [URL_href r b] is [new URL(r, b).href]; both constructors throw on
    an address that does not parse.  [form_named f n] tells whether the
    form element [f] owns a control or an image of name or id [n], which
    is then the value of the property [f[n]]: ownership is recorded by
    the parser and by [form] attributes, outside the subtree of [f]. *)
Class Host : Type := {
  new_DOMParser : Result unit;
  parseFromString : string -> document;        (* DOMParser, text/html *)
  parseFragment : string -> list Dom.node;     (* the innerHTML setter *)
  innerHTML : Dom.node -> string;              (* the innerHTML getter *)
  outerHTML : Dom.node -> string;
  URL_hostname : string -> Result string;
  URL_href : string -> string -> Result string;
  form_named : Dom.node -> string -> bool
}.

(** What defuddle returns, as far as the extractor reads it. *)
Record DefuddleResult : Type := {
  df_textContent : string;
  df_innerHTML : string
}.

(** The page a content script runs in: [document.title], the tree of
    [document.documentElement], [window.location.href] and the instant
    read from the clock, already in ISO-8601 form. *)
Record page : Type := {
  page_title : string;
  page_root : Dom.node;
  location_href : string;
  now_iso : string
}.

(** [document.querySelector(sel)] *)
Definition page_querySelector (sel : Dom.selector) (p : page)
  : option Dom.node :=
  hd_error (Dom.select_from sel [] (page_root p)).

(** [document.body]: the first [body] or [frameset] child of the root,
    or [null]: a document has none before the parser reaches it, after
    it was removed, or when the root is not [html]. *)
Definition page_body (p : page) : option Dom.node :=
  find (fun n => String.eqb (Dom.tag_of n) "body"
                 || String.eqb (Dom.tag_of n) "frameset")
       (Dom.children_of (page_root p)).

(** The third-party libraries, each call of which may throw:
    [defuddle(document, options)] with the options of the extractor,
    [DOMPurify.sanitize(html, config)] with its allow-lists, and
    [turndownService.turndown(html)] of the service configured by the
    converter. *)
Class Libs : Type := {
  defuddle : page -> Result (option DefuddleResult);
  sanitize : string -> Result string;
  turndown : string -> Result string
}.

(** [ExtractedContent] of [src/types/index.ts]. *)
Record ExtractedContent : Type := {
  title : string;
  content : string;
  author : string;
  description : string;
  url : string;
  domain : string;
  timestamp : string;
  wordCount : nat;
  excerpt : string
}.

(* ================================================================== *)
(** * src/utils/content-extractor.ts *)
(* ================================================================== *)

Module Extractor.
Import Dom.
Local Open Scope result_scope.

(** [text.trim().split(/\s+/).filter(word => word.length > 0).length] *)
Definition countWords (text : string) : nat :=
  List.length (filter Js.truthy (Js.split_ws (Js.trim text))).

Definition createExcerpt (text : string) (maxLength : nat) : string :=
  let cleanText := Js.trim (Js.collapse_ws text) in
  if Nat.leb (String.length cleanText) maxLength then cleanText
  else
    let truncated := Js.take maxLength cleanText in
    match Js.lastIndexOf_space truncated with
    | Some (S i) => Js.take (S i) truncated ++ "..."
    | _ => truncated ++ "..."
    end.

Section WithHost.
Context {H : Host} {L : Libs}.

Definition getDomain (u : string) : Result string :=
  try_catch (URL_hostname u) (Ok "unknown").

(** [meta[name="n"], meta[property="n"]] *)
Definition meta_selector (n : string) : selector :=
  [ [[STag "meta"; SAttrEq "name" n]];
    [[STag "meta"; SAttrEq "property" n]] ].

Definition extractMetaContent (p : page) (n : string) : string :=
  match page_querySelector (meta_selector n) p with
  | Some m =>
      match getAttribute "content" m with
      | Some v => Js.or_else v EmptyString
      | None => EmptyString
      end
  | None => EmptyString
  end.

Definition author_selectors : list selector :=
  [ [[[STag "meta"; SAttrEq "name" "author"]]];
    [[[STag "meta"; SAttrEq "property" "article:author"]]];
    [[[STag "meta"; SAttrEq "name" "twitter:creator"]]];
    [[[SAttrEq "rel" "author"]]];
    [[[SClass "author"]]];
    [[[SClass "byline"]]];
    [[[SClass "post-author"]]] ].

Fixpoint extractAuthor_from (p : page) (sels : list selector)
  : string :=
  match sels with
  | [] => EmptyString
  | sel :: rest =>
      match page_querySelector sel p with
      | Some element =>
          let content :=
            match getAttribute "content" element with
            | Some v => Js.or_else v (textContent element)
            | None => textContent element
            end in
          if Js.truthy (Js.trim content) then Js.trim content
          else extractAuthor_from p rest
      | None => extractAuthor_from p rest
      end
  end.

Definition extractAuthor (p : page) : string :=
  extractAuthor_from p author_selectors.

Definition extractDescription (p : page) : string :=
  Js.or_else (extractMetaContent p "description")
    (Js.or_else (extractMetaContent p "og:description")
       (Js.or_else (extractMetaContent p "twitter:description")
          EmptyString)).

(** [document.body.innerHTML]: reading a property of [null] throws. *)
Definition body_innerHTML (p : page) : Result string :=
  match page_body p with
  | Some body => Ok (innerHTML body)
  | None => Throw
  end.

(** The body of the [try] block. *)
Definition extract_main (p : page) (ttl dom auth descr : string)
  : Result ExtractedContent :=
  result <- defuddle p ;;
  let content0 :=
    match result with
    | Some r =>
        if Js.truthy (df_textContent r)
        then Js.or_else (df_innerHTML r) (df_textContent r)
        else EmptyString
    | None => EmptyString
    end in
  content1 <-
    (if negb (Js.truthy content0)
        || Nat.ltb (String.length (Js.trim content0)) 100
     then body_innerHTML p else Ok content0) ;;
  content2 <- sanitize content1 ;;
  _ <- new_DOMParser ;;
  let plainText :=
    Js.or_else (textContent (doc_body (parseFromString content2)))
      EmptyString in
  Ok {| title := ttl; content := content2; author := auth;
        description := descr; url := location_href p; domain := dom;
        timestamp := now_iso p; wordCount := countWords plainText;
        excerpt := createExcerpt plainText 200 |}.

(** The [catch] block: it reads [document.body] too, and throws in its
    turn when there is none. *)
Definition extract_fallback (p : page) (ttl dom auth descr : string)
  : Result ExtractedContent :=
  match page_body p with
  | Some body =>
      let bodyText := Js.or_else (textContent body) EmptyString in
      Ok {| title := ttl; content := innerHTML body; author := auth;
            description := descr; url := location_href p; domain := dom;
            timestamp := now_iso p; wordCount := countWords bodyText;
            excerpt := createExcerpt bodyText 200 |}
  | None => Throw
  end.

Definition extractPageContent (p : page) : Result ExtractedContent :=
  let ttl := Js.or_else (page_title p) "Untitled" in
  dom <- getDomain (location_href p) ;;
  let auth := extractAuthor p in
  let descr := extractDescription p in
  try_catch (extract_main p ttl dom auth descr)
            (extract_fallback p ttl dom auth descr).

End WithHost.
End Extractor.

(* ================================================================== *)
(** * src/utils/markdown-converter.ts *)
(* ================================================================== *)

Module Converter.
Import Dom.
Local Open Scope result_scope.

Definition quoted (s : string) : string :=
  Js.str Js.dquote ++ s ++ Js.str Js.dquote.

(** The array literal of [createFrontmatter]; [None] is [null]. *)
Definition frontmatter_entries (data : ExtractedContent)
  : list (option string) :=
  [ Some "---";
    Some ("url: " ++ quoted (url data));
    Some ("title: " ++ quoted (Js.escape_quotes (title data)));
    Some ("timestamp: " ++ quoted (timestamp data));
    Some ("domain: " ++ quoted (domain data));
    (if Js.truthy (author data)
     then Some ("author: " ++ quoted (Js.escape_quotes (author data)))
     else None);
    (if Js.truthy (description data)
     then Some ("description: "
                  ++ quoted (Js.escape_quotes (description data)))
     else None);
    Some ("word_count: " ++ Js.of_nat (wordCount data));
    (if Js.truthy (excerpt data)
     then Some ("excerpt: " ++ quoted (Js.escape_quotes (excerpt data)))
     else None);
    Some "---";
    Some EmptyString ].

(** [.filter(Boolean)]: [null] and the empty string go. *)
Fixpoint filter_Boolean (l : list (option string)) : list string :=
  match l with
  | [] => []
  | Some s :: r => if Js.truthy s then s :: filter_Boolean r
                   else filter_Boolean r
  | None :: r => filter_Boolean r
  end.

Definition frontmatter_lines (data : ExtractedContent) : list string :=
  filter_Boolean (frontmatter_entries data).

Definition createFrontmatter (data : ExtractedContent) : string :=
  Js.join_lines (frontmatter_lines data).

(** [sanitizeFileName]; the extractor holds a copy of it. *)
Definition sanitizeFileName (name : string) : string :=
  Js.take 100
    (Js.strip_edge_dashes
       (Js.collapse_dashes
          (Js.ws_runs_to_dash (Js.replace_unsafe (Js.trim name))))).

(** [generateFilename]; [date] is [dayjs().format('YYYY-MM-DD')]. *)
Definition generateFilename (date title : string) : string :=
  date ++ "-" ++ sanitizeFileName title ++ ".md".

(** The replacement of the [preformattedCode] rule, whose filter admits
    a [pre] element with a [code] element below it. *)
Definition code_replacement (content : string) (n : node) : string :=
  match hd_error (querySelectorAll [[[STag "code"]]] n) with
  | None => content
  | Some codeElement =>
      let className :=
        match getAttribute "class" codeElement with
        | Some v => v
        | None => EmptyString
        end in
      let language :=
        match Js.match_language className with
        | Some l => l
        | None => EmptyString
        end in
      let code := Js.or_else (textContent codeElement) EmptyString in
      Js.str Js.nl ++ "```" ++ language ++ Js.str Js.nl ++ code
        ++ Js.str Js.nl ++ "```" ++ Js.str Js.nl
  end.

Section WithHost.
Context {H : Host} {L : Libs}.

(** The effect of the [links.forEach] callback on one element. *)
Definition absolutize_link (baseUrl : string) (t : string) (a : attrs)
  : attrs :=
  if String.eqb t "a" then
    match lookup_attr "href" a with
    | Some href =>
        if Js.truthy href
           && negb (Js.startsWith "http" href)
           && negb (Js.startsWith "mailto:" href)
           && negb (Js.startsWith "#" href)
        then match URL_href href baseUrl with
             | Ok absoluteUrl => update_attr "href" absoluteUrl a
             | Throw => a            (* invalid URL, left as it is *)
             end
        else a
    | None => a
    end
  else a.

(** The effect of the [images.forEach] callback on one element. *)
Definition absolutize_image (baseUrl : string) (t : string) (a : attrs)
  : attrs :=
  if String.eqb t "img" then
    match lookup_attr "src" a with
    | Some src =>
        if Js.truthy src
           && negb (Js.startsWith "http" src)
           && negb (Js.startsWith "data:" src)
        then match URL_href src baseUrl with
             | Ok absoluteUrl => update_attr "src" absoluteUrl a
             | Throw => a
             end
        else a
    | None => a
    end
  else a.

(** What [processUrls] does with the parser it constructed: only the
    body of the parsed document is read back. *)
Definition processUrls (html baseUrl : string) : string :=
  let doc := parseFromString html in
  innerHTML
    (map_attrs (absolutize_image baseUrl)
       (map_attrs (absolutize_link baseUrl) (doc_body doc))).

(** [Array.from(table.querySelectorAll('td, th')).some(...)] *)
Definition hasComplexStructure (table : node) : bool :=
  existsb (fun cell => hasAttribute "colspan" cell
                       || hasAttribute "rowspan" cell)
    (querySelectorAll [[[STag "td"]]; [[STag "th"]]] table).

(** The replacement of the [table] rule: [content] is what turndown
    made of the children of [table]. *)
Definition table_replacement (content : string) (table : node) : string :=
  if hasComplexStructure table
  then Js.str Js.nl ++ Js.str Js.nl ++ outerHTML table
         ++ Js.str Js.nl ++ Js.str Js.nl
  else content.

(** The three clean-up replacements after [turndown] returns. *)
Definition cleanup (markdown : string) : string :=
  Js.fix_image_spacing
    (Js.remove_empty_links (Js.collapse_newlines markdown)).

Definition fallbackContent (data : ExtractedContent) : string :=
  Js.trim (Js.collapse_ws (Js.strip_tags (content data))).

(** The call [processUrls(html, baseUrl)]: its first statement is
    [new DOMParser()]. *)
Definition processUrls_call (html baseUrl : string) : Result string :=
  _ <- new_DOMParser ;;
  Ok (processUrls html baseUrl).

(** The call of [processUrls] stands before the [try] block. *)
Definition convertToMarkdown (data : ExtractedContent) : Result string :=
  processedHtml <- processUrls_call (content data) (url data) ;;
  try_catch
    (markdown <- turndown processedHtml ;;
     Ok (createFrontmatter data ++ Js.str Js.nl
           ++ Js.trim (cleanup markdown)))
    (Ok (createFrontmatter data ++ Js.str Js.nl ++ fallbackContent data)).

End WithHost.
End Converter.

(* ================================================================== *)
(** * Scripts that mutate trees: the store of live and detached nodes *)
(* ================================================================== *)

Module Store.
Import Dom.

(** Everything a script can reach: the tree of the live document, the
    trees that are attached to no document (clones, removed subtrees),
    and the next unused element identity.  A script value that denotes
    an element is its identity. *)
Record World : Type := {
  w_title : string;             (* [document.title] *)
  w_href : string;              (* [window.location.href] *)
  w_hostname : string;          (* [window.location.hostname] *)
  w_now : string;               (* [new Date().toISOString()] *)
  live : node;                  (* [document.documentElement] *)
  detached : list node;
  next_id : nat
}.

Definition with_trees (w : World) (l : node) (d : list node) (n : nat)
  : World :=
  {| w_title := w_title w; w_href := w_href w; w_hostname := w_hostname w;
     w_now := w_now w; live := l; detached := d; next_id := n |}.

(** A computation reads and updates the world and may throw; the
    updates made before a throw stay. *)
Definition M (A : Type) : Type := World -> Result A * World.

Definition ret {A} (a : A) : M A := fun w => (Ok a, w).

Definition bind {A B} (m : M A) (k : A -> M B) : M B :=
  fun w => match m w with
           | (Ok a, w') => k a w'
           | (Throw, w') => (Throw, w')
           end.

Definition throw {A} : M A := fun w => (Throw, w).

Definition lift {A} (r : Result A) : M A := fun w => (r, w).

(** [list.forEach(f)] *)
Fixpoint forEach {A} (l : list A) (f : A -> M unit) : M unit :=
  match l with
  | [] => ret tt
  | x :: r => bind (f x) (fun _ => forEach r f)
  end.

Fixpoint find_in_list (i : nat) (l : list node) : option node :=
  match l with
  | [] => None
  | x :: r =>
      match find_elem i x with Some e => Some e | None => find_in_list i r end
  end.

(** The element a reference denotes. *)
Definition deref (i : nat) (w : World) : option node :=
  match find_elem i (live w) with
  | Some e => Some e
  | None => find_in_list i (detached w)
  end.

Definition read {A} (i : nat) (f : node -> A) : M A :=
  fun w => match deref i w with
           | Some e => (Ok (f e), w)
           | None => (Throw, w)
           end.

(** [el.cloneNode(true)]: the copy is a new detached tree. *)
Definition cloneNode (i : nat) : M nat :=
  fun w => match deref i w with
           | Some e =>
               let (e', n) := relabel e (next_id w) in
               (Ok (next_id w), with_trees w (live w) (e' :: detached w) n)
           | None => (Throw, w)
           end.

(** [el.querySelectorAll(sel)]: a static list of references. *)
Definition querySelectorAll (i : nat) (sel : selector) : M (list nat) :=
  read i (fun e => root_ids (Dom.querySelectorAll sel e)).

Definition is_root (i : nat) (w : World) : bool :=
  has_id i (live w) || existsb (has_id i) (detached w).

(** [el.remove()]: nothing happens to an element without a parent;
    otherwise it leaves its parent and becomes a detached tree. *)
Definition remove (i : nat) : M unit :=
  fun w =>
    if is_root i w then (Ok tt, w)
    else match deref i w with
         | Some e =>
             (Ok tt, with_trees w (prune i (live w))
                       (e :: map (prune i) (detached w)) (next_id w))
         | None => (Throw, w)
         end.

Definition getAttribute (i : nat) (k : string) : M (option string) :=
  read i (Dom.getAttribute k).

Definition setAttribute (i : nat) (k v : string) : M unit :=
  fun w =>
    match deref i w with
    | Some _ =>
        (Ok tt, with_trees w (set_attr_at i k v (live w))
                  (map (set_attr_at i k v) (detached w)) (next_id w))
    | None => (Throw, w)
    end.

(** Reading a component of the world. *)
Definition gets {A} (f : World -> A) : M A := fun w => (Ok (f w), w).

(** [document.querySelector(sel)] *)
Definition document_querySelector (sel : selector) : M (option node) :=
  gets (fun w => hd_error (select_from sel [] (live w))).

(** [document.body]: the first [body] or [frameset] child of the root,
    or [null]. *)
Definition document_body : M (option node) :=
  gets (fun w => find (fun n => String.eqb (tag_of n) "body"
                                || String.eqb (tag_of n) "frameset")
                      (children_of (live w))).

End Store.

(* ================================================================== *)
(** * src/content.js and src/background.js *)
(* ================================================================== *)

Module Vanilla.
Import Dom.

(** ** Metadata *)

(** The [content] property of an element: the attribute of a [meta]
    element, the document fragment of a [template] element, the control
    or image of that name a [form] element owns, and [undefined]
    otherwise. *)
Inductive content_prop : Type :=
| CUndefined
| CString (s : string)
| CFragment
| CControl.

Section Metadata.
Context {H : Host}.

Definition content_of (e : node) : content_prop :=
  if String.eqb (tag_of e) "meta" then
    CString (match Dom.getAttribute "content" e with
             | Some v => v
             | None => EmptyString
             end)
  else if String.eqb (tag_of e) "template" then CFragment
  else if String.eqb (tag_of e) "form" && form_named e "content"
  then CControl
  else CUndefined.

(** [(element.content || element.textContent || '').trim()]: a fragment
    and a control are truthy and have no [trim] method. *)
Definition candidate_text (e : node) : Result string :=
  match content_of e with
  | CFragment | CControl => Throw
  | CString s =>
      Ok (Js.trim (Js.or_else s (Js.or_else (textContent e) EmptyString)))
  | CUndefined => Ok (Js.trim (Js.or_else (textContent e) EmptyString))
  end.

(** The loop shared by [getTitle], [getDescription] and [getAuthor]:
    the first selector whose first match has an accepted text. *)
Fixpoint first_accepted (accept : string -> bool) (root : node)
         (selectors : list selector) : Result (option string) :=
  match selectors with
  | [] => Ok None
  | sel :: rest =>
      match hd_error (select_from sel [] root) with
      | Some element =>
          rbind (candidate_text element) (fun t =>
            if accept t then Ok (Some t)
            else first_accepted accept root rest)
      | None => first_accepted accept root rest
      end
  end.

Definition title_selectors : list selector :=
  [ [[[STag "h1"]]];
    [[[STag "title"]]];
    [[[SAttrEq "property" "og:title"]]];
    [[[SAttrEq "name" "twitter:title"]]];
    [[[SClass "title"]]];
    [[[SClass "article-title"]]] ].

Definition title_ok (t : string) : bool :=
  Js.truthy t && Nat.ltb 3 (String.length t).

Definition getTitle (w : Store.World) : Result string :=
  rbind (first_accepted title_ok (Store.live w) title_selectors) (fun r =>
    Ok (match r with
        | Some t => t
        | None => Js.or_else (Store.w_title w) "Untitled Page"
        end)).

Definition description_selectors : list selector :=
  [ [[[SAttrEq "name" "description"]]];
    [[[SAttrEq "property" "og:description"]]];
    [[[SAttrEq "name" "twitter:description"]]];
    [[[SClass "description"]]];
    [[[SClass "excerpt"]]];
    [[[STag "p"]]] ].

Definition description_ok (t : string) : bool :=
  Js.truthy t && Nat.ltb 10 (String.length t)
  && Nat.ltb (String.length t) 300.

Definition getDescription (w : Store.World) : Result string :=
  rbind (first_accepted description_ok (Store.live w) description_selectors)
    (fun r => Ok (match r with Some t => t | None => EmptyString end)).

Definition author_selectors : list selector :=
  [ [[[SAttrEq "name" "author"]]];
    [[[SAttrEq "property" "article:author"]]];
    [[[SAttrEq "rel" "author"]]];
    [[[SClass "author"]]];
    [[[SClass "byline"]]];
    [[[SClass "writer"]]] ].

Definition author_ok (t : string) : bool :=
  Js.truthy t && Nat.ltb 2 (String.length t)
  && Nat.ltb (String.length t) 100.

Definition getAuthor (w : Store.World) : Result string :=
  rbind (first_accepted author_ok (Store.live w) author_selectors)
    (fun r => Ok (match r with Some t => t | None => EmptyString end)).

End Metadata.

(** ** The recursive converter *)

Definition nl : string := Js.str Js.nl.

(** The lines of a list: one per [li] below it, numbered from the
    position in the static list. *)
Fixpoint list_items (ordered : bool) (index : nat) (items : list node)
  : string :=
  match items with
  | [] => EmptyString
  | item :: rest =>
      let bullet := if ordered then Js.of_nat (index + 1) ++ "." else "-" in
      bullet ++ " " ++ Js.trim (textContent item) ++ nl
        ++ list_items ordered (S index) rest
  end.

Definition heading (marks : string) (innerText : string) : string :=
  nl ++ marks ++ " " ++ innerText ++ nl ++ nl.

(** The [switch] over the tag name; [inner] is the conversion of the
    element itself, which three branches append. *)
Definition emit (tagName : string) (n : node) (inner : string) : string :=
  let innerText := Js.trim (textContent n) in
  if String.eqb tagName "h1" then heading "#" innerText
  else if String.eqb tagName "h2" then heading "##" innerText
  else if String.eqb tagName "h3" then heading "###" innerText
  else if String.eqb tagName "h4" then heading "####" innerText
  else if String.eqb tagName "h5" then heading "#####" innerText
  else if String.eqb tagName "h6" then heading "######" innerText
  else if String.eqb tagName "p" then nl ++ inner ++ nl ++ nl
  else if String.eqb tagName "strong" || String.eqb tagName "b"
  then "**" ++ innerText ++ "**"
  else if String.eqb tagName "em" || String.eqb tagName "i"
  then "*" ++ innerText ++ "*"
  else if String.eqb tagName "code" then "`" ++ innerText ++ "`"
  else if String.eqb tagName "pre"
  then nl ++ "```" ++ nl ++ innerText ++ nl ++ "```" ++ nl ++ nl
  else if String.eqb tagName "a"
  then let href := match Dom.getAttribute "href" n with
                   | Some v => Js.or_else v "#"
                   | None => "#"
                   end in
       "[" ++ innerText ++ "](" ++ href ++ ")"
  else if String.eqb tagName "img"
  then let src := match Dom.getAttribute "src" n with
                  | Some v => v | None => EmptyString end in
       let alt := match Dom.getAttribute "alt" n with
                  | Some v => v | None => EmptyString end in
       "![" ++ alt ++ "](" ++ src ++ ")"
  else if String.eqb tagName "br" then nl
  else if String.eqb tagName "hr" then nl ++ "---" ++ nl ++ nl
  else if String.eqb tagName "blockquote" then nl ++ "> " ++ inner ++ nl ++ nl
  else if String.eqb tagName "ul" || String.eqb tagName "ol"
  then nl ++ list_items (String.eqb tagName "ol") 0
               (Dom.querySelectorAll [[[STag "li"]]] n) ++ nl
  else inner.

Fixpoint htmlToSimpleMarkdown (element : node) : string :=
  match element with
  | Elem _ _ _ childNodes =>
      (fix loop (l : list node) : string :=
         match l with
         | [] => EmptyString
         | n :: rest =>
             match n with
             | Text d => d
             | Comment _ => EmptyString
             | Elem _ tagName _ _ => emit tagName n (htmlToSimpleMarkdown n)
             end ++ loop rest
         end) childNodes
  | _ => EmptyString
  end.

(** The three replacements that follow the traversal, in source order. *)
Definition tidy (markdown : string) : string :=
  Js.trim (Js.collapse_newlines (Js.collapse_ws markdown)).

(** What [extractPageContent] of the content script returns. *)
Record PageContent : Type := {
  pc_url : string;
  pc_domain : string;
  pc_title : string;
  pc_description : string;
  pc_author : string;
  pc_content : string;
  pc_markdown : string;
  pc_wordCount : nat;
  pc_timestamp : string
}.

(** The message sent back by the listener. *)
Inductive response : Type :=
| Success (data : PageContent)
| Failure.

Section WithHost.
Context {H : Host}.
Import Store.

Local Notation "x <- m ;; k" := (Store.bind m (fun x => k))
  (at level 61, m at next level, right associativity).

(** [temp = document.createElement('div'); temp.innerHTML = html]:
    the element is reachable from [temp] alone and is only read.  Its
    [innerText], the second choice of [countWords], is its [textContent],
    since the element is attached to no document. *)
Definition temp_div (html : string) : node :=
  Elem 0 "div" [] (parseFragment html).

Definition countWords (html : string) : nat :=
  let text := Js.or_else (textContent (temp_div html)) EmptyString in
  List.length (filter Js.truthy (Js.split_ws (Js.trim text))).

Definition convertToMarkdown (html : string) : string :=
  tidy (htmlToSimpleMarkdown (temp_div html)).

Definition clean_unwanted : list selector :=
  [ [[[STag "script"]]]; [[[STag "style"]]]; [[[STag "noscript"]]];
    [[[STag "iframe"]]]; [[[STag "embed"]]]; [[[STag "object"]]];
    [[[SClass "ads"]]]; [[[SClass "advertisement"]]];
    [[[SClass "social-share"]]]; [[[SClass "newsletter"]]];
    [[[SAttrSub "style" "display: none"]]];
    [[[SAttrSub "style" "visibility: hidden"]]] ].

(** [elements.forEach(el => el.remove())] for each selector in turn. *)
Definition remove_all (root : nat) (unwanted : list selector) : M unit :=
  forEach unwanted (fun sel =>
    elements <- Store.querySelectorAll root sel ;;
    forEach elements Store.remove).

Definition is_relative (u : string) : bool :=
  Js.truthy u && negb (Js.startsWith "http" u)
  && negb (Js.startsWith "//" u).

(** The callback of [links.forEach] and of [images.forEach]. *)
Definition absolutize (k : string) (el : nat) : M unit :=
  v <- Store.getAttribute el k ;;
  match v with
  | Some u =>
      if is_relative u
      then base <- gets w_href ;;
           abs <- lift (URL_href u base) ;;
           Store.setAttribute el k abs
      else ret tt
  | None => ret tt
  end.

Definition cleanContent (element : nat) : M string :=
  cleaned <- cloneNode element ;;
  _ <- remove_all cleaned clean_unwanted ;;
  links <- Store.querySelectorAll cleaned [[[STag "a"; SAttr "href"]]] ;;
  _ <- forEach links (absolutize "href") ;;
  images <- Store.querySelectorAll cleaned [[[STag "img"; SAttr "src"]]] ;;
  _ <- forEach images (absolutize "src") ;;
  read cleaned innerHTML.

Definition contentSelectors : list selector :=
  [ [[[STag "article"]]]; [[[STag "main"]]]; [[[SAttrEq "role" "main"]]];
    [[[SClass "content"]]]; [[[SClass "post-content"]]];
    [[[SClass "article-content"]]]; [[[SClass "entry-content"]]];
    [[[SId "content"]]]; [[[SClass "main-content"]]] ].

Definition body_unwanted : list selector :=
  [ [[[STag "nav"]]]; [[[STag "header"]]]; [[[STag "footer"]]];
    [[[STag "aside"]]]; [[[STag "script"]]]; [[[STag "style"]]];
    [[[SClass "navigation"]]]; [[[SClass "nav"]]]; [[[SClass "header"]]];
    [[[SClass "footer"]]]; [[[SClass "sidebar"]]]; [[[SClass "ads"]]];
    [[[SClass "advertisement"]]]; [[[SClass "social"]]];
    [[[SClass "comments"]]] ].

(** The fallback of [getMainContent]: a copy of the body. *)
Definition body_fallback : M string :=
  b <- document_body ;;
  match b with
  | Some (Elem i _ _ _) =>
      body <- cloneNode i ;;
      _ <- remove_all body body_unwanted ;;
      cleanContent body
  | _ => throw                       (* [document.body] is [null] *)
  end.

Fixpoint main_content_from (selectors : list selector) : M string :=
  match selectors with
  | [] => body_fallback
  | sel :: rest =>
      element <- document_querySelector sel ;;
      match element with
      | Some (Elem i _ _ _ as e) =>
          if Nat.ltb 100 (String.length (Js.trim (textContent e)))
          then cleanContent i
          else main_content_from rest
      | _ => main_content_from rest
      end
  end.

Definition getMainContent : M string := main_content_from contentSelectors.

Definition extractPageContent : M PageContent :=
  window <- gets (fun w => w) ;;
  title <- lift (getTitle window) ;;
  description <- lift (getDescription window) ;;
  author <- lift (getAuthor window) ;;
  content <- getMainContent ;;
  ret {| pc_url := w_href window; pc_domain := w_hostname window;
         pc_title := title; pc_description := description;
         pc_author := author; pc_content := content;
         pc_markdown := convertToMarkdown content;
         pc_wordCount := countWords content;
         pc_timestamp := w_now window |}.

(** The [extractContent] branch of the message listener. *)
Definition onExtractContent : M response :=
  fun w => match extractPageContent w with
           | (Ok data, w') => (Ok (Success data), w')
           | (Throw, w') => (Ok Failure, w')
           end.

End WithHost.

(** [generateFilename] of [src/background.js]; [now] is
    [new Date().toISOString()]. *)
Definition generateFilename (now title : string) : string :=
  let sanitized :=
    Js.take 60
      (Js.strip_edge_dashes
         (Js.collapse_dashes
            (Js.ws_each_to_dash
               (Js.collapse_ws (Js.replace_unsafe (Js.trim title)))))) in
  let timestamp := Js.before_T now in
  timestamp ++ "-" ++ Js.or_else sanitized "untitled" ++ ".md".

(** [createMarkdownFile] of [src/background.js]. *)
Definition createMarkdownFile (data : PageContent) : string :=
  "---" ++ nl
  ++ "url: " ++ pc_url data ++ nl
  ++ "title: " ++ Converter.quoted (Js.escape_quotes (pc_title data)) ++ nl
  ++ "timestamp: " ++ pc_timestamp data ++ nl
  ++ "domain: " ++ pc_domain data ++ nl
  ++ "author: " ++ Js.or_else (pc_author data) "Unknown" ++ nl
  ++ "description: "
  ++ Converter.quoted
       (Js.escape_quotes (Js.or_else (pc_description data) EmptyString)) ++ nl
  ++ "word_count: " ++ Js.of_nat (pc_wordCount data) ++ nl
  ++ "---" ++ nl ++ nl
  ++ pc_markdown data.

End Vanilla.

(* ================================================================== *)
(** * Stand-ins for the host and the libraries *)
(* ================================================================== *)

(** A small host to run the definitions on: it serialises trees without
    escaping, reads markup back as one text node, and knows addresses of
    the form [https://host/path] only.  The library stand-ins throw on
    every call. *)
Module TestDoubles.
Import Dom.

Fixpoint attrs_html (a : attrs) : string :=
  match a with
  | [] => EmptyString
  | (k, v) :: r =>
      " " ++ k ++ "=" ++ Js.str Js.dquote ++ v ++ Js.str Js.dquote
        ++ attrs_html r
  end.

Fixpoint outer (n : node) : string :=
  match n with
  | Text d => d
  | Comment d => "<!--" ++ d ++ "-->"
  | Elem _ t a ch =>
      "<" ++ t ++ attrs_html a ++ ">"
        ++ (fix go (l : list node) : string :=
              match l with
              | [] => EmptyString
              | x :: r => outer x ++ go r
              end) ch
        ++ "</" ++ t ++ ">"
  end.

Definition inner (n : node) : string :=
  String.concat EmptyString (map outer (children_of n)).

Definition text_fragment (s : string) : list node :=
  if Js.is_empty s then [] else [Text s].

Definition text_document (s : string) : document :=
  {| doc_title := EmptyString; doc_root_id := 0;
     doc_head := Elem 1 "head" [] [];
     doc_body := Elem 2 "body" [] (text_fragment s) |}.

Fixpoint until_slash (s : string) : string :=
  match s with
  | EmptyString => EmptyString
  | String c r => if Ascii.eqb c "/" then EmptyString
                  else String c (until_slash r)
  end.

Definition hostname (u : string) : Result string :=
  if Js.startsWith "https://" u
  then Ok (until_slash (String.substring 8 (String.length u) u))
  else Throw.

Definition href (rel base : string) : Result string :=
  if Js.startsWith "/" rel
  then match hostname base with
       | Ok h => Ok ("https://" ++ h ++ rel)
       | Throw => Throw
       end
  else Throw.

(** The controls a form can own. *)
Definition listed (t : string) : bool :=
  existsb (String.eqb t)
    ["button"; "fieldset"; "input"; "object"; "output"; "select"; "textarea"].

Definition named (n : string) (e : node) : bool :=
  existsb (fun k => match lookup_attr k (attrs_of e) with
                    | Some v => String.eqb v n
                    | None => false
                    end) ["id"; "name"].

(** Ownership by nesting: the controls below the form. *)
Definition owns_named (f : node) (n : string) : bool :=
  existsb (fun e => listed (tag_of e) && named n e)
    (select_in_list
       [ [[STag "button"]]; [[STag "fieldset"]]; [[STag "input"]];
         [[STag "object"]]; [[STag "output"]]; [[STag "select"]];
         [[STag "textarea"]] ]
       [info f] (children_of f)).

Definition host : Host :=
  {| new_DOMParser := Ok tt;
     parseFromString := text_document;
     parseFragment := text_fragment;
     innerHTML := inner;
     outerHTML := outer;
     URL_hostname := hostname;
     URL_href := href;
     form_named := owns_named |}.


Definition failing_libs : Libs :=
  {| defuddle := fun _ => Throw;
     sanitize := fun _ => Throw;
     turndown := fun _ => Throw |}.

(** A page with a heading and a paragraph. *)
Definition sample_page : page :=
  {| page_title := "Sample";
     page_root :=
       Elem 0 "html" []
         [ Elem 1 "head" [] [Elem 2 "title" [] [Text "Sample"]];
           Elem 3 "body" []
             [ Elem 4 "h1" [] [Text "Hello world"];
               Elem 5 "p" [] [Text "A short paragraph."] ] ];
     location_href := "https://ex.com/blog/post";
     now_iso := "2024-01-01T00:00:00.000Z" |}.




(** A page whose banner heading precedes the heading of its article. *)
Definition banner_world : Store.World :=
  {| Store.w_title := "Site";
     Store.w_href := "https://ex.com/blog/post";
     Store.w_hostname := "ex.com";
     Store.w_now := "2024-01-01T00:00:00.000Z";
     Store.live :=
       Elem 0 "html" []
         [ Elem 1 "head" [] [ Elem 2 "title" [] [Text "Site"] ];
           Elem 3 "body" []
             [ Elem 4 "h1" [] [Text "Site banner"];
               Elem 5 "article" []
                 [ Elem 6 "h1" [] [Text "Post heading"];
                   Elem 7 "p" [] [Text "Body of the post."] ] ] ];
     Store.detached := [];
     Store.next_id := 8 |}.

(** A page with an article that holds a script, an advertisement and a
    relative link; the text of the article is 120 code units long. *)
Definition article_world : Store.World :=
  {| Store.w_title := "Post";
     Store.w_href := "https://ex.com/blog/post";
     Store.w_hostname := "ex.com";
     Store.w_now := "2024-01-01T00:00:00.000Z";
     Store.live :=
       Elem 0 "html" []
         [ Elem 1 "head" [] [ Elem 2 "title" [] [Text "Post"] ];
           Elem 3 "body" []
             [ Elem 4 "nav" [] [Text "menu"];
               Elem 5 "article" []
                 [ Elem 6 "script" [] [Text "x()"];
                   Elem 7 "p" []
                     [ Text "0123456789012345678901234567890123456789";
                       Text "0123456789012345678901234567890123456789";
                       Text "0123456789012345678901234567890123456789" ];
                   Elem 8 "div" [("class", "box ads")] [Text "buy"];
                   Elem 9 "a" [("href", "/about")] [Text "About"] ] ] ];
     Store.detached := [];
     Store.next_id := 10 |}.

(** A host that reads two pieces of markup the way a browser does: the
    escaped form of [<b>x</b>] as text, and [<b>x</b>] itself as an
    element. *)
Definition markup_fragment (s : string) : list node :=
  if String.eqb s "&lt;b&gt;x&lt;/b&gt;" then [Text "<b>x</b>"]
  else if String.eqb s "<b>x</b>" then [Elem 0 "b" [] [Text "x"]]
  else text_fragment s.

Definition markup_host : Host :=
  {| new_DOMParser := Ok tt;
     parseFromString := text_document;
     parseFragment := markup_fragment;
     innerHTML := inner;
     outerHTML := outer;
     URL_hostname := hostname;
     URL_href := href;
     form_named := owns_named |}.

End TestDoubles.

(* ================================================================== *)
(** * Notions the specification uses *)
(* ================================================================== *)

Module Spec.
Import Dom.

(** The whitespace-delimited non-empty tokens of a text: its maximal
    runs of code units that are not whitespace.  [cur] is the run being
    read. *)
Fixpoint tokens_from (cur : string) (s : string) : list string :=
  match s with
  | EmptyString => if Js.is_empty cur then [] else [cur]
  | String c r =>
      if Js.is_space c
      then if Js.is_empty cur then tokens_from EmptyString r
           else cur :: tokens_from EmptyString r
      else tokens_from (cur ++ Js.str c) r
  end.

Definition tokens (s : string) : list string := tokens_from EmptyString s.

(** ** Priority searches over the document *)

(** The text a search takes of an element: the [content] of a [meta]
    element when that is not empty, the text of the element otherwise,
    trimmed. *)
Definition content_or_text (e : node) : string :=
  let content :=
    if String.eqb (tag_of e) "meta"
    then match Dom.getAttribute "content" e with
         | Some v => v
         | None => EmptyString
         end
    else EmptyString in
  Js.trim (if Js.is_empty content then textContent e else content).

(** What a selector contributes to a search: the text of its first
    match in the document, if that text is accepted. *)
Definition candidate (accept : string -> bool) (root : node)
           (sel : selector) : option string :=
  match hd_error (select_from sel [] root) with
  | Some element =>
      if accept (content_or_text element)
      then Some (content_or_text element) else None
  | None => None
  end.

(** The text the extractor takes of an element: its [content]
    attribute when that is not empty, its text otherwise, trimmed. *)
Definition attr_or_text (e : node) : string :=
  Js.trim (match Dom.getAttribute "content" e with
           | Some v => if Js.is_empty v then textContent e else v
           | None => textContent e
           end).

(** What a selector contributes to the search for the author: the text
    of its first match in the page, if that text is not empty. *)
Definition author_candidate (p : page) (sel : selector) : option string :=
  match page_querySelector sel p with
  | Some element =>
      if Js.is_empty (attr_or_text element) then None
      else Some (attr_or_text element)
  | None => None
  end.


(** Longer than [lo] and shorter than [hi] code units. *)
Definition between (lo hi : nat) (t : string) : bool :=
  Nat.ltb lo (String.length t) && Nat.ltb (String.length t) hi.



Fixpoint first_some {A : Type} (l : list (option A)) : option A :=
  match l with
  | [] => None
  | Some a :: _ => Some a
  | None :: r => first_some r
  end.


(** No element the search reads is a [template] or a [form] element. *)
Definition reads_no_object (root : node) (order : list selector) : Prop :=
  forall sel e,
    In sel order -> hd_error (select_from sel [] root) = Some e ->
    tag_of e <> "template" /\ tag_of e <> "form".

(** [td, th] *)
Definition cells : selector := [[[STag "td"]]; [[STag "th"]]].

Definition is_cell (e : node) : Prop :=
  is_elem e = true /\ (tag_of e = "td" \/ tag_of e = "th").

(** [e] occurs in the subtree of [n], [n] itself excluded. *)
Inductive below (e : node) : node -> Prop :=
| below_child : forall i t a ch, In e ch -> below e (Elem i t a ch)
| below_deeper : forall i t a ch x,
    In x ch -> below e x -> below e (Elem i t a ch).

(** A cell that spans: a [td] or [th] element with a [colspan] or a
    [rowspan] attribute. *)
Definition spanning_cell (e : node) : Prop :=
  is_elem e = true
  /\ (tag_of e = "td" \/ tag_of e = "th")
  /\ (hasAttribute "colspan" e = true \/ hasAttribute "rowspan" e = true).










(** The number of line feeds [s] starts with. *)
Fixpoint lead_nl (s : string) : nat :=
  match s with
  | EmptyString => 0
  | String c r => if Ascii.eqb c Js.nl then S (lead_nl r) else 0
  end.

(** Three line feeds in a row somewhere in [s]: more than one blank
    line. *)
Fixpoint has_blank_run (s : string) : bool :=
  match s with
  | EmptyString => false
  | String _ r => Nat.leb 3 (lead_nl s) || has_blank_run r
  end.

Fixpoint has_newline (s : string) : bool :=
  match s with
  | EmptyString => false
  | String c r => Ascii.eqb c Js.nl || has_newline r
  end.

(** ** Live and scratch identities

    [n0] separates the world when the elements of the live document have
    identities below [n0] and every detached tree lies wholly below or
    wholly from [n0] on. *)
Definition ids_below (n0 : nat) (t : node) : Prop :=
  Forall (fun i => i < n0) (ids t).

Definition ids_from (n0 : nat) (t : node) : Prop :=
  Forall (fun i => n0 <= i) (ids t).

Definition separated (n0 : nat) (w : Store.World) : Prop :=
  ids_below n0 (Store.live w)
  /\ Forall (fun t => ids_below n0 t \/ ids_from n0 t) (Store.detached w)
  /\ n0 <= Store.next_id w.

(** The next identity of a world is unused. *)
Definition well_formed (w : Store.World) : Prop :=
  ids_below (Store.next_id w) (Store.live w)
  /\ Forall (ids_below (Store.next_id w)) (Store.detached w).

(** The document a script sees: the live tree and its title. *)
Definition same_document (w w' : Store.World) : Prop :=
  Store.live w' = Store.live w /\ Store.w_title w' = Store.w_title w
  /\ Store.w_href w' = Store.w_href w.

(** [m] leaves the live document as it is, keeps the world separated and
    establishes [post] on what it returns. *)
Definition preserves (n0 : nat) {A : Type} (m : Store.M A)
           (post : A -> Prop) : Prop :=
  forall w, separated n0 w ->
            same_document w (snd (m w))
            /\ separated n0 (snd (m w))
            /\ (forall a, fst (m w) = Ok a -> post a).

(** A markup tag in [s]: a [<] with a [>] somewhere after it. *)
Fixpoint contains_gt (s : string) : bool :=
  match s with
  | EmptyString => false
  | String c r => Ascii.eqb c ">" || contains_gt r
  end.

Fixpoint has_tag (s : string) : bool :=
  match s with
  | EmptyString => false
  | String c r => (Ascii.eqb c "<" && contains_gt r) || has_tag r
  end.

(** The domain the specification names for an address. *)
Definition domain_of {host : Host} (u : string) : string :=
  match URL_hostname u with Ok h => h | Throw => "unknown" end.

(** Every whitespace run of [s] is one space; [in_ws] tells that a space
    precedes [s]. *)
Fixpoint single_spaced (in_ws : bool) (s : string) : bool :=
  match s with
  | EmptyString => true
  | String c r =>
      if Js.is_space c
      then Ascii.eqb c " " && negb in_ws && single_spaced true r
      else single_spaced false r
  end.

Definition no_lead_space (s : string) : bool :=
  match s with
  | EmptyString => true
  | String c _ => negb (Js.is_space c)
  end.

(** Markup-significant code units: text free of them is read back by
    the HTML parser as the text itself. *)
Definition is_markup_char (c : ascii) : bool :=
  Ascii.eqb c "<" || Ascii.eqb c "&" || Ascii.eqb c "000" || Ascii.eqb c "013".

Fixpoint plain (s : string) : bool :=
  match s with
  | EmptyString => true
  | String c r => negb (is_markup_char c) && plain r
  end.

(** The parser gives text without markup-significant code units back as
    one text node (and nothing for the empty string). *)
Definition reads_text_back (host : Host) : Prop :=
  forall s, plain s = true ->
            parseFragment s = if Js.is_empty s then [] else [Text s].

(** The parser reads the escaped form of [<b>x</b>] as that text, and
    [<b>x</b>] as a [b] element around the text [x]. *)
Definition reads_markup_back (host : Host) : Prop :=
  parseFragment "&lt;b&gt;x&lt;/b&gt;" = [Text "<b>x</b>"]
  /\ exists i, parseFragment "<b>x</b>" = [Elem i "b" [] [Text "x"]].

(** ** Properties of file names and texts *)

(** Every code unit of [s] satisfies [p]. *)
Fixpoint all_chars (p : ascii -> bool) (s : string) : bool :=
  match s with
  | EmptyString => true
  | String c r => p c && all_chars p r
  end.

(** Some code unit of [s] satisfies [p]. *)
Fixpoint some_char (p : ascii -> bool) (s : string) : bool :=
  match s with
  | EmptyString => false
  | String c r => p c || some_char p r
  end.

Definition is_dash (c : ascii) : bool := Ascii.eqb c "-".

(** A code unit a file name may hold: none of the refused ones, no
    whitespace. *)
Definition filename_safe (c : ascii) : bool :=
  negb (Js.is_unsafe c) && negb (Js.is_space c).

(** A code unit that survives sanitising as itself. *)
Definition keeps (c : ascii) : bool := filename_safe c && negb (is_dash c).

(** No two dashes in a row; [prev] tells that a dash precedes [s]. *)
Fixpoint no_double_dash (prev : bool) (s : string) : bool :=
  match s with
  | EmptyString => true
  | String c r =>
      if is_dash c then negb prev && no_double_dash true r
      else no_double_dash false r
  end.

Definition starts_with_dash (s : string) : bool :=
  match s with
  | String c _ => is_dash c
  | EmptyString => false
  end.

Fixpoint ends_with_dash (s : string) : bool :=
  match s with
  | EmptyString => false
  | String c r => if Js.is_empty r then is_dash c else ends_with_dash r
  end.

(** [s] with its line feeds taken out. *)
Fixpoint without_newlines (s : string) : string :=
  match s with
  | EmptyString => EmptyString
  | String c r =>
      if Ascii.eqb c Js.nl then without_newlines r
      else String c (without_newlines r)
  end.

(** Every double quote of [s] follows a backslash; [esc] tells that a
    backslash precedes [s]. *)
Fixpoint quotes_escaped (esc : bool) (s : string) : bool :=
  match s with
  | EmptyString => true
  | String c r =>
      (negb (Ascii.eqb c Js.dquote) || esc)
      && quotes_escaped (Ascii.eqb c Js.backslash) r
  end.

(** ** Trees without identities and without addresses *)

(** The tree with every identity set to zero: tags, attributes and text
    in their order. *)
Fixpoint shape (n : node) : node :=
  match n with
  | Elem _ t a ch =>
      Elem 0 t a
        ((fix go (l : list node) : list node :=
            match l with [] => [] | x :: r => shape x :: go r end) ch)
  | _ => n
  end.

(** The attributes with the values of [href] and [src] blanked: the
    names in their order, and every other value. *)
Definition blank_addresses (t : string) (a : attrs) : attrs :=
  map (fun kv => if String.eqb (fst kv) "href" || String.eqb (fst kv) "src"
                 then (fst kv, EmptyString) else kv) a.


(** A dash or a whitespace code unit. *)
Definition dash_or_space (c : ascii) : bool :=
  is_dash c || Js.is_space c.

(** A title of ninety-nine letters, a space and one more letter. *)
Definition long_title : string :=
  String.concat "" (repeat "a" 99) ++ " b".

(** ** The rules of the recursive converter *)

(** The tags the [switch] of [htmlToSimpleMarkdown] has a case for. *)
Definition ruled (t : string) : bool :=
  existsb (String.eqb t)
    [ "h1"; "h2"; "h3"; "h4"; "h5"; "h6"; "p"; "strong"; "b"; "em"; "i";
      "code"; "pre"; "a"; "img"; "br"; "hr"; "blockquote"; "ul"; "ol" ].

(** The cases that append the conversion of the element itself. *)
Definition appends_inner (t : string) : bool :=
  negb (ruled t) || String.eqb t "p" || String.eqb t "blockquote".

(** No element below [n] has a tag with a case. *)
Fixpoint unruled (n : node) : bool :=
  match n with
  | Elem _ _ _ ch =>
      (fix go (l : list node) : bool :=
         match l with
         | [] => true
         | x :: r => negb (is_elem x && ruled (tag_of x)) && unruled x && go r
         end) ch
  | _ => true
  end.

End Spec.

(* ================================================================== *)
(** * Strings: basic facts *)
(* ================================================================== *)

Lemma append_nil_r (s : string) : s ++ "" = s.
Proof. induction s as [|c s IH]; simpl; [reflexivity | now rewrite IH]. Qed.

Lemma is_empty_true (s : string) : Js.is_empty s = true -> s = "".
Proof. destruct s; simpl; [reflexivity | discriminate]. Qed.

Lemma append_assoc (a b c : string) : (a ++ b) ++ c = a ++ (b ++ c).
Proof. induction a as [|x a IH]; simpl; [reflexivity | now rewrite IH]. Qed.


Lemma or_else_empty (t : string) : Js.or_else t "" = t.
Proof. destruct t; reflexivity. Qed.


(** A sequence returns only when its first part does. *)
Lemma rbind_ok {A B : Type} (m : Result A) (k : A -> Result B) (b : B) :
  rbind m k = Ok b -> exists a, m = Ok a /\ k a = Ok b.
Proof. destruct m as [a|]; simpl; [eauto | discriminate]. Qed.

(** What the [try] block of the extractor returns. *)
Lemma extract_main_ok (host : Host) (libs : Libs) (p : page)
      (ttl dom auth descr : string) (r : ExtractedContent) :
  Extractor.extract_main p ttl dom auth descr = Ok r ->
  exists content2,
    let plainText :=
      Js.or_else (Dom.textContent (doc_body (parseFromString content2))) "" in
    r = {| title := ttl; content := content2; author := auth;
           description := descr; url := location_href p; domain := dom;
           timestamp := now_iso p;
           wordCount := Extractor.countWords plainText;
           excerpt := Extractor.createExcerpt plainText 200 |}.
Proof.
  unfold Extractor.extract_main. intros E.
  apply rbind_ok in E as (result & _ & E).
  apply rbind_ok in E as (content1 & _ & E).
  apply rbind_ok in E as (content2 & _ & E).
  apply rbind_ok in E as (u & _ & E).
  exists content2. cbv zeta. now injection E as <-.
Qed.

(* ================================================================== *)
(** * Word count *)
(* ================================================================== *)

Section WordCount.

Lemma filter_split_tokens (s : string) :
  forall (in_sep : bool) (cur : string),
    (in_sep = true -> cur = "") ->
    filter Js.truthy (Js.split_ws_from in_sep cur s) = Spec.tokens_from cur s.
Proof.
  induction s as [|c r IH]; intros in_sep cur Hinv; simpl.
  - unfold Js.truthy. destruct (Js.is_empty cur); reflexivity.
  - destruct (Js.is_space c).
    + destruct in_sep.
      * rewrite (Hinv eq_refl). simpl. apply IH. reflexivity.
      * simpl. unfold Js.truthy at 1.
        destruct (Js.is_empty cur) eqn:E; simpl;
          rewrite IH by reflexivity; reflexivity.
    + apply IH. discriminate.
Qed.

Lemma tokens_trimStart (s : string) :
  Spec.tokens_from "" (Js.trimStart s) = Spec.tokens_from "" s.
Proof.
  induction s as [|c r IH]; simpl; [reflexivity|].
  destruct (Js.is_space c) eqn:E; simpl.
  - exact IH.
  - rewrite E. reflexivity.
Qed.

Lemma tokens_trimEnd (s : string) :
  forall cur, Spec.tokens_from cur (Js.trimEnd s) = Spec.tokens_from cur s.
Proof.
  induction s as [|c r IH]; intros cur; simpl; [reflexivity|].
  destruct (Js.is_space c) eqn:E; simpl.
  - destruct (Js.is_empty (Js.trimEnd r)) eqn:E2; simpl.
    + apply is_empty_true in E2.
      rewrite <- (IH ""), E2. simpl.
      destruct (Js.is_empty cur); reflexivity.
    + rewrite E. destruct (Js.is_empty cur); rewrite IH; reflexivity.
  - rewrite E. apply IH.
Qed.

Lemma tokens_trim (s : string) : Spec.tokens (Js.trim s) = Spec.tokens s.
Proof.
  unfold Spec.tokens, Js.trim. now rewrite tokens_trimEnd, tokens_trimStart.
Qed.

Lemma words_are_tokens (text : string) :
  filter Js.truthy (Js.split_ws (Js.trim text)) = Spec.tokens text.
Proof.
  unfold Js.split_ws. rewrite filter_split_tokens by discriminate.
  apply tokens_trim.
Qed.

End WordCount.


(* ================================================================== *)
(** * The metadata header *)
(* ================================================================== *)





(** ** The header as text *)














(* ================================================================== *)
(** * The extractor of the TypeScript build *)
(* ================================================================== *)

Section ExtractorFacts.
Context {host : Host} {libs : Libs}.

Lemma getDomain_total (u : string) :
  Extractor.getDomain u = Ok (Spec.domain_of u).
Proof.
  unfold Extractor.getDomain, try_catch, Spec.domain_of.
  destruct (URL_hostname u); reflexivity.
Qed.

(** The two blocks of [extractPageContent]. *)
Lemma extractPageContent_blocks (p : page) :
  let ttl := Js.or_else (page_title p) "Untitled" in
  let dom := Spec.domain_of (location_href p) in
  let auth := Extractor.extractAuthor p in
  let descr := Extractor.extractDescription p in
  Extractor.extractPageContent p
  = try_catch (Extractor.extract_main p ttl dom auth descr)
              (Extractor.extract_fallback p ttl dom auth descr).
Proof.
  cbv zeta. unfold Extractor.extractPageContent.
  rewrite getDomain_total. reflexivity.
Qed.

(** The fields that do not depend on the outcome of the [try] block. *)
Lemma extract_main_fields (p : page) (ttl dom auth descr : string)
      (r : ExtractedContent) :
  Extractor.extract_main p ttl dom auth descr = Ok r ->
  title r = ttl /\ domain r = dom /\ url r = location_href p
  /\ timestamp r = now_iso p /\ author r = auth /\ description r = descr.
Proof.
  intros E. apply extract_main_ok in E as (content2 & ->).
  simpl. repeat split.
Qed.

Lemma extract_fallback_fields (p : page) (ttl dom auth descr : string)
      (r : ExtractedContent) :
  Extractor.extract_fallback p ttl dom auth descr = Ok r ->
  title r = ttl /\ domain r = dom /\ url r = location_href p
  /\ timestamp r = now_iso p /\ author r = auth /\ description r = descr
  /\ exists body,
       page_body p = Some body
       /\ content r = innerHTML body
       /\ wordCount r = Extractor.countWords (Dom.textContent body)
       /\ excerpt r = Extractor.createExcerpt (Dom.textContent body) 200.
Proof.
  unfold Extractor.extract_fallback.
  destruct (page_body p) as [body|]; [|discriminate].
  intros E. injection E as <-. simpl. rewrite or_else_empty.
  repeat split. exists body. repeat split.
Qed.





End ExtractorFacts.




(** C10.  The domain is the host name of the address when the address
    parses and ["unknown"] when it does not; [getDomain] returns in both
    cases, and every record [extractPageContent] returns carries this
    domain, whichever block built it. *)
Theorem C10_domain_of_address (host : Host) (libs : Libs) (p : page) :
  (forall u h, URL_hostname u = Ok h -> Extractor.getDomain u = Ok h)
  /\ (forall u, URL_hostname u = Throw -> Extractor.getDomain u = Ok "unknown")
  /\ (forall r,
        Extractor.extractPageContent p = Ok r ->
        Extractor.getDomain (location_href p) = Ok (domain r)).
Proof.
  split; [|split].
  - intros u h E. rewrite getDomain_total. unfold Spec.domain_of. now rewrite E.
  - intros u E. rewrite getDomain_total. unfold Spec.domain_of. now rewrite E.
  - intros r. rewrite extractPageContent_blocks, getDomain_total. cbv zeta.
    unfold try_catch.
    match goal with |- context [match ?m with Ok _ => _ | Throw => _ end] =>
      destruct m as [r'|] eqn:Em end.
    + intros E. injection E as <-.
      now destruct (extract_main_fields _ _ _ _ _ Em) as (_ & -> & _).
    + intros F.
      now destruct (extract_fallback_fields _ _ _ _ _ F) as (_ & -> & _).
Qed.

(** The two cases on the stand-in host, and the record of the sample
    page. *)
Lemma C10_domain_of_address_witness :
  @Extractor.getDomain TestDoubles.host "https://ex.com/blog/post" = Ok "ex.com"
  /\ @Extractor.getDomain TestDoubles.host "not an address" = Ok "unknown"
  /\ exists r,
       @Extractor.extractPageContent TestDoubles.host TestDoubles.failing_libs
         TestDoubles.sample_page = Ok r
       /\ domain r = "ex.com".
Proof.
  destruct (C10_domain_of_address TestDoubles.host TestDoubles.failing_libs
              TestDoubles.sample_page) as (Hok & Hbad & Hrec).
  split; [apply Hok; reflexivity|].
  split; [apply Hbad; reflexivity|].
  eexists. split; [vm_compute; reflexivity|]. reflexivity.
Defined.

(* ================================================================== *)
(** * The converter of the TypeScript build *)
(* ================================================================== *)

Lemma contains_gt_append (a b : string) :
  Spec.contains_gt (a ++ b) = Spec.contains_gt a || Spec.contains_gt b.
Proof.
  induction a as [|c a IH]; simpl; [reflexivity|].
  rewrite IH. now rewrite orb_assoc.
Qed.

Lemma no_gt_no_tag (s : string) :
  Spec.contains_gt s = false -> Spec.has_tag s = false.
Proof.
  induction s as [|c s IH]; simpl; [reflexivity|].
  intros E. apply orb_false_iff in E as [_ E].
  rewrite E, andb_false_r. simpl. now apply IH.
Qed.

Lemma strip_tags_from_no_tag (s : string) :
  Spec.has_tag (Js.strip_tags_from None s) = false
  /\ (forall p, Spec.contains_gt p = false ->
                Spec.has_tag (Js.strip_tags_from (Some p) s) = false).
Proof.
  induction s as [|c r [IH1 IH2]]; simpl.
  - split; [reflexivity | apply no_gt_no_tag].
  - split.
    + destruct (Ascii.eqb c "<") eqn:E.
      * apply IH2. apply Ascii.eqb_eq in E. subst c. reflexivity.
      * simpl. rewrite E. simpl. exact IH1.
    + intros p Hp. destruct (Ascii.eqb c ">") eqn:E.
      * exact IH1.
      * apply IH2. rewrite contains_gt_append, Hp. simpl.
        rewrite E. reflexivity.
Qed.

(** One pass of [strip_tags] leaves no tag behind. *)
Lemma strip_tags_no_tag (s : string) : Spec.has_tag (Js.strip_tags s) = false.
Proof. apply strip_tags_from_no_tag. Qed.





(* ================================================================== *)
(** * Blank lines *)
(* ================================================================== *)

Lemma nl_is_space (c : ascii) : Ascii.eqb c Js.nl = true -> Js.is_space c = true.
Proof. intros E. apply Ascii.eqb_eq in E. subst c. reflexivity. Qed.

Lemma not_space_not_nl (c : ascii) :
  Js.is_space c = false -> Ascii.eqb c Js.nl = false.
Proof.
  intros E. destruct (Ascii.eqb c Js.nl) eqn:N; [|reflexivity].
  apply nl_is_space in N. congruence.
Qed.

(** After [replace(/\s+/g, ' ')] no line feed is left. *)
Lemma collapse_ws_no_newline (s : string) :
  forall b, Spec.has_newline (Js.collapse_ws_from b s) = false.
Proof.
  induction s as [|c r IH]; intros b; simpl; [reflexivity|].
  destruct (Js.is_space c) eqn:E.
  - destruct b; simpl; apply IH.
  - simpl. rewrite (not_space_not_nl c E). apply IH.
Qed.

Lemma collapse_newlines_no_newline (s : string) :
  forall k, Spec.has_newline s = false -> Js.collapse_newlines_from k s = s.
Proof.
  induction s as [|c r IH]; intros k; simpl; [reflexivity|].
  intros E. apply orb_false_iff in E as [E1 E2].
  rewrite E1. f_equal. now apply IH.
Qed.

Lemma trimStart_no_newline (s : string) :
  Spec.has_newline s = false -> Spec.has_newline (Js.trimStart s) = false.
Proof.
  induction s as [|c r IH]; simpl; [reflexivity|].
  intros E. destruct (Js.is_space c).
  - apply IH. now apply orb_false_iff in E.
  - exact E.
Qed.

Lemma trimEnd_no_newline (s : string) :
  Spec.has_newline s = false -> Spec.has_newline (Js.trimEnd s) = false.
Proof.
  induction s as [|c r IH]; simpl; [reflexivity|].
  intros E. apply orb_false_iff in E as [E1 E2].
  destruct (Js.is_space c && Js.is_empty (Js.trimEnd r)); simpl;
    [reflexivity|].
  rewrite E1. now apply IH.
Qed.

(** The output of the content script's converter is a single line. *)
Lemma tidy_no_newline (s : string) : Spec.has_newline (Vanilla.tidy s) = false.
Proof.
  unfold Vanilla.tidy, Js.trim, Js.collapse_newlines, Js.collapse_ws.
  rewrite collapse_newlines_no_newline by apply collapse_ws_no_newline.
  apply trimEnd_no_newline, trimStart_no_newline, collapse_ws_no_newline.
Qed.

Lemma lead_nl_blank_run (s : string) :
  Spec.has_blank_run s = false -> Spec.lead_nl s <= 2.
Proof.
  destruct s as [|c r]; [simpl; lia|].
  cbn [Spec.has_blank_run]. intros E.
  apply orb_false_iff in E as [E _]. apply Nat.leb_gt in E. lia.
Qed.

Lemma has_blank_run_cons (c : ascii) (r : string) :
  Spec.has_blank_run (String c r)
  = Nat.leb 3 (Spec.lead_nl (String c r)) || Spec.has_blank_run r.
Proof. reflexivity. Qed.

Lemma lead_nl_cons (c : ascii) (r : string) :
  Spec.lead_nl (String c r)
  = if Ascii.eqb c Js.nl then S (Spec.lead_nl r) else 0.
Proof. reflexivity. Qed.

(** [replace(/\n{3,}/g, '\n\n')] started inside a run of [k] line feeds:
    no run of three is left, and the output starts with at most [2 - k]
    line feeds. *)
Lemma collapse_newlines_from_bounded (s : string) :
  forall k, k <= 2 ->
    Spec.has_blank_run (Js.collapse_newlines_from k s) = false
    /\ Spec.lead_nl (Js.collapse_newlines_from k s) + k <= 2.
Proof.
  induction s as [|c r IH]; intros k Hk;
    cbn [Js.collapse_newlines_from]; [split; [reflexivity|simpl; lia]|].
  destruct (Ascii.eqb c Js.nl) eqn:E.
  - destruct (Nat.ltb k 2) eqn:K.
    + apply Nat.ltb_lt in K.
      destruct (IH (S k)) as [I1 I2]; [lia|].
      rewrite has_blank_run_cons, lead_nl_cons, Ascii.eqb_refl, I1, orb_false_r.
      split; [apply Nat.leb_gt; lia | lia].
    + apply Nat.ltb_ge in K. apply IH. lia.
  - destruct (IH 0) as [I1 I2]; [lia|].
    rewrite has_blank_run_cons, lead_nl_cons, E, I1.
    split; [reflexivity | lia].
Qed.

Lemma collapse_newlines_from_id (s : string) :
  forall k, Spec.lead_nl s + k <= 2 -> Spec.has_blank_run s = false ->
            Js.collapse_newlines_from k s = s.
Proof.
  induction s as [|c r IH]; intros k Hk Hb;
    cbn [Js.collapse_newlines_from]; [reflexivity|].
  rewrite has_blank_run_cons in Hb. rewrite lead_nl_cons in Hk.
  apply orb_false_iff in Hb as [_ Hb].
  destruct (Ascii.eqb c Js.nl) eqn:E.
  - assert (K : Nat.ltb k 2 = true) by (apply Nat.ltb_lt; lia).
    apply Ascii.eqb_eq in E. subst c.
    rewrite K. f_equal. apply IH; [lia | exact Hb].
  - f_equal. apply IH; [|exact Hb].
    pose proof (lead_nl_blank_run r Hb). lia.
Qed.

(** The pass of the TypeScript converter: its output has no run of three
    line feeds, and text without such a run goes through unchanged. *)
Lemma collapse_newlines_spec (s : string) :
  Spec.has_blank_run (Js.collapse_newlines s) = false
  /\ (Spec.has_blank_run s = false -> Js.collapse_newlines s = s).
Proof.
  split.
  - apply (collapse_newlines_from_bounded s (k := 0)). lia.
  - intros Hb. apply collapse_newlines_from_id; [|exact Hb].
    pose proof (lead_nl_blank_run s Hb). lia.
Qed.

(** C3.  In the content script the pass that collapses blank lines runs
    after [replace(/\s+/g, ' ')], which has already turned every line
    feed into a space: two paragraphs serialise with a blank-line run
    between them and come out on one line, and no output of the converter
    contains a line feed at all. *)
Theorem C3_content_script_loses_blank_lines :
  let fragment :=
    Dom.Elem 0 "div" []
      [ Dom.Elem 1 "p" [] [Dom.Text "a"]; Dom.Elem 2 "p" [] [Dom.Text "b"] ] in
  let n := Js.str Js.nl in
  Vanilla.htmlToSimpleMarkdown fragment = n ++ "a" ++ n ++ n ++ n ++ "b" ++ n ++ n
  /\ Spec.has_blank_run (Vanilla.htmlToSimpleMarkdown fragment) = true
  /\ Vanilla.tidy (Vanilla.htmlToSimpleMarkdown fragment) = "a b"
  /\ Js.collapse_newlines (Vanilla.htmlToSimpleMarkdown fragment)
     = n ++ "a" ++ n ++ n ++ "b" ++ n ++ n
  /\ (forall (host : Host) html,
         Spec.has_newline (Vanilla.convertToMarkdown html) = false).
Proof.
  cbv zeta.
  do 4 (split; [vm_compute; reflexivity|]).
  intros host html. apply tidy_no_newline.
Qed.

(* ================================================================== *)
(** * Trees: unfolding the traversals *)
(* ================================================================== *)

Lemma select_from_elem (sel : Dom.selector) (anc : list (string * Dom.attrs))
      (i : nat) (t : string) (a : Dom.attrs) (ch : list Dom.node) :
  Dom.select_from sel anc (Dom.Elem i t a ch)
  = List.app (if Dom.matches sel anc (t, a) then [Dom.Elem i t a ch] else [])
             (flat_map (Dom.select_from sel ((t, a) :: anc)) ch).
Proof.
  simpl. apply f_equal.
  generalize ch as l. induction l as [|x r IH]; simpl; [reflexivity|].
  now rewrite IH.
Qed.

Lemma below_elem (e : Dom.node) (i : nat) (t : string) (a : Dom.attrs)
      (ch : list Dom.node) :
  Spec.below e (Dom.Elem i t a ch)
  <-> exists x, In x ch /\ (e = x \/ Spec.below e x).
Proof.
  split.
  - intros Hb. inversion Hb; subst.
    + exists e. auto.
    + exists x. auto.
  - intros (x & Hx & [-> | Hb]).
    + now apply Spec.below_child.
    + now apply Spec.below_deeper with x.
Qed.

Lemma below_not_elem (e n : Dom.node) :
  Dom.is_elem n = false -> ~ Spec.below e n.
Proof. intros E Hb. destruct Hb; discriminate. Qed.

(* ================================================================== *)
(** * Tables *)
(* ================================================================== *)

Lemma ancestors_match_nil (anc : list (string * Dom.attrs)) :
  Dom.ancestors_match [] anc = true.
Proof. destruct anc; reflexivity. Qed.

Lemma matches_cells (anc : list (string * Dom.attrs)) (t : string)
      (a : Dom.attrs) :
  Dom.matches Spec.cells anc (t, a) = true <-> t = "td" \/ t = "th".
Proof.
  unfold Spec.cells, Dom.matches, Dom.matches_complex, Dom.matches_compound.
  cbn [existsb forallb rev List.app fst snd Dom.matches_simple].
  rewrite ancestors_match_nil, !andb_true_r, orb_false_r, orb_true_iff,
    !String.eqb_eq.
  split; intros [E | E]; auto.
Qed.

(** [querySelectorAll('td, th')] finds exactly the cells of a subtree. *)
Lemma in_select_cells (n : Dom.node) :
  forall anc e,
    In e (Dom.select_from Spec.cells anc n)
    <-> (e = n \/ Spec.below e n) /\ Spec.is_cell e.
Proof.
  induction n as [d|d|i t a ch IH] using Dom.node_ind; intros anc e.
  - simpl. split; [tauto|]. intros [[-> | Hb] [He _]];
      [discriminate | now apply below_not_elem in Hb].
  - simpl. split; [tauto|]. intros [[-> | Hb] [He _]];
      [discriminate | now apply below_not_elem in Hb].
  - rewrite select_from_elem, in_app_iff, in_flat_map, below_elem.
    rewrite Forall_forall in IH.
    split.
    + intros [Hh | (x & Hx & Hin)].
      * destruct (Dom.matches Spec.cells anc (t, a)) eqn:M; [|contradiction].
        destruct Hh as [<- | []]. split; [now left|].
        split; [reflexivity | now apply matches_cells in M].
      * apply (IH x Hx) in Hin as [Hor Hc]. split; [right; eauto | exact Hc].
    + intros [[-> | (x & Hx & Hor)] Hc].
      * left. destruct Hc as [_ Hc]. simpl in Hc.
        apply (matches_cells anc t a) in Hc. rewrite Hc. now left.
      * right. exists x. split; [exact Hx|]. apply (IH x Hx). now split.
Qed.

Lemma hasComplexStructure_iff (table : Dom.node) :
  Converter.hasComplexStructure table = true
  <-> exists cell, Spec.below cell table /\ Spec.spanning_cell cell.
Proof.
  unfold Converter.hasComplexStructure, Dom.querySelectorAll,
    Dom.select_in_list.
  fold Spec.cells. rewrite existsb_exists.
  split.
  - intros (c & Hin & Hs). exists c.
    apply in_flat_map in Hin as (x & Hx & Hin).
    apply in_select_cells in Hin as [Hor [He Ht]].
    destruct table as [d|d|i t a ch]; try contradiction.
    split; [apply below_elem; eauto|].
    apply orb_true_iff in Hs. now repeat split.
  - intros (c & Hb & He & Ht & Hs). exists c.
    destruct table as [d|d|i t a ch];
      try (now apply below_not_elem in Hb).
    apply below_elem in Hb as (x & Hx & Hor).
    split; [|now apply orb_true_iff].
    apply in_flat_map. exists x. split; [exact Hx|].
    apply in_select_cells. now repeat split.
Qed.

(** A table without such a cell keeps what turndown made of its rows. *)
Lemma plain_table_keeps_rows (host : Host) (table : Dom.node)
      (content : string) :
  ~ (exists cell, Spec.below cell table /\ Spec.spanning_cell cell) ->
  Converter.table_replacement content table = content.
Proof.
  intros Hn. unfold Converter.table_replacement.
  destruct (Converter.hasComplexStructure table) eqn:E; [|reflexivity].
  apply hasComplexStructure_iff in E. contradiction.
Qed.





(* ================================================================== *)
(** * Title resolution *)
(* ================================================================== *)

Section TitleResolution.
Context {host : Host}.

(** On an element that is neither a [template] nor a [form], the text
    the loop reads is the trimmed content-or-text. *)
Lemma candidate_text_safe (e : Dom.node) :
  Dom.tag_of e <> "template" -> Dom.tag_of e <> "form" ->
  Vanilla.candidate_text e = Ok (Spec.content_or_text e).
Proof.
  intros Ht Hf.
  unfold Vanilla.candidate_text, Vanilla.content_of, Spec.content_or_text.
  destruct (String.eqb (Dom.tag_of e) "meta").
  - rewrite or_else_empty. unfold Js.or_else, Js.truthy.
    destruct (Dom.getAttribute "content" e) as [[|c v]|]; reflexivity.
  - apply String.eqb_neq in Ht, Hf. rewrite Ht, Hf. simpl.
    now rewrite or_else_empty.
Qed.

(** Without such an element among the first matches, the loop is the
    search for the first accepted candidate. *)
Lemma first_accepted_search (accept : string -> bool) (root : Dom.node)
      (sels : list Dom.selector) :
  Spec.reads_no_object root sels ->
  Vanilla.first_accepted accept root sels
  = Ok (Spec.first_some (map (Spec.candidate accept root) sels)).
Proof.
  induction sels as [|sel rest IH]; intros Hsafe; simpl; [reflexivity|].
  assert (IH' := IH (fun s e Hs => Hsafe s e (or_intror Hs))).
  unfold Spec.candidate at 1.
  destruct (hd_error (Dom.select_from sel [] root)) as [e|] eqn:Eq;
    [|exact IH'].
  destruct (Hsafe sel e (or_introl eq_refl) Eq) as [Ht Hf].
  rewrite (candidate_text_safe e Ht Hf). simpl.
  destruct (accept (Spec.content_or_text e)); [reflexivity | exact IH'].
Qed.


Lemma description_ok_length (t : string) :
  Vanilla.description_ok t = Spec.between 10 300 t.
Proof. destruct t; reflexivity. Qed.

Lemma author_ok_length (t : string) :
  Vanilla.author_ok t = Spec.between 2 100 t.
Proof. destruct t; reflexivity. Qed.

Lemma candidate_ext (f g : string -> bool) (root : Dom.node)
      (sels : list Dom.selector) :
  (forall t, f t = g t) ->
  map (Spec.candidate f root) sels = map (Spec.candidate g root) sels.
Proof.
  intros E. apply map_ext. intros sel. unfold Spec.candidate.
  destruct (hd_error _); [|reflexivity]. now rewrite E.
Qed.

End TitleResolution.




(* ================================================================== *)
(** * Trees: identities *)
(* ================================================================== *)

Lemma ids_elem (i : nat) (t : string) (a : Dom.attrs) (ch : list Dom.node) :
  Dom.ids (Dom.Elem i t a ch) = i :: Dom.ids_list ch.
Proof.
  simpl. apply f_equal. unfold Dom.ids_list.
  generalize ch as l. induction l as [|x r IH]; simpl; [reflexivity|].
  now rewrite IH.
Qed.

Lemma find_elem_elem (i j : nat) (t : string) (a : Dom.attrs)
      (ch : list Dom.node) :
  Dom.find_elem i (Dom.Elem j t a ch)
  = if Nat.eqb i j then Some (Dom.Elem j t a ch)
    else Store.find_in_list i ch.
Proof.
  simpl. destruct (Nat.eqb i j); [reflexivity|].
  generalize ch as l. induction l as [|x r IH]; simpl; [reflexivity|].
  now rewrite IH.
Qed.

Lemma prune_elem (i j : nat) (t : string) (a : Dom.attrs)
      (ch : list Dom.node) :
  Dom.prune i (Dom.Elem j t a ch)
  = Dom.Elem j t a
      (map (Dom.prune i) (filter (fun x => negb (Dom.has_id i x)) ch)).
Proof.
  simpl. apply f_equal.
  generalize ch as l. induction l as [|x r IH]; simpl; [reflexivity|].
  destruct (Dom.has_id i x); simpl; now rewrite IH.
Qed.

Lemma set_attr_at_elem (i : nat) (k v : string) (j : nat) (t : string)
      (a : Dom.attrs) (ch : list Dom.node) :
  Dom.set_attr_at i k v (Dom.Elem j t a ch)
  = Dom.Elem j t (if Nat.eqb i j then Dom.update_attr k v a else a)
      (map (Dom.set_attr_at i k v) ch).
Proof.
  simpl. apply f_equal.
  generalize ch as l. induction l as [|x r IH]; simpl; [reflexivity|].
  now rewrite IH.
Qed.

Lemma relabel_elem (i : nat) (t : string) (a : Dom.attrs)
      (ch : list Dom.node) (nx : nat) :
  Dom.relabel (Dom.Elem i t a ch) nx
  = let (ch', k) := Dom.relabel_list ch (S nx) in (Dom.Elem nx t a ch', k).
Proof.
  simpl.
  assert (E : forall l k,
             (fix go (l : list Dom.node) (k : nat) : list Dom.node * nat :=
                match l with
                | [] => ([], k)
                | x :: r =>
                    let (x', k1) := Dom.relabel x k in
                    let (r', k2) := go r k1 in (x' :: r', k2)
                end) l k = Dom.relabel_list l k).
  { induction l as [|x r IH]; intros k; simpl; [reflexivity|].
    destruct (Dom.relabel x k) as [x' k1]. now rewrite IH. }
  now rewrite E.
Qed.

Lemma in_ids_list (i : nat) (l : list Dom.node) :
  In i (Dom.ids_list l) <-> exists x, In x l /\ In i (Dom.ids x).
Proof. unfold Dom.ids_list. apply in_flat_map. Qed.

(** An identity that does not occur in a tree denotes nothing in it. *)
Lemma find_elem_absent (i : nat) (n : Dom.node) :
  ~ In i (Dom.ids n) -> Dom.find_elem i n = None.
Proof.
  induction n as [d|d|j t a ch IH] using Dom.node_ind; intros Hn;
    try reflexivity.
  rewrite find_elem_elem. rewrite ids_elem in Hn.
  destruct (Nat.eqb i j) eqn:E.
  - apply Nat.eqb_eq in E. subst j. exfalso. apply Hn. now left.
  - assert (Hl : ~ In i (Dom.ids_list ch)) by (intros H; apply Hn; now right).
    clear Hn E. induction ch as [|x r IHr]; simpl; [reflexivity|].
    inversion IH as [|? ? Hx Hr]; subst.
    rewrite Hx.
    + apply IHr; [exact Hr|]. intros H. apply Hl.
      unfold Dom.ids_list. simpl. apply in_or_app. now right.
    + intros H. apply Hl. unfold Dom.ids_list. simpl.
      apply in_or_app. now left.
Qed.

(** What a reference denotes lies inside the tree it was found in. *)
Lemma find_elem_ids (i : nat) (n : Dom.node) :
  forall e, Dom.find_elem i n = Some e -> incl (Dom.ids e) (Dom.ids n).
Proof.
  induction n as [d|d|j t a ch IH] using Dom.node_ind; intros e;
    try discriminate.
  rewrite find_elem_elem.
  destruct (Nat.eqb i j).
  - intros E. injection E as <-. apply incl_refl.
  - rewrite ids_elem. intros E. apply incl_tl.
    induction ch as [|x r IHr]; simpl in E; [discriminate|].
    inversion IH as [|? ? Hx Hr]; subst.
    unfold Dom.ids_list. simpl.
    destruct (Dom.find_elem i x) as [e'|] eqn:Ex.
    + injection E as <-. apply incl_appl. now apply Hx.
    + apply incl_appr. now apply IHr.
Qed.

Lemma find_in_list_ids (i : nat) (l : list Dom.node) (e : Dom.node) :
  Store.find_in_list i l = Some e ->
  exists x, In x l /\ Dom.find_elem i x = Some e.
Proof.
  induction l as [|x r IH]; simpl; [discriminate|].
  destruct (Dom.find_elem i x) as [e'|] eqn:Ex.
  - intros E. injection E as <-. exists x. auto.
  - intros E. destruct (IH E) as (y & Hy & Ey). exists y. auto.
Qed.

Lemma find_elem_has_id (i : nat) (n : Dom.node) :
  forall e, Dom.find_elem i n = Some e -> In i (Dom.ids e).
Proof.
  induction n as [d|d|j t a ch IH] using Dom.node_ind; intros e;
    try discriminate.
  rewrite find_elem_elem.
  destruct (Nat.eqb i j) eqn:Eij.
  - intros E. injection E as <-. apply Nat.eqb_eq in Eij. subst j.
    rewrite ids_elem. now left.
  - intros E. apply find_in_list_ids in E as (x & Hx & Ex).
    rewrite Forall_forall in IH. exact (IH x Hx e Ex).
Qed.

Lemma has_id_in (i : nat) (x : Dom.node) :
  Dom.has_id i x = true -> In i (Dom.ids x).
Proof.
  destruct x as [d|d|j t a ch]; try discriminate.
  simpl Dom.has_id. intros E. apply Nat.eqb_eq in E. subst j.
  rewrite ids_elem. now left.
Qed.

Lemma ids_list_incl (f : Dom.node -> Dom.node) (l l' : list Dom.node) :
  incl l' l ->
  Forall (fun x => incl (Dom.ids (f x)) (Dom.ids x)) l ->
  incl (Dom.ids_list (map f l')) (Dom.ids_list l).
Proof.
  intros Hl Hf i Hi. apply in_ids_list in Hi as (y & Hy & Hi).
  apply in_map_iff in Hy as (x & <- & Hx).
  apply in_ids_list. exists x. split; [now apply Hl|].
  rewrite Forall_forall in Hf. exact (Hf x (Hl x Hx) i Hi).
Qed.

Lemma prune_ids (i : nat) (n : Dom.node) :
  incl (Dom.ids (Dom.prune i n)) (Dom.ids n).
Proof.
  induction n as [d|d|j t a ch IH] using Dom.node_ind;
    try apply incl_refl.
  rewrite prune_elem, !ids_elem.
  apply incl_cons; [now left|]. apply incl_tl.
  apply ids_list_incl; [|exact IH].
  intros x Hx. now apply filter_In in Hx.
Qed.

Lemma map_id_on (f : Dom.node -> Dom.node) (l : list Dom.node) :
  Forall (fun x => f x = x) l -> map f l = l.
Proof.
  induction 1 as [|x r Hx Hr IH]; simpl; [reflexivity|].
  now rewrite Hx, IH.
Qed.

Lemma absent_in_children (i : nat) (l : list Dom.node) :
  ~ In i (Dom.ids_list l) -> Forall (fun x => ~ In i (Dom.ids x)) l.
Proof.
  intros Hn. apply Forall_forall. intros x Hx Hi. apply Hn.
  apply in_ids_list. eauto.
Qed.

(** Removing an element that is not in a tree leaves the tree alone. *)
Lemma prune_absent (i : nat) (n : Dom.node) :
  ~ In i (Dom.ids n) -> Dom.prune i n = n.
Proof.
  induction n as [d|d|j t a ch IH] using Dom.node_ind; intros Hn;
    try reflexivity.
  rewrite prune_elem. rewrite ids_elem in Hn.
  assert (Hch : Forall (fun x => ~ In i (Dom.ids x)) ch).
  { apply absent_in_children. intros H. apply Hn. now right. }
  f_equal.
  assert (Ef : filter (fun x => negb (Dom.has_id i x)) ch = ch).
  { clear IH Hn. induction Hch as [|x r Hx Hr IHr]; simpl; [reflexivity|].
    destruct (Dom.has_id i x) eqn:E.
    - apply has_id_in in E. contradiction.
    - simpl. now rewrite IHr. }
  rewrite Ef. apply map_id_on.
  rewrite Forall_forall in *. intros x Hx. apply IH; auto.
Qed.

Lemma set_attr_at_ids (i : nat) (k v : string) (n : Dom.node) :
  Dom.ids (Dom.set_attr_at i k v n) = Dom.ids n.
Proof.
  induction n as [d|d|j t a ch IH] using Dom.node_ind; try reflexivity.
  rewrite set_attr_at_elem, !ids_elem. f_equal.
  unfold Dom.ids_list. induction IH as [|x r Hx Hr IHr]; simpl;
    [reflexivity|].
  now rewrite Hx, IHr.
Qed.

(** Setting an attribute of an element that is not in a tree leaves the
    tree alone. *)
Lemma set_attr_at_absent (i : nat) (k v : string) (n : Dom.node) :
  ~ In i (Dom.ids n) -> Dom.set_attr_at i k v n = n.
Proof.
  induction n as [d|d|j t a ch IH] using Dom.node_ind; intros Hn;
    try reflexivity.
  rewrite set_attr_at_elem. rewrite ids_elem in Hn.
  destruct (Nat.eqb i j) eqn:E.
  - apply Nat.eqb_eq in E. subst j. exfalso. apply Hn. now left.
  - f_equal. apply map_id_on.
    assert (Hch : Forall (fun x => ~ In i (Dom.ids x)) ch).
    { apply absent_in_children. intros H. apply Hn. now right. }
    rewrite Forall_forall in *. intros x Hx. apply IH; auto.
Qed.

(** The identities of a copy are the fresh ones. *)
Lemma relabel_fresh (n : Dom.node) :
  forall nx n' k,
    Dom.relabel n nx = (n', k) ->
    nx <= k /\ Forall (fun j => nx <= j) (Dom.ids n').
Proof.
  induction n as [d|d|j t a ch IH] using Dom.node_ind; intros nx n' k.
  - simpl. intros E. injection E as <- <-. split; [lia | constructor].
  - simpl. intros E. injection E as <- <-. split; [lia | constructor].
  - rewrite relabel_elem.
    destruct (Dom.relabel_list ch (S nx)) as [ch' k'] eqn:El.
    intros E. injection E as <- <-.
    assert (Hl : forall l, Forall (fun x => forall nx n' k,
                     Dom.relabel x nx = (n', k) ->
                     nx <= k /\ Forall (fun j => nx <= j) (Dom.ids n')) l ->
                 forall m l' k, Dom.relabel_list l m = (l', k) ->
                   m <= k /\ Forall (fun j => m <= j) (Dom.ids_list l')).
    { clear. induction 1 as [|x r Hx Hr IHr]; intros m l' k; simpl.
      - intros E. injection E as <- <-. split; [lia | constructor].
      - destruct (Dom.relabel x m) as [x' k1] eqn:Ex.
        destruct (Dom.relabel_list r k1) as [r' k2] eqn:Er.
        intros E. injection E as <- <-.
        destruct (Hx _ _ _ Ex) as [L1 F1].
        destruct (IHr _ _ _ Er) as [L2 F2].
        split; [lia|]. unfold Dom.ids_list. simpl.
        apply Forall_app. split; [exact F1|].
        eapply Forall_impl; [|exact F2]. simpl. intros; lia. }
    destruct (Hl ch IH _ _ _ El) as [L F].
    split; [lia|]. rewrite ids_elem. constructor; [lia|].
    eapply Forall_impl; [|exact F]. simpl. intros; lia.
Qed.

(** A query returns elements of the subtree it ran on. *)
Lemma select_from_ids (sel : Dom.selector) (n : Dom.node) :
  forall anc e, In e (Dom.select_from sel anc n) ->
                incl (Dom.ids e) (Dom.ids n).
Proof.
  induction n as [d|d|j t a ch IH] using Dom.node_ind; intros anc e;
    try contradiction.
  rewrite select_from_elem, in_app_iff, in_flat_map.
  intros [Hh | (x & Hx & Hin)].
  - destruct (Dom.matches sel anc (t, a)); [|contradiction].
    destruct Hh as [<- | []]. apply incl_refl.
  - rewrite ids_elem. apply incl_tl. intros i Hi.
    apply in_ids_list. exists x. split; [exact Hx|].
    rewrite Forall_forall in IH. exact (IH x Hx _ _ Hin i Hi).
Qed.

Lemma root_ids_incl (l : list Dom.node) :
  incl (Dom.root_ids l) (Dom.ids_list l).
Proof.
  intros i Hi. apply in_flat_map in Hi as (x & Hx & Hi).
  apply in_ids_list. exists x. split; [exact Hx|].
  destruct x as [d|d|j t a ch]; try contradiction.
  destruct Hi as [<- | []]. rewrite ids_elem. now left.
Qed.

Lemma querySelectorAll_ids (sel : Dom.selector) (e : Dom.node) :
  incl (Dom.ids_list (Dom.querySelectorAll sel e)) (Dom.ids e).
Proof.
  intros i Hi. apply in_ids_list in Hi as (x & Hx & Hi).
  unfold Dom.querySelectorAll, Dom.select_in_list in Hx.
  apply in_flat_map in Hx as (c & Hc & Hx).
  destruct e as [d|d|j t a ch]; try contradiction.
  rewrite ids_elem. right. apply in_ids_list. exists c.
  split; [exact Hc|]. exact (select_from_ids _ _ _ _ Hx i Hi).
Qed.

(* ================================================================== *)
(** * Scripts that leave the live document alone *)
(* ================================================================== *)

Section Preservation.
Variable n0 : nat.

Lemma same_document_refl (w : Store.World) : Spec.same_document w w.
Proof. repeat split. Qed.

Lemma same_document_trans (w1 w2 w3 : Store.World) :
  Spec.same_document w1 w2 -> Spec.same_document w2 w3 ->
  Spec.same_document w1 w3.
Proof.
  intros (A1 & A2 & A3) (B1 & B2 & B3). repeat split; congruence.
Qed.

(** The world is the one the computation started in. *)
Ltac untouched Hw :=
  split; [apply same_document_refl | split; [exact Hw | try trivial]].

Lemma preserves_ret {A} (a : A) (post : A -> Prop) :
  post a -> Spec.preserves n0 (Store.ret a) post.
Proof.
  intros Hp w Hw. simpl. untouched Hw.
  intros a' E. now injection E as <-.
Qed.

Lemma preserves_throw {A} (post : A -> Prop) :
  Spec.preserves n0 (@Store.throw A) post.
Proof.
  intros w Hw. simpl. untouched Hw. discriminate.
Qed.

Lemma preserves_lift {A} (r : Result A) :
  Spec.preserves n0 (Store.lift r) (fun _ => True).
Proof.
  intros w Hw. simpl. untouched Hw.
Qed.

Lemma preserves_bind {A B} (m : Store.M A) (k : A -> Store.M B)
      (P : A -> Prop) (Q : B -> Prop) :
  Spec.preserves n0 m P ->
  (forall a, P a -> Spec.preserves n0 (k a) Q) ->
  Spec.preserves n0 (Store.bind m k) Q.
Proof.
  intros Hm Hk w Hw. unfold Store.bind.
  destruct (Hm w Hw) as (D1 & S1 & P1).
  destruct (m w) as [[a|] w1]; simpl in *.
  - destruct (Hk a (P1 a eq_refl) w1 S1) as (D2 & S2 & P2).
    split; [eapply same_document_trans; eauto|]. split; assumption.
  - split; [exact D1|]. split; [exact S1 | discriminate].
Qed.

Lemma preserves_forEach {A} (l : list A) (f : A -> Store.M unit)
      (P : A -> Prop) :
  Forall P l ->
  (forall x, P x -> Spec.preserves n0 (f x) (fun _ => True)) ->
  Spec.preserves n0 (Store.forEach l f) (fun _ => True).
Proof.
  intros Hl Hf. induction Hl as [|x r Hx Hr IH]; simpl.
  - now apply preserves_ret.
  - eapply preserves_bind; [apply Hf, Hx|]. intros _ _. exact IH.
Qed.

(** ** The primitives *)

Lemma below_not_from (t : Dom.node) (i : nat) :
  Spec.ids_below n0 t -> n0 <= i -> ~ In i (Dom.ids t).
Proof.
  intros Hb Hi Hin. unfold Spec.ids_below in Hb.
  rewrite Forall_forall in Hb. specialize (Hb i Hin). lia.
Qed.

(** A reference from [n0] on denotes a subtree made of such elements. *)
Lemma deref_scratch (w : Store.World) (i : nat) (e : Dom.node) :
  Spec.separated n0 w -> n0 <= i -> Store.deref i w = Some e ->
  Spec.ids_from n0 e.
Proof.
  intros (Hl & Hd & _) Hi. unfold Store.deref.
  rewrite (find_elem_absent i (Store.live w))
    by (now apply below_not_from).
  intros E. apply find_in_list_ids in E as (t & Ht & Et).
  rewrite Forall_forall in Hd. destruct (Hd t Ht) as [Ho | Hn].
  - exfalso. apply (below_not_from Ho Hi).
    exact (find_elem_ids _ _ Et i (find_elem_has_id _ _ Et)).
  - unfold Spec.ids_from in *. rewrite Forall_forall in *.
    intros j Hj. apply Hn. exact (find_elem_ids _ _ Et j Hj).
Qed.

Lemma preserves_read {A} (i : nat) (f : Dom.node -> A) :
  Spec.preserves n0 (Store.read i f) (fun _ => True).
Proof.
  intros w Hw. unfold Store.read. destruct (Store.deref i w); simpl;
    untouched Hw.
Qed.

Lemma preserves_cloneNode (i : nat) :
  Spec.preserves n0 (Store.cloneNode i) (fun c => n0 <= c).
Proof.
  intros w Hw. unfold Store.cloneNode.
  destruct (Store.deref i w) as [e|]; simpl;
    [|split; [apply same_document_refl | split; [exact Hw | discriminate]]].
  destruct (Dom.relabel e (Store.next_id w)) as [e' n] eqn:Er. simpl.
  destruct (relabel_fresh _ _ Er) as [Ln Fe].
  destruct Hw as (Hl & Hd & Hn).
  split; [repeat split|]. split.
  - split; [exact Hl|]. split; [|simpl; lia].
    simpl. constructor; [|exact Hd]. right.
    unfold Spec.ids_from. eapply Forall_impl; [|exact Fe].
    simpl. intros; lia.
  - intros c E. injection E as <-. exact Hn.
Qed.

Lemma preserves_querySelectorAll (c : nat) (sel : Dom.selector) :
  n0 <= c ->
  Spec.preserves n0 (Store.querySelectorAll c sel)
    (Forall (fun i => n0 <= i)).
Proof.
  intros Hc w Hw. unfold Store.querySelectorAll, Store.read.
  destruct (Store.deref c w) as [e|] eqn:Ed; simpl;
    (split; [apply same_document_refl | split; [exact Hw|]]);
    [|discriminate].
  intros l E. injection E as <-.
  pose proof (deref_scratch Hw Hc Ed) as Hf.
  unfold Spec.ids_from in Hf. rewrite Forall_forall in *.
  intros i Hi. apply Hf.
  exact (querySelectorAll_ids sel e i (root_ids_incl _ i Hi)).
Qed.


Lemma ids_sub_below (t t' : Dom.node) :
  incl (Dom.ids t') (Dom.ids t) -> Spec.ids_below n0 t ->
  Spec.ids_below n0 t'.
Proof.
  unfold Spec.ids_below. rewrite !Forall_forall. auto.
Qed.

Lemma ids_sub_from (t t' : Dom.node) :
  incl (Dom.ids t') (Dom.ids t) -> Spec.ids_from n0 t ->
  Spec.ids_from n0 t'.
Proof.
  unfold Spec.ids_from. rewrite !Forall_forall. auto.
Qed.

(** Updating every detached tree in place keeps each on its side. *)
Lemma detached_map (f : Dom.node -> Dom.node) (l : list Dom.node) :
  (forall t, incl (Dom.ids (f t)) (Dom.ids t)) ->
  Forall (fun t => Spec.ids_below n0 t \/ Spec.ids_from n0 t) l ->
  Forall (fun t => Spec.ids_below n0 t \/ Spec.ids_from n0 t) (map f l).
Proof.
  intros Hf Hl. apply Forall_map. eapply Forall_impl; [|exact Hl].
  simpl. intros t [Hb | Hn].
  - left. eapply ids_sub_below; [apply Hf | exact Hb].
  - right. eapply ids_sub_from; [apply Hf | exact Hn].
Qed.

Lemma preserves_remove (i : nat) :
  n0 <= i -> Spec.preserves n0 (Store.remove i) (fun _ => True).
Proof.
  intros Hi w Hw. unfold Store.remove.
  destruct (Store.is_root i w); simpl;
    [split; [apply same_document_refl | split; [exact Hw | trivial]]|].
  destruct (Store.deref i w) as [e|] eqn:Ed; simpl;
    [|split; [apply same_document_refl | split; [exact Hw | trivial]]].
  pose proof (deref_scratch Hw Hi Ed) as He.
  destruct Hw as (Hl & Hd & Hn).
  rewrite (prune_absent i (Store.live w)) by (now apply below_not_from).
  split; [repeat split|]. split; [|trivial].
  split; [exact Hl|]. split; [|exact Hn]. simpl.
  constructor; [now right|].
  apply detached_map; [intros t; apply prune_ids | exact Hd].
Qed.

Lemma preserves_setAttribute (i : nat) (k v : string) :
  n0 <= i -> Spec.preserves n0 (Store.setAttribute i k v) (fun _ => True).
Proof.
  intros Hi w Hw. unfold Store.setAttribute.
  destruct (Store.deref i w) as [e|]; simpl;
    [|split; [apply same_document_refl | split; [exact Hw | trivial]]].
  destruct Hw as (Hl & Hd & Hn).
  rewrite (set_attr_at_absent i k v (Store.live w))
    by (now apply below_not_from).
  split; [repeat split|]. split; [|trivial].
  split; [exact Hl|]. split; [|exact Hn]. simpl.
  apply detached_map; [|exact Hd].
  intros t. rewrite set_attr_at_ids. apply incl_refl.
Qed.

Lemma preserves_pure {A} (f : Store.World -> A) :
  Spec.preserves n0 (Store.gets f) (fun _ => True).
Proof.
  intros w Hw. simpl. untouched Hw.
Qed.

(** ** The functions of the content script *)

Context {host : Host}.

Lemma preserves_remove_all (c : nat) (unwanted : list Dom.selector) :
  n0 <= c ->
  Spec.preserves n0 (Vanilla.remove_all c unwanted) (fun _ => True).
Proof.
  intros Hc. unfold Vanilla.remove_all.
  apply preserves_forEach with (P := fun _ => True).
  - apply Forall_forall. trivial.
  - intros sel _. eapply preserves_bind.
    + apply preserves_querySelectorAll, Hc.
    + intros elements He. simpl in He.
      apply preserves_forEach with (P := fun i => n0 <= i); [exact He|].
      intros i. apply preserves_remove.
Qed.

Lemma preserves_absolutize (k : string) (el : nat) :
  n0 <= el -> Spec.preserves n0 (Vanilla.absolutize k el) (fun _ => True).
Proof.
  intros Hel. unfold Vanilla.absolutize.
  eapply preserves_bind; [apply preserves_read|].
  intros [u|] _; [|now apply preserves_ret].
  destruct (Vanilla.is_relative u); [|now apply preserves_ret].
  eapply preserves_bind; [apply preserves_pure|]. intros base _.
  eapply preserves_bind; [apply preserves_lift|].
  intros abs _. now apply preserves_setAttribute.
Qed.

Lemma preserves_cleanContent (element : nat) :
  Spec.preserves n0 (Vanilla.cleanContent element) (fun _ => True).
Proof.
  unfold Vanilla.cleanContent.
  eapply preserves_bind; [apply preserves_cloneNode|].
  intros cleaned Hc. simpl in Hc.
  eapply preserves_bind; [now apply preserves_remove_all|]. intros _ _.
  eapply preserves_bind; [now apply preserves_querySelectorAll|].
  intros links Hl. simpl in Hl.
  eapply preserves_bind.
  { apply preserves_forEach with (P := fun i => n0 <= i); [exact Hl|].
    intros i. apply preserves_absolutize. }
  intros _ _.
  eapply preserves_bind; [now apply preserves_querySelectorAll|].
  intros images Hi. simpl in Hi.
  eapply preserves_bind.
  { apply preserves_forEach with (P := fun i => n0 <= i); [exact Hi|].
    intros i. apply preserves_absolutize. }
  intros _ _. apply preserves_read.
Qed.

Lemma preserves_body_fallback :
  Spec.preserves n0 Vanilla.body_fallback (fun _ => True).
Proof.
  unfold Vanilla.body_fallback.
  eapply preserves_bind; [apply preserves_pure|].
  intros [[d|d|i t a ch]|] _; try apply preserves_throw.
  eapply preserves_bind; [apply preserves_cloneNode|].
  intros body Hb. simpl in Hb.
  eapply preserves_bind; [now apply preserves_remove_all|]. intros _ _.
  apply preserves_cleanContent.
Qed.

Lemma preserves_main_content_from (selectors : list Dom.selector) :
  Spec.preserves n0 (Vanilla.main_content_from selectors) (fun _ => True).
Proof.
  induction selectors as [|sel rest IH]; simpl.
  - apply preserves_body_fallback.
  - eapply preserves_bind; [apply preserves_pure|].
    intros [[d|d|i t a ch]|] _; try exact IH.
    destruct (Nat.ltb 100 _); [apply preserves_cleanContent | exact IH].
Qed.

Lemma preserves_extractPageContent :
  Spec.preserves n0 Vanilla.extractPageContent (fun _ => True).
Proof.
  unfold Vanilla.extractPageContent.
  eapply preserves_bind; [apply preserves_pure|]. intros w0 _.
  eapply preserves_bind; [apply preserves_lift|]. intros ttl _.
  eapply preserves_bind; [apply preserves_lift|]. intros descr _.
  eapply preserves_bind; [apply preserves_lift|]. intros auth _.
  eapply preserves_bind; [apply preserves_main_content_from|].
  intros c _. now apply preserves_ret.
Qed.

End Preservation.

Lemma well_formed_separated (w : Store.World) :
  Spec.well_formed w -> Spec.separated (Store.next_id w) w.
Proof.
  intros [Hl Hd]. split; [exact Hl|]. split; [|lia].
  eapply Forall_impl; [|exact Hd]. simpl. auto.
Qed.

(** C9.  Whatever the content script does while it selects and cleans
    the content (clone, remove, set attributes, also when resolving an
    address throws half-way), the live document is afterwards the tree
    it was: [cleanContent] on any element, [getMainContent] and the whole
    [extractPageContent] only ever change copies. *)
Theorem C9_live_document_unchanged (host : Host) (w : Store.World) :
  Spec.well_formed w ->
  (forall element,
      Spec.same_document w (snd (Vanilla.cleanContent element w)))
  /\ Spec.same_document w (snd (Vanilla.getMainContent w))
  /\ Spec.same_document w (snd (Vanilla.extractPageContent w)).
Proof.
  intros Hw. apply well_formed_separated in Hw.
  split; [|split].
  - intros element.
    exact (proj1 (@preserves_cleanContent (Store.next_id w) host element w Hw)).
  - exact (proj1 (@preserves_main_content_from (Store.next_id w) host
                    Vanilla.contentSelectors w Hw)).
  - exact (proj1 (@preserves_extractPageContent (Store.next_id w) host w Hw)).
Qed.

(** A reference to a live element does reach the live tree: removing the
    script of the sample article through its own identity changes the
    document.  The content script never does this. *)
Lemma remove_reaches_live :
  Store.live (snd (Store.remove 6 TestDoubles.article_world))
  <> Store.live TestDoubles.article_world.
Proof. vm_compute. discriminate. Qed.

(** The content script on the sample article: the script and the
    advertisement are gone from the copy, the link is absolute, and the
    document is as before. *)
Lemma C9_live_document_unchanged_witness :
  Spec.same_document TestDoubles.article_world
    (snd (@Vanilla.getMainContent TestDoubles.host TestDoubles.article_world))
  /\ Store.detached
       (snd (@Vanilla.getMainContent TestDoubles.host TestDoubles.article_world))
     <> [].
Proof.
  split.
  - refine (proj1 (proj2 (@C9_live_document_unchanged TestDoubles.host
                            TestDoubles.article_world _))).
    split; [|constructor].
    unfold Spec.ids_below. vm_compute. repeat constructor.
  - vm_compute. discriminate.
Defined.

(* ================================================================== *)
(** * Converting the output again *)
(* ================================================================== *)

Lemma collapse_ws_single_spaced (s : string) :
  forall b, Spec.single_spaced b (Js.collapse_ws_from b s) = true.
Proof.
  induction s as [|c r IH]; intros b; simpl; [reflexivity|].
  destruct (Js.is_space c) eqn:E.
  - destruct b; [apply IH|]. simpl. apply IH.
  - simpl. rewrite E. apply IH.
Qed.

Lemma single_spaced_collapse_ws (s : string) :
  forall b, Spec.single_spaced b s = true -> Js.collapse_ws_from b s = s.
Proof.
  induction s as [|c r IH]; intros b; simpl; [reflexivity|].
  destruct (Js.is_space c) eqn:E.
  - intros H. apply andb_true_iff in H as [H Hr].
    apply andb_true_iff in H as [Hc Hb].
    apply Ascii.eqb_eq in Hc. subst c. destruct b; [discriminate|].
    f_equal. now apply IH.
  - intros H. f_equal. now apply IH.
Qed.

Lemma single_spaced_trimStart (s : string) :
  forall b, Spec.single_spaced b s = true ->
            Spec.single_spaced false (Js.trimStart s) = true.
Proof.
  induction s as [|c r IH]; intros b; simpl; [reflexivity|].
  destruct (Js.is_space c) eqn:E.
  - intros H. apply andb_true_iff in H as [_ Hr]. exact (IH true Hr).
  - intros H. simpl. now rewrite E.
Qed.

Lemma single_spaced_trimEnd (s : string) :
  forall b, Spec.single_spaced b s = true ->
            Spec.single_spaced b (Js.trimEnd s) = true.
Proof.
  induction s as [|c r IH]; intros b; simpl; [reflexivity|].
  destruct (Js.is_space c) eqn:E; simpl.
  - intros H. apply andb_true_iff in H as [H Hr].
    destruct (Js.is_empty (Js.trimEnd r)); [reflexivity|].
    simpl. rewrite E, H. apply (IH true Hr).
  - intros H. rewrite E. now apply IH.
Qed.

Lemma trimEnd_idempotent (s : string) : Js.trimEnd (Js.trimEnd s) = Js.trimEnd s.
Proof.
  induction s as [|c r IH]; simpl; [reflexivity|].
  destruct (Js.is_space c && Js.is_empty (Js.trimEnd r)) eqn:E;
    [reflexivity|].
  simpl. now rewrite IH, E.
Qed.

Lemma trimStart_no_lead_space (s : string) :
  Spec.no_lead_space (Js.trimStart s) = true.
Proof.
  induction s as [|c r IH]; simpl; [reflexivity|].
  destruct (Js.is_space c) eqn:E; [exact IH|]. simpl. now rewrite E.
Qed.

Lemma no_lead_space_trimStart (s : string) :
  Spec.no_lead_space s = true -> Js.trimStart s = s.
Proof.
  destruct s as [|c r]; simpl; [reflexivity|].
  intros E. apply negb_true_iff in E. now rewrite E.
Qed.

Lemma no_lead_space_trimEnd (s : string) :
  Spec.no_lead_space s = true -> Spec.no_lead_space (Js.trimEnd s) = true.
Proof.
  destruct s as [|c r]; simpl; [reflexivity|].
  intros E. apply negb_true_iff in E. rewrite E. simpl. now rewrite E.
Qed.

Lemma trim_idempotent (s : string) : Js.trim (Js.trim s) = Js.trim s.
Proof.
  unfold Js.trim.
  rewrite (no_lead_space_trimStart (Js.trimEnd (Js.trimStart s)))
    by apply no_lead_space_trimEnd, trimStart_no_lead_space.
  apply trimEnd_idempotent.
Qed.

(** The clean-up of the content script changes nothing the second time. *)
Lemma tidy_idempotent (s : string) : Vanilla.tidy (Vanilla.tidy s) = Vanilla.tidy s.
Proof.
  assert (E : Vanilla.tidy s = Js.trim (Js.collapse_ws s)).
  { unfold Vanilla.tidy, Js.collapse_newlines.
    now rewrite collapse_newlines_no_newline
      by apply collapse_ws_no_newline. }
  rewrite E. unfold Vanilla.tidy.
  assert (Ec : Js.collapse_ws (Js.trim (Js.collapse_ws s))
               = Js.trim (Js.collapse_ws s)).
  { apply single_spaced_collapse_ws. unfold Js.trim.
    apply single_spaced_trimEnd, (single_spaced_trimStart _ false).
    apply collapse_ws_single_spaced. }
  rewrite Ec. unfold Js.collapse_newlines.
  rewrite collapse_newlines_no_newline.
  - apply trim_idempotent.
  - rewrite <- E. apply tidy_no_newline.
Qed.

(** C8 (as amended).  When the parser reads plain text back as text, a
    body of the content script's converter that holds no
    markup-significant code unit is a fixed point: converting it again
    returns it unchanged. *)
Theorem C8_plain_bodies_are_fixed_points (host : Host) (html : string) :
  Spec.reads_text_back host ->
  Spec.plain (Vanilla.convertToMarkdown html) = true ->
  Vanilla.convertToMarkdown (Vanilla.convertToMarkdown html)
  = Vanilla.convertToMarkdown html.
Proof.
  intros Hparse Hplain.
  set (body := Vanilla.convertToMarkdown html) in *.
  unfold Vanilla.convertToMarkdown at 1. unfold Vanilla.temp_div.
  rewrite (Hparse body Hplain).
  destruct (Js.is_empty body) eqn:E.
  - apply is_empty_true in E. rewrite E. reflexivity.
  - cbn [Vanilla.htmlToSimpleMarkdown]. rewrite append_nil_r.
    subst body. unfold Vanilla.convertToMarkdown. apply tidy_idempotent.
Qed.

(** The theorem on text with a run of spaces. *)
Lemma C8_plain_bodies_are_fixed_points_witness :
  @Vanilla.convertToMarkdown TestDoubles.host "Hello   world" = "Hello world"
  /\ @Vanilla.convertToMarkdown TestDoubles.host
       (@Vanilla.convertToMarkdown TestDoubles.host "Hello   world")
     = @Vanilla.convertToMarkdown TestDoubles.host "Hello   world".
Proof.
  split; [reflexivity|].
  apply C8_plain_bodies_are_fixed_points.
  - intros s _. reflexivity.
  - reflexivity.
Defined.

(** Text that shows markup: the page displays [<b>x</b>] literally.  The
    first conversion returns that text; converting it again reads it as
    a [b] element and returns bold text.  This holds for every host that
    parses the two strings as a browser does, and there is such a host. *)
Lemma C8_counterexample :
  Spec.reads_markup_back TestDoubles.markup_host
  /\ ~ (exists host : Host,
          Spec.reads_markup_back host
          /\ forall html,
               Vanilla.convertToMarkdown (Vanilla.convertToMarkdown html)
               = Vanilla.convertToMarkdown html).
Proof.
  split.
  - split; [reflexivity | exists 0; reflexivity].
  - intros (host & (E1 & i & E2) & Hfix).
    specialize (Hfix "&lt;b&gt;x&lt;/b&gt;").
    assert (A : Vanilla.convertToMarkdown "&lt;b&gt;x&lt;/b&gt;" = "<b>x</b>").
    { unfold Vanilla.convertToMarkdown, Vanilla.temp_div. rewrite E1.
      reflexivity. }
    rewrite A in Hfix.
    assert (B : Vanilla.convertToMarkdown "<b>x</b>" = "**x**").
    { unfold Vanilla.convertToMarkdown, Vanilla.temp_div. rewrite E2.
      reflexivity. }
    rewrite B in Hfix. discriminate.
Qed.

(* ================================================================== *)
(** * The clean-up passes of the TypeScript converter *)
(* ================================================================== *)

Lemma length_append (a b : string) :
  String.length (a ++ b) = String.length a + String.length b.
Proof. induction a as [|c a IH]; simpl; [reflexivity | now rewrite IH]. Qed.

Lemma span_until_length (stop : ascii) (s : string) :
  forall a rest, Js.span_until stop s = Some (a, rest) ->
                 String.length s = String.length a + 1 + String.length rest.
Proof.
  induction s as [|c r IH]; intros a rest; simpl; [discriminate|].
  destruct (Ascii.eqb c stop).
  - intros E. injection E as <- <-. simpl. lia.
  - destruct (Js.span_until stop r) as [[a' rest']|]; [|discriminate].
    intros E. injection E as <- <-. simpl. rewrite (IH a' rest' eq_refl). lia.
Qed.

Lemma span_ws_length (s : string) :
  forall w rest, Js.span_ws s = (w, rest) ->
                 String.length s = String.length w + String.length rest.
Proof.
  induction s as [|c r IH]; intros w rest; simpl.
  - intros E. injection E as <- <-. reflexivity.
  - destruct (Js.is_space c).
    + destruct (Js.span_ws r) as [w' rest']. intros E. injection E as <- <-.
      simpl. now rewrite (IH w' rest' eq_refl).
    + intros E. injection E as <- <-. reflexivity.
Qed.

Lemma after_last_nl_length (w : string) :
  String.length (Js.after_last_nl w) <= String.length w.
Proof.
  induction w as [|c r IH]; simpl; [lia|].
  destruct (Nat.ltb 0 (Js.count_nl r)); [lia|].
  destruct (Ascii.eqb c Js.nl); simpl; lia.
Qed.

(** A match consumes at least the two code units it starts with. *)
Lemma image_at_shorter (s alt src rest : string) :
  Js.image_at s = Some (alt, src, rest) ->
  String.length rest < String.length s.
Proof.
  destruct s as [|c1 [|c2 r]]; simpl; try discriminate.
  destruct (Ascii.eqb c1 "!" && Ascii.eqb c2 "["); [|discriminate].
  unfold Js.match_image_tail.
  destruct (Js.span_until "]" r) as [[a [|c3 r2]]|] eqn:E1; try discriminate.
  apply span_until_length in E1. simpl in E1.
  destruct c3 as [[] [] [] [] [] [] [] []]; try discriminate.
  destruct (Js.span_until ")" r2) as [[sr r3]|] eqn:E2; [|discriminate].
  apply span_until_length in E2.
  destruct (Js.is_empty sr); [discriminate|].
  destruct (Js.span_ws r3) as [w r4] eqn:E3.
  apply span_ws_length in E3.
  destruct (Nat.leb 2 (Js.count_nl w)); [|discriminate].
  intros E. injection E as <- <- <-.
  rewrite length_append. pose proof (after_last_nl_length w). lia.
Qed.

(** The budget of [fix_image_spacing] is enough: a larger one gives the
    same text. *)
Lemma fix_image_spacing_steps_enough (n : nat) :
  forall m s, String.length s <= n -> String.length s <= m ->
              Js.fix_image_spacing_steps n s = Js.fix_image_spacing_steps m s.
Proof.
  induction n as [|n IH]; intros m s Hn Hm.
  - destruct s; [|simpl in Hn; lia]. destruct m; reflexivity.
  - destruct m as [|m].
    + destruct s; [|simpl in Hm; lia]. reflexivity.
    + simpl. destruct (Js.image_at s) as [[[alt src] rest]|] eqn:E.
      * apply image_at_shorter in E.
        rewrite (IH m rest) by lia. reflexivity.
      * destruct s as [|c r]; [reflexivity|]. simpl in Hn, Hm.
        rewrite (IH m r) by lia. reflexivity.
Qed.

(** What the converter returns when [turndown] returns: the header, then
    the text of [turndown] after one run of each replacement, trimmed. *)
Lemma convertToMarkdown_returns (host : Host) (libs : Libs)
      (data : ExtractedContent) (markdown : string) :
  new_DOMParser = Ok tt ->
  turndown (Converter.processUrls (content data) (url data)) = Ok markdown ->
  Converter.convertToMarkdown data
  = Ok (Converter.createFrontmatter data ++ Js.str Js.nl
          ++ Js.trim (Js.fix_image_spacing
                        (Js.remove_empty_links
                           (Js.collapse_newlines markdown)))).
Proof.
  intros P E.
  unfold Converter.convertToMarkdown, Converter.processUrls_call.
  rewrite P. cbn [rbind]. rewrite E. reflexivity.
Qed.

(** The replacements that follow the blank-line pass can bring a run of
    line feeds back: an empty link between two blank lines. *)
Lemma cleanup_can_leave_blank_run :
  let n := Js.str Js.nl in
  Js.remove_empty_links (Js.collapse_newlines ("a" ++ n ++ n ++ "[](x)" ++ n ++ n ++ "b"))
  = "a" ++ n ++ n ++ n ++ n ++ "b".
Proof. reflexivity. Qed.

(** Blank lines after an image: the whitespace up to the last line feed
    becomes one blank line. *)
Example fix_image_spacing_example :
  let n := Js.str Js.nl in
  Js.fix_image_spacing ("![alt](pic.png) " ++ n ++ " " ++ n ++ n ++ "  text")
  = "![alt](pic.png)" ++ n ++ n ++ "  text".
Proof. reflexivity. Qed.

(* ================================================================== *)
(** * The vanilla build next to the TypeScript one *)
(* ================================================================== *)

(** The content script has no fallback of its own: when resolving an
    address throws, [extractPageContent] throws and the listener answers
    with a failure. *)
Lemma content_script_reports_failure :
  let w :=
    Store.with_trees TestDoubles.article_world
      (Dom.Elem 0 "html" []
         [ Dom.Elem 3 "body" []
             [ Dom.Elem 9 "a" [("href", "ftp://[")] [Dom.Text "About"] ] ])
      [] 10 in
  fst (@Vanilla.extractPageContent TestDoubles.host w) = Throw
  /\ fst (@Vanilla.onExtractContent TestDoubles.host w) = Ok Vanilla.Failure.
Proof. split; reflexivity. Qed.

(** The header of the background script always has an [author] and a
    [description] line. *)
Lemma createMarkdownFile_author_always (data : Vanilla.PageContent) :
  Vanilla.pc_author data = "" ->
  Vanilla.pc_description data = "" ->
  Vanilla.createMarkdownFile data
  = "---" ++ Vanilla.nl
    ++ "url: " ++ Vanilla.pc_url data ++ Vanilla.nl
    ++ "title: "
    ++ Converter.quoted (Js.escape_quotes (Vanilla.pc_title data)) ++ Vanilla.nl
    ++ "timestamp: " ++ Vanilla.pc_timestamp data ++ Vanilla.nl
    ++ "domain: " ++ Vanilla.pc_domain data ++ Vanilla.nl
    ++ "author: Unknown" ++ Vanilla.nl
    ++ "description: " ++ Converter.quoted "" ++ Vanilla.nl
    ++ "word_count: " ++ Js.of_nat (Vanilla.pc_wordCount data) ++ Vanilla.nl
    ++ "---" ++ Vanilla.nl ++ Vanilla.nl
    ++ Vanilla.pc_markdown data.
Proof.
  intros Ea Ed. unfold Vanilla.createMarkdownFile. rewrite Ea, Ed. reflexivity.
Qed.

(* ================================================================== *)
(** * Excerpts *)
(* ================================================================== *)

Lemma length_take (n : nat) :
  forall s, String.length (Js.take n s) = Nat.min n (String.length s).
Proof.
  unfold Js.take. induction n as [|n IH]; intros [|c s]; simpl; auto.
Qed.

Lemma take_all (n : nat) :
  forall s, String.length s <= n -> Js.take n s = s.
Proof.
  unfold Js.take. induction n as [|n IH]; intros [|c s]; simpl; intros L;
    try reflexivity; try lia.
  f_equal. apply IH. lia.
Qed.

Lemma take_take (a : nat) :
  forall b s, a <= b -> Js.take a (Js.take b s) = Js.take a s.
Proof.
  unfold Js.take. induction a as [|a IH]; intros b s L.
  - destruct b, s; reflexivity.
  - destruct b as [|b]; [lia|]. destruct s as [|c s]; simpl; [reflexivity|].
    f_equal. apply IH. lia.
Qed.

Lemma take_prefix (n : nat) :
  forall s, String.prefix (Js.take n s) s = true.
Proof.
  unfold Js.take. induction n as [|n IH]; intros [|c s]; simpl;
    try reflexivity.
  destruct (ascii_dec c c); [apply IH | congruence].
Qed.

(** [lastIndexOf] answers with the position of a space. *)
Lemma lastIndexOf_space_get (s : string) :
  forall i, Js.lastIndexOf_space s = Some i ->
            String.get i s = Some " "%char.
Proof.
  induction s as [|c r IH]; intros i; simpl; [discriminate|].
  destruct (Js.lastIndexOf_space r) as [j|].
  - intros E. injection E as <-. simpl. now apply IH.
  - destruct (Ascii.eqb c " ") eqn:Ec; [|discriminate].
    intros E. injection E as <-. apply Ascii.eqb_eq in Ec. now subst c.
Qed.

Lemma get_lt (s : string) :
  forall i c, String.get i s = Some c -> i < String.length s.
Proof.
  induction s as [|x r IH]; intros [|i] c; simpl; try discriminate; try lia.
  intros E. apply IH in E. lia.
Qed.

Lemma get_take (n : nat) :
  forall s i c, String.get i (Js.take n s) = Some c -> String.get i s = Some c.
Proof.
  unfold Js.take. induction n as [|n IH]; intros [|x s] [|i] c; simpl;
    try discriminate; auto.
Qed.

(** How [createExcerpt] cuts: the cleaned text when it fits, otherwise a
    prefix of it and an ellipsis; the prefix is [maxLength] long, or ends
    just before a space of the cleaned text. *)
Lemma createExcerpt_cases (text : string) (maxLength : nat) :
  let clean := Js.trim (Js.collapse_ws text) in
  (String.length clean <= maxLength
   /\ Extractor.createExcerpt text maxLength = clean)
  \/ (maxLength < String.length clean
      /\ exists k,
           k <= maxLength
           /\ Extractor.createExcerpt text maxLength = Js.take k clean ++ "..."
           /\ (k = maxLength
               \/ (0 < k /\ String.get k clean = Some " "%char))).
Proof.
  intros clean. unfold Extractor.createExcerpt. fold clean.
  destruct (Nat.leb (String.length clean) maxLength) eqn:L.
  - left. apply Nat.leb_le in L. auto.
  - right. apply Nat.leb_gt in L. split; [exact L|].
    destruct (Js.lastIndexOf_space (Js.take maxLength clean)) as [[|i]|] eqn:E.
    + exists maxLength. auto.
    + pose proof (lastIndexOf_space_get _ E) as G.
      pose proof (get_lt _ _ G) as Hlt. rewrite length_take in Hlt.
      exists (S i). split; [lia|]. split.
      * rewrite take_take by lia. reflexivity.
      * right. split; [lia|]. exact (get_take _ _ _ G).
    + exists maxLength. auto.
Qed.

(** No space follows the last one, and none is there when none is
    found. *)
Lemma lastIndexOf_space_none (s : string) :
  Js.lastIndexOf_space s = None ->
  forall j, String.get j s <> Some " "%char.
Proof.
  induction s as [|c r IH]; simpl; intros E j; [now destruct j|].
  destruct (Js.lastIndexOf_space r) as [i|]; [discriminate|].
  destruct (Ascii.eqb c " ") eqn:Ec; [discriminate|].
  destruct j as [|j]; simpl.
  - intros G. injection G as ->. discriminate.
  - now apply IH.
Qed.

Lemma lastIndexOf_space_last (s : string) :
  forall i, Js.lastIndexOf_space s = Some i ->
            forall j, i < j -> String.get j s <> Some " "%char.
Proof.
  induction s as [|c r IH]; simpl; intros i E j L; [discriminate|].
  destruct (Js.lastIndexOf_space r) as [i'|] eqn:Er.
  - injection E as <-. destruct j as [|j]; [lia|]. simpl.
    apply (IH i' eq_refl). lia.
  - destruct (Ascii.eqb c " "); [|discriminate]. injection E as <-.
    destruct j as [|j]; [lia|]. simpl.
    now apply lastIndexOf_space_none.
Qed.

Lemma get_take_lt (n : nat) :
  forall s j, j < n -> String.get j (Js.take n s) = String.get j s.
Proof.
  unfold Js.take. induction n as [|n IH]; intros [|x s] [|j] L; simpl;
    try reflexivity; try lia.
  apply IH. lia.
Qed.

(** Where [createExcerpt] cuts a long text: at the last space among the
    positions from 1 below the limit, and at the limit when there is
    none. *)
Lemma createExcerpt_cut (text : string) (maxLength : nat) :
  let clean := Js.trim (Js.collapse_ws text) in
  maxLength < String.length clean ->
  ((forall j, 0 < j < maxLength -> String.get j clean <> Some " "%char) ->
   Extractor.createExcerpt text maxLength = Js.take maxLength clean ++ "...")
  /\ (forall k,
        0 < k < maxLength -> String.get k clean = Some " "%char ->
        (forall j, k < j < maxLength ->
                   String.get j clean <> Some " "%char) ->
        Extractor.createExcerpt text maxLength = Js.take k clean ++ "...").
Proof.
  intros clean L. unfold Extractor.createExcerpt. fold clean.
  assert (Lb : Nat.leb (String.length clean) maxLength = false)
    by (apply Nat.leb_gt; exact L).
  rewrite Lb.
  set (t := Js.take maxLength clean).
  assert (Lt : String.length t = maxLength)
    by (unfold t; rewrite length_take; lia).
  destruct (Js.lastIndexOf_space t) as [[|i]|] eqn:E.
  - split; [reflexivity|].
    intros k Hk G _. exfalso.
    apply (lastIndexOf_space_last _ E (j := k)); [lia|].
    unfold t. rewrite get_take_lt by lia. exact G.
  - pose proof (lastIndexOf_space_get _ E) as G.
    pose proof (get_lt _ _ G) as Hlt. rewrite Lt in Hlt.
    assert (Gc : String.get (S i) clean = Some " "%char)
      by (unfold t in G; rewrite get_take_lt in G by lia; exact G).
    split.
    + intros Hn. exfalso. apply (Hn (S i)); [lia | exact Gc].
    + intros k Hk Gk Hlast.
      assert (K : k = S i).
      { destruct (Nat.lt_trichotomy k (S i)) as [Hlt'|[->|Hgt]];
          [|reflexivity|].
        - exfalso. apply (Hlast (S i)); [lia | exact Gc].
        - exfalso. apply (lastIndexOf_space_last _ E (j := k)); [lia|].
          unfold t. rewrite get_take_lt by lia. exact Gk. }
      subst k. unfold t. rewrite take_take by lia. reflexivity.
  - split; [reflexivity|].
    intros k Hk G _. exfalso.
    apply (lastIndexOf_space_none _ E k).
    unfold t. rewrite get_take_lt by lia. exact G.
Qed.

(** X1.  An excerpt is never longer than the limit plus the three code
    units of the ellipsis, and every record the extractor returns
    carries an excerpt of at most 203 code units, whichever block built
    it. *)
Theorem X1_excerpt_length (host : Host) (libs : Libs) :
  (forall text maxLength,
      String.length (Extractor.createExcerpt text maxLength) <= maxLength + 3)
  /\ (forall p r,
         Extractor.extractPageContent p = Ok r ->
         String.length (excerpt r) <= 203).
Proof.
  assert (B : forall text maxLength,
             String.length (Extractor.createExcerpt text maxLength)
             <= maxLength + 3).
  { intros text maxLength.
    destruct (createExcerpt_cases text maxLength)
      as [[L ->] | (L & k & Hk & -> & _)]; [lia|].
    rewrite length_append, length_take. simpl. lia. }
  split; [exact B|].
  intros p r. rewrite extractPageContent_blocks. cbv zeta. unfold try_catch.
  match goal with |- context [match ?m with Ok _ => _ | Throw => _ end] =>
    destruct m as [r'|] eqn:Em end.
  - intros E. injection E as <-.
    apply extract_main_ok in Em as (content2 & ->). simpl. apply (B _ 200).
  - intros F.
    destruct (extract_fallback_fields _ _ _ _ _ F)
      as (_ & _ & _ & _ & _ & _ & body & _ & _ & _ & ->).
    apply (B _ 200).
Qed.

(** X2.  A text whose cleaned form fits the limit is returned cleaned and
    without ellipsis; a longer one is cut to a prefix of its cleaned form
    followed by ["..."]: at the last space among the positions from 1
    below the limit, and at the limit itself when none of these holds a
    space. *)
Theorem X2_excerpt_cut (text : string) (maxLength : nat) :
  let clean := Js.trim (Js.collapse_ws text) in
  (String.length clean <= maxLength ->
   Extractor.createExcerpt text maxLength = clean)
  /\ (maxLength < String.length clean ->
      (exists k,
         k <= maxLength
         /\ Extractor.createExcerpt text maxLength = Js.take k clean ++ "..."
         /\ String.prefix (Js.take k clean) clean = true
         /\ (k = maxLength
             \/ (0 < k /\ String.get k clean = Some " "%char)))
      /\ ((forall j, 0 < j < maxLength ->
                     String.get j clean <> Some " "%char) ->
          Extractor.createExcerpt text maxLength
          = Js.take maxLength clean ++ "...")
      /\ (forall k,
            0 < k < maxLength -> String.get k clean = Some " "%char ->
            (forall j, k < j < maxLength ->
                       String.get j clean <> Some " "%char) ->
            Extractor.createExcerpt text maxLength
            = Js.take k clean ++ "...")).
Proof.
  intros clean.
  destruct (createExcerpt_cases text maxLength)
    as [[L E] | (L & k & Hk & E & Hc)]; fold clean in L, E; split;
    try (intros; lia); try (intros _; exact E).
  intros _. split.
  - exists k. repeat split; auto. apply take_prefix.
  - exact (createExcerpt_cut text L).
Qed.

(* ================================================================== *)
(** * Counting words of joined and of blank texts *)
(* ================================================================== *)

Lemma tokens_from_join (a : string) :
  forall cur c b, Js.is_space c = true ->
    Spec.tokens_from cur (a ++ String c b)
    = List.app (Spec.tokens_from cur a) (Spec.tokens_from "" b).
Proof.
  induction a as [|x a IH]; intros cur c b Hc; simpl.
  - rewrite Hc. destruct (Js.is_empty cur); reflexivity.
  - destruct (Js.is_space x).
    + destruct (Js.is_empty cur); simpl; now rewrite IH.
    + now apply IH.
Qed.

Lemma tokens_from_nonempty_cur (s : string) :
  forall cur, Js.is_empty cur = false -> Spec.tokens_from cur s <> [].
Proof.
  induction s as [|c r IH]; intros cur E; simpl.
  - rewrite E. discriminate.
  - destruct (Js.is_space c).
    + rewrite E. discriminate.
    + apply IH. destruct cur; reflexivity.
Qed.

Lemma tokens_nil_iff (s : string) :
  Spec.tokens s = [] <-> Spec.all_chars Js.is_space s = true.
Proof.
  unfold Spec.tokens. induction s as [|c r IH]; simpl; [tauto|].
  destruct (Js.is_space c) eqn:E; simpl.
  - exact IH.
  - split; [|discriminate]. intros H. exfalso.
    exact (tokens_from_nonempty_cur r (Js.str c) eq_refl H).
Qed.

(** X3.  The word count adds up over texts joined by a whitespace code
    unit, and it is zero exactly for the texts made of whitespace only
    (the empty text among them). *)
Theorem X3_word_count_composes :
  (forall a b c, Js.is_space c = true ->
      Extractor.countWords (a ++ String c b)
      = Extractor.countWords a + Extractor.countWords b)
  /\ (forall s, Extractor.countWords s = 0
                <-> Spec.all_chars Js.is_space s = true).
Proof.
  split.
  - intros a b c Hc. unfold Extractor.countWords.
    rewrite !words_are_tokens. unfold Spec.tokens.
    rewrite tokens_from_join by exact Hc. apply length_app.
  - intros s. unfold Extractor.countWords. rewrite words_are_tokens.
    rewrite <- tokens_nil_iff. apply length_zero_iff_nil.
Qed.

(* ================================================================== *)
(** * Escaping quotes in the header *)
(* ================================================================== *)

Lemma escape_quotes_head (s : string) (r : string) :
  Js.escape_quotes s <> String Js.dquote r.
Proof.
  destruct s as [|c s]; simpl; [discriminate|].
  destruct (Ascii.eqb c Js.dquote) eqn:E; [discriminate|].
  intros H. injection H as Hc _. subst c. discriminate.
Qed.

Lemma escape_quotes_injective (a : string) :
  forall b, Js.escape_quotes a = Js.escape_quotes b -> a = b.
Proof.
  induction a as [|c a IH]; intros [|d b]; simpl.
  - reflexivity.
  - destruct (Ascii.eqb d Js.dquote); discriminate.
  - destruct (Ascii.eqb c Js.dquote); discriminate.
  - destruct (Ascii.eqb c Js.dquote) eqn:Ec, (Ascii.eqb d Js.dquote) eqn:Ed.
    + apply Ascii.eqb_eq in Ec, Ed. subst c d.
      intros H. injection H as H. f_equal. now apply IH.
    + intros H. injection H as _ H. symmetry in H.
      now apply escape_quotes_head in H.
    + intros H. injection H as _ H. now apply escape_quotes_head in H.
    + intros H. injection H as -> H. f_equal. now apply IH.
Qed.

Lemma escape_quotes_escaped (s : string) :
  forall esc, Spec.quotes_escaped esc (Js.escape_quotes s) = true.
Proof.
  induction s as [|c s IH]; intros esc; simpl; [reflexivity|].
  destruct (Ascii.eqb c Js.dquote) eqn:E.
  - simpl. apply IH.
  - simpl. rewrite E. simpl. apply IH.
Qed.

(** X4.  Escaping for the header loses nothing and leaves no bare quote:
    different values have different escaped forms, every double quote of
    the escaped form follows a backslash, the escaped form of a joined
    text is the joined escaped forms, and a value without double quote is
    left as it is (a backslash is never escaped). *)
Theorem X4_escape_quotes :
  (forall a b, Js.escape_quotes a = Js.escape_quotes b -> a = b)
  /\ (forall s, Spec.quotes_escaped false (Js.escape_quotes s) = true)
  /\ (forall a b, Js.escape_quotes (a ++ b)
                  = Js.escape_quotes a ++ Js.escape_quotes b)
  /\ (forall s,
        Spec.all_chars (fun c => negb (Ascii.eqb c Js.dquote)) s = true ->
        Js.escape_quotes s = s).
Proof.
  split; [exact escape_quotes_injective|].
  split; [intros s; apply escape_quotes_escaped|].
  split.
  - intros a b. induction a as [|c a IH]; simpl; [reflexivity|].
    destruct (Ascii.eqb c Js.dquote); simpl; now rewrite IH.
  - intros s. induction s as [|c s IH]; simpl; [reflexivity|].
    intros H. apply andb_true_iff in H as [Hc Hs].
    apply negb_true_iff in Hc. rewrite Hc. f_equal. now apply IH.
Qed.

(* ================================================================== *)
(** * The shape of the header *)
(* ================================================================== *)





(* ================================================================== *)
(** * File names *)
(* ================================================================== *)

Section FileNames.
Variable p : ascii -> bool.

Lemma all_chars_trimStart (s : string) :
  Spec.all_chars p s = true -> Spec.all_chars p (Js.trimStart s) = true.
Proof.
  induction s as [|c r IH]; simpl; [reflexivity|].
  intros H. destruct (Js.is_space c); [|exact H].
  apply IH. now apply andb_true_iff in H.
Qed.

Lemma all_chars_trimEnd (s : string) :
  Spec.all_chars p s = true -> Spec.all_chars p (Js.trimEnd s) = true.
Proof.
  induction s as [|c r IH]; simpl; [reflexivity|].
  intros H. apply andb_true_iff in H as [Hc Hr].
  destruct (Js.is_space c && Js.is_empty (Js.trimEnd r)); [reflexivity|].
  simpl. rewrite Hc. now apply IH.
Qed.

Lemma all_chars_collapse_dashes (s : string) :
  forall b, Spec.all_chars p s = true ->
            Spec.all_chars p (Js.collapse_dashes_from b s) = true.
Proof.
  induction s as [|c r IH]; intros b; simpl; [reflexivity|].
  intros H. apply andb_true_iff in H as [Hc Hr].
  destruct (Ascii.eqb c "-") eqn:E.
  - apply Ascii.eqb_eq in E. subst c.
    destruct b; simpl; [|rewrite Hc]; now apply IH.
  - simpl. rewrite Hc. now apply IH.
Qed.

Lemma all_chars_drop_last_dash (s : string) :
  Spec.all_chars p s = true -> Spec.all_chars p (Js.drop_last_dash s) = true.
Proof.
  induction s as [|c r IH]; simpl; [reflexivity|].
  intros H. apply andb_true_iff in H as [Hc Hr].
  destruct (Ascii.eqb c "-" && Js.is_empty r); [reflexivity|].
  simpl. rewrite Hc. now apply IH.
Qed.

Lemma all_chars_strip_edge_dashes (s : string) :
  Spec.all_chars p s = true ->
  Spec.all_chars p (Js.strip_edge_dashes s) = true.
Proof.
  intros H. unfold Js.strip_edge_dashes.
  destruct s as [|c r]; [reflexivity|].
  assert (Hr : Spec.all_chars p r = true)
    by (simpl in H; now apply andb_true_iff in H).
  destruct (Ascii.eqb c "-") eqn:E.
  - apply Ascii.eqb_eq in E. subst c. now apply all_chars_drop_last_dash.
  - assert (G : Spec.all_chars p (Js.drop_last_dash (String c r)) = true)
      by now apply all_chars_drop_last_dash.
    destruct c as [[] [] [] [] [] [] [] []]; try exact G; discriminate.
Qed.

Lemma all_chars_take (n : nat) :
  forall s, Spec.all_chars p s = true ->
            Spec.all_chars p (Js.take n s) = true.
Proof.
  unfold Js.take. induction n as [|n IH]; intros [|c s]; simpl; auto.
  intros H. apply andb_true_iff in H as [Hc Hs]. rewrite Hc. now apply IH.
Qed.

End FileNames.

Lemma replace_unsafe_clean (s : string) :
  Spec.all_chars (fun c => negb (Js.is_unsafe c)) (Js.replace_unsafe s) = true.
Proof.
  induction s as [|c r IH]; simpl; [reflexivity|].
  rewrite IH, andb_true_r. destruct (Js.is_unsafe c) eqn:E;
    [reflexivity | now rewrite E].
Qed.

Lemma ws_runs_to_dash_safe (s : string) :
  forall b, Spec.all_chars (fun c => negb (Js.is_unsafe c)) s = true ->
            Spec.all_chars Spec.filename_safe (Js.ws_runs_to_dash_from b s)
            = true.
Proof.
  induction s as [|c r IH]; intros b; simpl; [reflexivity|].
  intros H. apply andb_true_iff in H as [Hc Hr].
  destruct (Js.is_space c) eqn:E.
  - destruct b; simpl; now apply IH.
  - simpl. unfold Spec.filename_safe at 1. rewrite Hc, E. now apply IH.
Qed.

Lemma ws_each_to_dash_safe (s : string) :
  Spec.all_chars (fun c => negb (Js.is_unsafe c)) s = true ->
  Spec.all_chars Spec.filename_safe (Js.ws_each_to_dash s) = true.
Proof.
  induction s as [|c r IH]; simpl; [reflexivity|].
  intros H. apply andb_true_iff in H as [Hc Hr].
  rewrite (IH Hr), andb_true_r.
  destruct (Js.is_space c) eqn:E; [reflexivity|].
  unfold Spec.filename_safe. now rewrite Hc, E.
Qed.

Lemma collapse_ws_clean (s : string) :
  forall b, Spec.all_chars (fun c => negb (Js.is_unsafe c)) s = true ->
            Spec.all_chars (fun c => negb (Js.is_unsafe c))
              (Js.collapse_ws_from b s) = true.
Proof.
  induction s as [|c r IH]; intros b; simpl; [reflexivity|].
  intros H. apply andb_true_iff in H as [Hc Hr].
  destruct (Js.is_space c).
  - destruct b; simpl; now apply IH.
  - simpl. rewrite Hc. now apply IH.
Qed.

(** ** Dashes *)

Lemma collapse_dashes_single (s : string) :
  forall b, Spec.no_double_dash b (Js.collapse_dashes_from b s) = true.
Proof.
  induction s as [|c r IH]; intros b; simpl; [reflexivity|].
  destruct (Ascii.eqb c "-") eqn:E.
  - destruct b; [apply IH|]. simpl. apply IH.
  - simpl. unfold Spec.is_dash. rewrite E. apply IH.
Qed.

Lemma no_double_dash_weaken (s : string) :
  Spec.no_double_dash true s = true -> Spec.no_double_dash false s = true.
Proof.
  destruct s as [|c r]; simpl; [reflexivity|].
  destruct (Spec.is_dash c); [discriminate | auto].
Qed.

Lemma drop_last_dash_single (s : string) :
  forall b, Spec.no_double_dash b s = true ->
            Spec.no_double_dash b (Js.drop_last_dash s) = true.
Proof.
  induction s as [|c r IH]; intros b; simpl; [reflexivity|].
  unfold Spec.is_dash at 1.
  destruct (Ascii.eqb c "-") eqn:E; simpl.
  - intros H. apply andb_true_iff in H as [Hb Hr].
    destruct (Js.is_empty r); [reflexivity|].
    simpl. unfold Spec.is_dash at 1. rewrite E, Hb. now apply IH.
  - intros H. unfold Spec.is_dash at 1. rewrite E. now apply IH.
Qed.

(** After the last dash went, none ends the text. *)
Lemma drop_last_dash_end (s : string) :
  forall b, Spec.no_double_dash b s = true ->
            Spec.ends_with_dash (Js.drop_last_dash s) = false.
Proof.
  induction s as [|c r IH]; intros b; simpl; [reflexivity|].
  unfold Spec.is_dash at 1.
  destruct (Ascii.eqb c "-") eqn:E; simpl.
  - intros H. apply andb_true_iff in H as [Hb Hr].
    destruct (Js.is_empty r) eqn:Er; [reflexivity|].
    simpl. destruct (Js.is_empty (Js.drop_last_dash r)) eqn:Ed.
    + (* [r] was a single dash: two dashes in a row *)
      exfalso. destruct r as [|d r]; [discriminate|].
      simpl in Ed, Hr. unfold Spec.is_dash in Hr.
      destruct (Ascii.eqb d "-"); [discriminate|].
      simpl in Ed. discriminate.
    + now apply (IH true).
  - intros H. destruct (Js.is_empty (Js.drop_last_dash r)) eqn:Ed.
    + unfold Spec.is_dash. exact E.
    + now apply (IH false).
Qed.

Lemma drop_last_dash_start (s : string) :
  Spec.starts_with_dash s = false ->
  Spec.starts_with_dash (Js.drop_last_dash s) = false.
Proof.
  destruct s as [|c r]; simpl; [reflexivity|].
  unfold Spec.is_dash. intros E. rewrite E. simpl. exact E.
Qed.

Lemma strip_edge_dashes_unfold (s : string) :
  Js.strip_edge_dashes s
  = match s with
    | EmptyString => EmptyString
    | String c r =>
        if Ascii.eqb c "-" then Js.drop_last_dash r
        else Js.drop_last_dash s
    end.
Proof.
  destruct s as [|c r]; [reflexivity|].
  destruct c as [[] [] [] [] [] [] [] []]; reflexivity.
Qed.

(** Without two dashes in a row, stripping leaves no dash at either end. *)
Lemma strip_edge_dashes_edges (s : string) :
  Spec.no_double_dash false s = true ->
  Spec.no_double_dash false (Js.strip_edge_dashes s) = true
  /\ Spec.starts_with_dash (Js.strip_edge_dashes s) = false
  /\ Spec.ends_with_dash (Js.strip_edge_dashes s) = false.
Proof.
  rewrite strip_edge_dashes_unfold. destruct s as [|c r]; [auto|].
  intros H. destruct (Ascii.eqb c "-") eqn:E.
  - simpl in H. unfold Spec.is_dash in H. rewrite E in H. simpl in H.
    split; [apply no_double_dash_weaken; now apply drop_last_dash_single|].
    split; [|now apply (drop_last_dash_end r true)].
    apply drop_last_dash_start.
    destruct r as [|d r]; [reflexivity|]. simpl in H. simpl.
    destruct (Spec.is_dash d); [discriminate | reflexivity].
  - split; [now apply drop_last_dash_single|].
    split; [|now apply (drop_last_dash_end _ false)].
    apply drop_last_dash_start. simpl. unfold Spec.is_dash. exact E.
Qed.

Lemma take_single (n : nat) :
  forall s b, Spec.no_double_dash b s = true ->
              Spec.no_double_dash b (Js.take n s) = true.
Proof.
  unfold Js.take. induction n as [|n IH]; intros [|c s] b; simpl; auto.
  destruct (Spec.is_dash c).
  - intros H. apply andb_true_iff in H as [Hb Hs]. rewrite Hb. now apply IH.
  - apply IH.
Qed.

Lemma take_start (n : nat) (s : string) :
  Spec.starts_with_dash s = false ->
  Spec.starts_with_dash (Js.take n s) = false.
Proof. unfold Js.take. destruct n, s; simpl; auto. Qed.

(** ** Which names sanitise to nothing *)

Lemma some_char_trimStart (s : string) :
  Spec.some_char Spec.keeps s = true ->
  Spec.some_char Spec.keeps (Js.trimStart s) = true.
Proof.
  induction s as [|c r IH]; simpl; [auto|].
  intros H. destruct (Js.is_space c) eqn:E; [|exact H].
  apply IH. unfold Spec.keeps, Spec.filename_safe in H. rewrite E in H.
  now rewrite andb_false_r in H.
Qed.

Lemma some_char_trimEnd (s : string) :
  Spec.some_char Spec.keeps s = true ->
  Spec.some_char Spec.keeps (Js.trimEnd s) = true.
Proof.
  induction s as [|c r IH]; simpl; [auto|].
  intros H. destruct (Js.is_space c) eqn:E; simpl.
  - unfold Spec.keeps, Spec.filename_safe in H. rewrite E in H.
    rewrite andb_false_r in H. simpl in H. specialize (IH H).
    destruct (Js.trimEnd r); [discriminate|].
    simpl. simpl in IH. rewrite IH. apply orb_true_r.
  - apply orb_true_iff in H as [H|H]; [now rewrite H|].
    rewrite (IH H). apply orb_true_r.
Qed.

Lemma keeps_not_unsafe (c : ascii) :
  Spec.keeps c = true -> Js.is_unsafe c = false.
Proof.
  unfold Spec.keeps, Spec.filename_safe.
  destruct (Js.is_unsafe c); [discriminate | reflexivity].
Qed.

Lemma keeps_not_space (c : ascii) :
  Spec.keeps c = true -> Js.is_space c = false.
Proof.
  unfold Spec.keeps, Spec.filename_safe.
  destruct (Js.is_space c); [|reflexivity].
  now rewrite andb_false_r.
Qed.

Lemma keeps_not_dash (c : ascii) :
  Spec.keeps c = true -> Ascii.eqb c "-" = false.
Proof.
  unfold Spec.keeps, Spec.is_dash.
  destruct (Ascii.eqb c "-"); [|reflexivity].
  now rewrite andb_false_r.
Qed.

Lemma dash_not_kept : Spec.keeps "-" = false.
Proof. reflexivity. Qed.

Lemma some_char_replace_unsafe (s : string) :
  Spec.some_char Spec.keeps s = true ->
  Spec.some_char Spec.keeps (Js.replace_unsafe s) = true.
Proof.
  induction s as [|c r IH]; simpl; [auto|].
  intros H. apply orb_true_iff in H as [H|H].
  - rewrite (keeps_not_unsafe _ H), H. reflexivity.
  - rewrite (IH H). apply orb_true_r.
Qed.

Lemma some_char_ws_runs_to_dash (s : string) :
  forall b, Spec.some_char Spec.keeps s = true ->
            Spec.some_char Spec.keeps (Js.ws_runs_to_dash_from b s) = true.
Proof.
  induction s as [|c r IH]; intros b; simpl; [auto|].
  intros H. apply orb_true_iff in H as [H|H].
  - rewrite (keeps_not_space _ H). simpl. now rewrite H.
  - destruct (Js.is_space c); [destruct b|]; simpl; rewrite ?(IH _ H);
      auto using orb_true_r.
Qed.

Lemma some_char_collapse_ws (s : string) :
  forall b, Spec.some_char Spec.keeps s = true ->
            Spec.some_char Spec.keeps (Js.collapse_ws_from b s) = true.
Proof.
  induction s as [|c r IH]; intros b; simpl; [auto|].
  intros H. apply orb_true_iff in H as [H|H].
  - rewrite (keeps_not_space _ H). simpl. now rewrite H.
  - destruct (Js.is_space c); [destruct b|]; simpl; rewrite ?(IH _ H);
      auto using orb_true_r.
Qed.

Lemma some_char_ws_each_to_dash (s : string) :
  Spec.some_char Spec.keeps s = true ->
  Spec.some_char Spec.keeps (Js.ws_each_to_dash s) = true.
Proof.
  induction s as [|c r IH]; simpl; [auto|].
  intros H. apply orb_true_iff in H as [H|H].
  - rewrite (keeps_not_space _ H), H. reflexivity.
  - rewrite (IH H). apply orb_true_r.
Qed.

Lemma some_char_collapse_dashes (s : string) :
  forall b, Spec.some_char Spec.keeps s = true ->
            Spec.some_char Spec.keeps (Js.collapse_dashes_from b s) = true.
Proof.
  induction s as [|c r IH]; intros b; simpl; [auto|].
  intros H. apply orb_true_iff in H as [H|H].
  - rewrite (keeps_not_dash _ H). simpl. now rewrite H.
  - destruct (Ascii.eqb c "-"); [destruct b|]; simpl; rewrite ?(IH _ H);
      auto using orb_true_r.
Qed.

Lemma some_char_drop_last_dash (s : string) :
  Spec.some_char Spec.keeps s = true ->
  Spec.some_char Spec.keeps (Js.drop_last_dash s) = true.
Proof.
  induction s as [|c r IH]; simpl; [auto|].
  intros H. destruct (Ascii.eqb c "-") eqn:E; simpl.
  - apply Ascii.eqb_eq in E. subst c. rewrite dash_not_kept in H.
    simpl in H. destruct r as [|d r]; [discriminate|].
    cbn [Js.is_empty]. cbn [Spec.some_char]. rewrite dash_not_kept.
    now apply IH.
  - apply orb_true_iff in H as [H|H]; [now rewrite H|].
    rewrite (IH H). apply orb_true_r.
Qed.

Lemma some_char_strip_edge_dashes (s : string) :
  Spec.some_char Spec.keeps s = true ->
  Spec.some_char Spec.keeps (Js.strip_edge_dashes s) = true.
Proof.
  rewrite strip_edge_dashes_unfold. destruct s as [|c r]; [auto|].
  intros H. destruct (Ascii.eqb c "-") eqn:E.
  - apply Ascii.eqb_eq in E. subst c. simpl in H.
    now apply some_char_drop_last_dash.
  - now apply some_char_drop_last_dash.
Qed.

Lemma some_char_take (n : nat) (s : string) :
  Spec.some_char Spec.keeps s = true -> Js.take (S n) s <> "".
Proof. destruct s; simpl; [discriminate|]. unfold Js.take. simpl. discriminate. Qed.


Lemma none_kept (s : string) :
  Spec.some_char Spec.keeps s = false ->
  Spec.all_chars (fun c => negb (Spec.keeps c)) s = true.
Proof.
  induction s as [|c r IH]; simpl; [auto|].
  intros H. apply orb_false_iff in H as [Hc Hr]. rewrite Hc. now apply IH.
Qed.

Lemma replace_unsafe_none_kept (s : string) :
  Spec.all_chars (fun c => negb (Spec.keeps c)) s = true ->
  Spec.all_chars Spec.dash_or_space (Js.replace_unsafe s) = true.
Proof.
  induction s as [|c r IH]; simpl; [auto|].
  intros H. apply andb_true_iff in H as [Hc Hr]. rewrite (IH Hr), andb_true_r.
  destruct (Js.is_unsafe c) eqn:E; [reflexivity|].
  unfold Spec.keeps, Spec.filename_safe in Hc. rewrite E in Hc.
  unfold Spec.dash_or_space. destruct (Js.is_space c), (Spec.is_dash c);
    try reflexivity; discriminate.
Qed.

Lemma ws_runs_to_dash_none_kept (s : string) :
  forall b, Spec.all_chars Spec.dash_or_space s = true ->
            Spec.all_chars Spec.is_dash (Js.ws_runs_to_dash_from b s) = true.
Proof.
  induction s as [|c r IH]; intros b; simpl; [auto|].
  intros H. apply andb_true_iff in H as [Hc Hr].
  destruct (Js.is_space c) eqn:E.
  - destruct b; simpl; now apply IH.
  - simpl. unfold Spec.dash_or_space in Hc. rewrite E, orb_false_r in Hc.
    rewrite Hc. now apply IH.
Qed.

Lemma collapse_ws_none_kept (s : string) :
  forall b, Spec.all_chars Spec.dash_or_space s = true ->
            Spec.all_chars Spec.dash_or_space (Js.collapse_ws_from b s) = true.
Proof.
  induction s as [|c r IH]; intros b; simpl; [auto|].
  intros H. apply andb_true_iff in H as [Hc Hr].
  destruct (Js.is_space c).
  - destruct b; simpl; now apply IH.
  - simpl. rewrite Hc. now apply IH.
Qed.

Lemma ws_each_to_dash_none_kept (s : string) :
  Spec.all_chars Spec.dash_or_space s = true ->
  Spec.all_chars Spec.is_dash (Js.ws_each_to_dash s) = true.
Proof.
  induction s as [|c r IH]; simpl; [auto|].
  intros H. apply andb_true_iff in H as [Hc Hr]. rewrite (IH Hr), andb_true_r.
  destruct (Js.is_space c) eqn:E; [reflexivity|].
  unfold Spec.dash_or_space in Hc. now rewrite E, orb_false_r in Hc.
Qed.

Lemma collapse_dashes_all_dash (s : string) :
  Spec.all_chars Spec.is_dash s = true ->
  forall b, Js.collapse_dashes_from b s
            = if b || Js.is_empty s then "" else "-".
Proof.
  induction s as [|c r IH]; intros H b; simpl.
  - now rewrite orb_true_r.
  - simpl in H. apply andb_true_iff in H as [Hc Hr].
    unfold Spec.is_dash in Hc. rewrite Hc.
    destruct b; simpl; rewrite (IH Hr); reflexivity.
Qed.

Lemma strip_all_dash (s : string) :
  Spec.all_chars Spec.is_dash s = true ->
  Js.strip_edge_dashes (Js.collapse_dashes s) = "".
Proof.
  intros H. unfold Js.collapse_dashes. rewrite (collapse_dashes_all_dash _ H).
  destruct s; reflexivity.
Qed.

Lemma ends_with_dash_short (n : nat) (s : string) :
  String.length (Js.take n s) < n -> Js.take n s = s.
Proof. rewrite length_take. intros H. apply take_all. lia. Qed.


(** The steps of [sanitizeFileName] before the cut. *)
Lemma sanitize_uncut (name : string) :
  let s := Js.strip_edge_dashes
             (Js.collapse_dashes
                (Js.ws_runs_to_dash (Js.replace_unsafe (Js.trim name)))) in
  Spec.all_chars Spec.filename_safe s = true
  /\ Spec.no_double_dash false s = true
  /\ Spec.starts_with_dash s = false
  /\ Spec.ends_with_dash s = false
  /\ (Spec.some_char Spec.keeps name = true ->
      Spec.some_char Spec.keeps s = true)
  /\ (Spec.some_char Spec.keeps name = false -> s = "").
Proof.
  intros s. subst s.
  pose proof (@strip_edge_dashes_edges
                (Js.collapse_dashes
                   (Js.ws_runs_to_dash (Js.replace_unsafe (Js.trim name))))
                (collapse_dashes_single _ false)) as (D & S & E).
  split; [|split; [exact D | split; [exact S | split; [exact E | split]]]].
  - apply all_chars_strip_edge_dashes, all_chars_collapse_dashes,
      ws_runs_to_dash_safe, replace_unsafe_clean.
  - intros K. apply some_char_strip_edge_dashes, some_char_collapse_dashes,
      some_char_ws_runs_to_dash, some_char_replace_unsafe.
    unfold Js.trim. now apply some_char_trimEnd, some_char_trimStart.
  - intros K. apply strip_all_dash, ws_runs_to_dash_none_kept,
      replace_unsafe_none_kept.
    unfold Js.trim. apply all_chars_trimEnd, all_chars_trimStart.
    now apply none_kept.
Qed.

(** X6. [sanitizeFileName] of the converter (the extractor holds the same
    function): the name it returns has at most a hundred code units, none
    of them refused or whitespace, no two dashes in a row and no dash in
    front; no dash ends it unless the cut at a hundred left one there,
    which happens; and it is empty exactly when the title holds nothing
    but dashes, whitespace and refused code units. *)
Theorem X6_file_name_is_clean :
  (forall name,
     let f := Converter.sanitizeFileName name in
     String.length f <= 100
     /\ Spec.all_chars Spec.filename_safe f = true
     /\ Spec.no_double_dash false f = true
     /\ Spec.starts_with_dash f = false
     /\ (String.length f < 100 -> Spec.ends_with_dash f = false)
     /\ (f = "" <-> Spec.some_char Spec.keeps name = false))
  /\ String.length (Converter.sanitizeFileName Spec.long_title) = 100
  /\ Spec.ends_with_dash (Converter.sanitizeFileName Spec.long_title) = true.
Proof.
  split; [|split; vm_compute; reflexivity].
  intros name f. subst f. unfold Converter.sanitizeFileName.
  pose proof (sanitize_uncut name) as (A & D & S & E & K & N).
  cbv zeta in A, D, S, E, K, N.
  set (s := Js.strip_edge_dashes _) in *.
  split; [rewrite length_take; lia|].
  split; [now apply all_chars_take|].
  split; [now apply take_single|].
  split; [now apply take_start|].
  split.
  - intros L. rewrite (@ends_with_dash_short 100 s L). exact E.
  - split.
    + intros F. destruct (Spec.some_char Spec.keeps name) eqn:Hk;
        [|reflexivity].
      exfalso. exact (@some_char_take 99 s (K eq_refl) F).
    + intros F. now rewrite (N F).
Qed.

(** X7. [generateFilename] of the background script: the name is the date
    part of the time stamp, a dash, a stem and [.md]; the stem is never
    empty, has at most sixty code units, none refused or whitespace, no
    two dashes in a row and no dash in front; it is [untitled] exactly
    when the title holds nothing but dashes, whitespace and refused code
    units. *)
Theorem X7_download_name (now title : string) :
  exists stem,
    Vanilla.generateFilename now title
    = Js.before_T now ++ "-" ++ stem ++ ".md"
    /\ stem <> ""
    /\ String.length stem <= 60
    /\ Spec.all_chars Spec.filename_safe stem = true
    /\ Spec.no_double_dash false stem = true
    /\ Spec.starts_with_dash stem = false
    /\ (Spec.some_char Spec.keeps title = false -> stem = "untitled")
    /\ (Spec.some_char Spec.keeps title = true ->
        String.prefix stem
          (Js.strip_edge_dashes
             (Js.collapse_dashes
                (Js.ws_each_to_dash
                   (Js.collapse_ws (Js.replace_unsafe (Js.trim title))))))
        = true).
Proof.
  unfold Vanilla.generateFilename. cbv zeta.
  set (w := Js.ws_each_to_dash _).
  pose proof (@strip_edge_dashes_edges (Js.collapse_dashes w)
                (collapse_dashes_single w false)) as (D & S & _).
  assert (A : Spec.all_chars Spec.filename_safe
                (Js.strip_edge_dashes (Js.collapse_dashes w)) = true).
  { apply all_chars_strip_edge_dashes, all_chars_collapse_dashes.
    subst w. apply ws_each_to_dash_safe, collapse_ws_clean,
      replace_unsafe_clean. }
  destruct (Spec.some_char Spec.keeps title) eqn:K.
  - assert (K' : Spec.some_char Spec.keeps
                   (Js.strip_edge_dashes (Js.collapse_dashes w)) = true).
    { apply some_char_strip_edge_dashes, some_char_collapse_dashes.
      subst w. apply some_char_ws_each_to_dash, some_char_collapse_ws,
        some_char_replace_unsafe.
      unfold Js.trim. now apply some_char_trimEnd, some_char_trimStart. }
    pose proof (@some_char_take 59 _ K') as NE.
    exists (Js.take 60 (Js.strip_edge_dashes (Js.collapse_dashes w))).
    split.
    { unfold Js.or_else, Js.truthy.
      destruct (Js.take 60 _); [contradiction | reflexivity]. }
    split; [exact NE|].
    split; [rewrite length_take; lia|].
    split; [now apply all_chars_take|].
    split; [now apply take_single|].
    split; [now apply take_start|].
    split; [discriminate|].
    intros _. apply take_prefix.
  - assert (Z : Js.strip_edge_dashes (Js.collapse_dashes w) = "").
    { apply strip_all_dash. subst w.
      apply ws_each_to_dash_none_kept, collapse_ws_none_kept,
        replace_unsafe_none_kept.
      unfold Js.trim. apply all_chars_trimEnd, all_chars_trimStart.
      now apply none_kept. }
    exists "untitled". rewrite Z.
    repeat split; try reflexivity; try discriminate.
    simpl. lia.
Qed.

(* ================================================================== *)
(** * The clean-up passes of the converter *)
(* ================================================================== *)

Lemma collapse_newlines_from_keeps_text (s : string) :
  forall k, Spec.without_newlines (Js.collapse_newlines_from k s)
            = Spec.without_newlines s.
Proof.
  induction s as [|c r IH]; intros k; simpl; [reflexivity|].
  destruct (Ascii.eqb c Js.nl) eqn:E.
  - destruct (Nat.ltb k 2); simpl; [|apply IH].
    replace (Ascii.eqb Js.nl Js.nl) with true by reflexivity. apply IH.
  - simpl. rewrite E. now rewrite IH.
Qed.

Lemma collapse_newlines_from_length (s : string) :
  forall k, String.length (Js.collapse_newlines_from k s) <= String.length s.
Proof.
  induction s as [|c r IH]; intros k; simpl; [lia|].
  destruct (Ascii.eqb c Js.nl).
  - destruct (Nat.ltb k 2); simpl.
    + specialize (IH (S k)). lia.
    + specialize (IH k). lia.
  - simpl. specialize (IH 0). lia.
Qed.

(** X8. The blank-line pass of the converter,
    [replace(/\n{3,}/g, '\n\n')]: it drops line feeds and nothing else,
    its output has no run of three line feeds and is never longer than
    its input, and a second run changes nothing.  The pass that removes
    empty links runs after it and can bring such a run back. *)
Theorem X8_blank_line_pass :
  (forall s,
     Spec.without_newlines (Js.collapse_newlines s) = Spec.without_newlines s
     /\ Spec.has_blank_run (Js.collapse_newlines s) = false
     /\ String.length (Js.collapse_newlines s) <= String.length s
     /\ Js.collapse_newlines (Js.collapse_newlines s) = Js.collapse_newlines s)
  /\ (exists s,
        Spec.has_blank_run
          (Js.remove_empty_links (Js.collapse_newlines s)) = true).
Proof.
  split.
  - intros s. split; [apply collapse_newlines_from_keeps_text|].
    split; [apply collapse_newlines_spec|].
    split; [apply collapse_newlines_from_length|].
    apply collapse_newlines_spec. apply collapse_newlines_spec.
  - exists ("a" ++ Js.str Js.nl ++ Js.str Js.nl ++ "[](x)" ++ Js.str Js.nl
              ++ "b")%string.
    reflexivity.
Qed.

(** ** The fallback body *)

Lemma strip_tags_from_id (s : string) :
  (Spec.has_tag s = false -> Js.strip_tags_from None s = s)
  /\ (forall p, Spec.contains_gt s = false ->
                Js.strip_tags_from (Some p) s = p ++ s).
Proof.
  induction s as [|c r [IH1 IH2]]; simpl.
  - split; [reflexivity | intros p _; now rewrite append_nil_r].
  - split.
    + intros H. apply orb_false_iff in H as [Hc Hr].
      destruct (Ascii.eqb c "<") eqn:E.
      * simpl in Hc. rewrite (IH2 _ Hc). reflexivity.
      * now rewrite (IH1 Hr).
    + intros p H. apply orb_false_iff in H as [Hc Hr]. rewrite Hc.
      rewrite (IH2 _ Hr). now rewrite append_assoc.
Qed.

Lemma strip_tags_from_length (s : string) :
  String.length (Js.strip_tags_from None s) <= String.length s
  /\ (forall p, String.length (Js.strip_tags_from (Some p) s)
                <= String.length p + String.length s).
Proof.
  induction s as [|c r [IH1 IH2]]; simpl.
  - split; [lia | intros p; lia].
  - split.
    + destruct (Ascii.eqb c "<").
      * specialize (IH2 (Js.str c)). simpl in IH2. lia.
      * simpl. lia.
    + intros p. destruct (Ascii.eqb c ">"); [lia|].
      specialize (IH2 (p ++ Js.str c)). rewrite length_append in IH2.
      simpl in IH2. lia.
Qed.

Lemma tokens_collapse_ws (s : string) :
  forall b cur, (b = true -> cur = "") ->
    Spec.tokens_from cur (Js.collapse_ws_from b s) = Spec.tokens_from cur s.
Proof.
  induction s as [|c r IH]; intros b cur Hb; simpl; [reflexivity|].
  destruct (Js.is_space c) eqn:E.
  - destruct b.
    + rewrite (Hb eq_refl). simpl. now apply IH.
    + simpl. rewrite (IH true "" (fun _ => eq_refl)). reflexivity.
  - simpl. rewrite E. apply IH. discriminate.
Qed.

(** X9. The body the converter falls back to when [turndown] throws:
    stripping tags leaves content without a tag as it is and never makes
    it longer; the body has the words of the stripped content, in their
    order; its whitespace is single spaces between words only, with no
    line feed, so trimming or collapsing it again changes nothing. *)
Theorem X9_fallback_body :
  (forall s, Spec.has_tag s = false -> Js.strip_tags s = s)
  /\ (forall s, Js.strip_tags (Js.strip_tags s) = Js.strip_tags s)
  /\ (forall s, String.length (Js.strip_tags s) <= String.length s)
  /\ (forall data,
        let body := Converter.fallbackContent data in
        Spec.tokens body = Spec.tokens (Js.strip_tags (content data))
        /\ Extractor.countWords body
           = Extractor.countWords (Js.strip_tags (content data))
        /\ Spec.has_newline body = false
        /\ Spec.single_spaced false body = true
        /\ Js.trim body = body
        /\ Js.collapse_ws body = body).
Proof.
  assert (I : forall s, Spec.has_tag s = false -> Js.strip_tags s = s)
    by (intros s; apply strip_tags_from_id).
  split; [exact I|].
  split; [intros s; apply I, strip_tags_no_tag|].
  split; [intros s; apply strip_tags_from_length|].
  intros data body. subst body. unfold Converter.fallbackContent.
  set (t := Js.strip_tags (content data)).
  assert (T : Spec.tokens (Js.trim (Js.collapse_ws t)) = Spec.tokens t).
  { rewrite tokens_trim. unfold Spec.tokens, Js.collapse_ws.
    apply tokens_collapse_ws. discriminate. }
  assert (S : Spec.single_spaced false (Js.trim (Js.collapse_ws t)) = true).
  { unfold Js.trim. apply single_spaced_trimEnd.
    apply (single_spaced_trimStart _ false).
    apply collapse_ws_single_spaced. }
  split; [exact T|].
  split.
  { unfold Extractor.countWords. now rewrite !words_are_tokens, T. }
  split.
  { unfold Js.trim. apply trimEnd_no_newline, trimStart_no_newline,
      collapse_ws_no_newline. }
  split; [exact S|].
  split; [apply trim_idempotent|].
  unfold Js.collapse_ws. now apply single_spaced_collapse_ws.
Qed.

(* ================================================================== *)
(** * Addresses made absolute *)
(* ================================================================== *)

Lemma map_attrs_elem (f : string -> Dom.attrs -> Dom.attrs) (j : nat)
      (t : string) (a : Dom.attrs) (ch : list Dom.node) :
  Dom.map_attrs f (Dom.Elem j t a ch)
  = Dom.Elem j t (f t a) (map (Dom.map_attrs f) ch).
Proof.
  simpl. apply f_equal.
  generalize ch as l. induction l as [|x r IH]; simpl; [reflexivity|].
  now rewrite IH.
Qed.

(** The text of the children, one after the other. *)
Lemma textContent_elem (j : nat) (t : string) (a : Dom.attrs)
      (ch : list Dom.node) :
  Dom.textContent (Dom.Elem j t a ch)
  = String.concat "" (map Dom.textContent ch).
Proof.
  simpl. generalize ch as l. induction l as [|x r IH]; [reflexivity|].
  rewrite IH. destruct r as [|y r]; [|reflexivity].
  simpl. now rewrite append_nil_r.
Qed.

Lemma map_attrs_text (f : string -> Dom.attrs -> Dom.attrs) (n : Dom.node) :
  Dom.textContent (Dom.map_attrs f n) = Dom.textContent n.
Proof.
  induction n as [d|d|i t a ch IH] using Dom.node_ind; try reflexivity.
  rewrite map_attrs_elem, !textContent_elem. f_equal.
  rewrite map_map. induction IH as [|x r Hx _ IHr]; [reflexivity|].
  simpl. now rewrite Hx, IHr.
Qed.

Lemma map_attrs_ids (f : string -> Dom.attrs -> Dom.attrs) (n : Dom.node) :
  Dom.ids (Dom.map_attrs f n) = Dom.ids n.
Proof.
  induction n as [d|d|i t a ch IH] using Dom.node_ind; try reflexivity.
  rewrite map_attrs_elem, !ids_elem. f_equal. unfold Dom.ids_list.
  induction IH as [|x r Hx _ IHr]; [reflexivity|].
  simpl. now rewrite Hx, IHr.
Qed.

Lemma map_attrs_compose (f g : string -> Dom.attrs -> Dom.attrs)
      (n : Dom.node) :
  Dom.map_attrs g (Dom.map_attrs f n)
  = Dom.map_attrs (fun t a => g t (f t a)) n.
Proof.
  induction n as [d|d|i t a ch IH] using Dom.node_ind; try reflexivity.
  rewrite !map_attrs_elem. f_equal. rewrite map_map.
  induction IH as [|x r Hx _ IHr]; [reflexivity|].
  simpl. now rewrite Hx, IHr.
Qed.

Lemma map_attrs_ext (f g : string -> Dom.attrs -> Dom.attrs) (n : Dom.node) :
  (forall t a, f t a = g t a) -> Dom.map_attrs f n = Dom.map_attrs g n.
Proof.
  intros E.
  induction n as [d|d|i t a ch IH] using Dom.node_ind; try reflexivity.
  rewrite !map_attrs_elem, E. f_equal.
  induction IH as [|x r Hx _ IHr]; [reflexivity|].
  simpl. now rewrite Hx, IHr.
Qed.

Lemma map_attrs_id (f : string -> Dom.attrs -> Dom.attrs) (n : Dom.node) :
  (forall t a, f t a = a) -> Dom.map_attrs f n = n.
Proof.
  intros E.
  induction n as [d|d|i t a ch IH] using Dom.node_ind; try reflexivity.
  rewrite map_attrs_elem, E. f_equal. now apply map_id_on.
Qed.

(** Setting an address that is there changes its value only. *)
Lemma blank_update_attr (k v : string) (a : Dom.attrs) (t : string) :
  k = "href" \/ k = "src" ->
  Dom.lookup_attr k a <> None ->
  Spec.blank_addresses t (Dom.update_attr k v a) = Spec.blank_addresses t a.
Proof.
  intros Hk. induction a as [|[k' v'] r IH]; simpl; [congruence|].
  destruct (String.eqb k k') eqn:E.
  - intros _. apply String.eqb_eq in E. subst k'. simpl.
    destruct Hk; subst k; reflexivity.
  - intros H. simpl. now rewrite (IH H).
Qed.

Section Addresses.
Context {host : Host}.

Lemma blank_absolutize_link (baseUrl t : string) (a : Dom.attrs) :
  Spec.blank_addresses t (Converter.absolutize_link baseUrl t a)
  = Spec.blank_addresses t a.
Proof.
  unfold Converter.absolutize_link.
  destruct (String.eqb t "a"); [|reflexivity].
  destruct (Dom.lookup_attr "href" a) as [href|] eqn:E; [|reflexivity].
  destruct (_ && _); [|reflexivity].
  destruct (URL_href href baseUrl); [|reflexivity].
  apply blank_update_attr; [now left | congruence].
Qed.

Lemma blank_absolutize_image (baseUrl t : string) (a : Dom.attrs) :
  Spec.blank_addresses t (Converter.absolutize_image baseUrl t a)
  = Spec.blank_addresses t a.
Proof.
  unfold Converter.absolutize_image.
  destruct (String.eqb t "img"); [|reflexivity].
  destruct (Dom.lookup_attr "src" a) as [src|] eqn:E; [|reflexivity].
  destruct (_ && _); [|reflexivity].
  destruct (URL_href src baseUrl); [|reflexivity].
  apply blank_update_attr; [now right | congruence].
Qed.

(** X10. [processUrls] serialises the body of the parsed content after a
    change that touches nothing but the values of [href] and [src]
    attributes: the text, the elements and their identities, the names
    and the order of all attributes and every other value stay.  A link
    whose address is empty or starts with [http], [mailto:] or [#] keeps
    it, and when the [URL] constructor throws on every address the body
    is serialised as it was parsed. *)
Theorem X10_only_addresses_change (html baseUrl : string) :
  let body := doc_body (parseFromString html) in
  exists body',
    Converter.processUrls html baseUrl = innerHTML body'
    /\ Dom.textContent body' = Dom.textContent body
    /\ Dom.ids body' = Dom.ids body
    /\ Dom.map_attrs Spec.blank_addresses body'
       = Dom.map_attrs Spec.blank_addresses body
    /\ (forall t a u,
          Dom.lookup_attr "href" a = Some u ->
          Js.is_empty u = true \/ Js.startsWith "http" u = true
          \/ Js.startsWith "mailto:" u = true \/ Js.startsWith "#" u = true ->
          Converter.absolutize_link baseUrl t a = a)
    /\ ((forall u, URL_href u baseUrl = Throw) -> body' = body).
Proof.
  intros body. eexists. split; [reflexivity|].
  split; [now rewrite !map_attrs_text|].
  split; [now rewrite !map_attrs_ids|].
  split.
  { rewrite !map_attrs_compose. apply map_attrs_ext. intros t a.
    now rewrite blank_absolutize_image, blank_absolutize_link. }
  split.
  { intros t a u E Hu. unfold Converter.absolutize_link. rewrite E.
    destruct (String.eqb t "a"); [|reflexivity].
    unfold Js.truthy.
    destruct Hu as [Hu|[Hu|[Hu|Hu]]]; rewrite Hu; simpl;
      rewrite ?andb_false_r; reflexivity. }
  intros Hthrow.
  rewrite (map_attrs_id (Converter.absolutize_link baseUrl)).
  - apply map_attrs_id. intros t a. unfold Converter.absolutize_image.
    destruct (String.eqb t "img"); [|reflexivity].
    destruct (Dom.lookup_attr "src" a); [|reflexivity].
    destruct (_ && _); [|reflexivity]. now rewrite Hthrow.
  - intros t a. unfold Converter.absolutize_link.
    destruct (String.eqb t "a"); [|reflexivity].
    destruct (Dom.lookup_attr "href" a); [|reflexivity].
    destruct (_ && _); [|reflexivity]. now rewrite Hthrow.
Qed.

End Addresses.

(* ================================================================== *)
(** * Description and author *)
(* ================================================================== *)

Section DescriptionAndAuthor.
Context {host : Host}.

Lemma candidate_text_trimmed (e : Dom.node) (t : string) :
  Vanilla.candidate_text e = Ok t -> Js.trim t = t.
Proof.
  unfold Vanilla.candidate_text.
  destruct (Vanilla.content_of e); intros E; try discriminate;
    injection E as <-; apply trim_idempotent.
Qed.

(** What the loop returns was accepted, and is trimmed. *)
Lemma first_accepted_sound (accept : string -> bool) (root : Dom.node)
      (sels : list Dom.selector) (t : string) :
  Vanilla.first_accepted accept root sels = Ok (Some t) ->
  accept t = true /\ Js.trim t = t.
Proof.
  induction sels as [|sel rest IH]; simpl; [discriminate|].
  destruct (hd_error (Dom.select_from sel [] root)) as [e|]; [|exact IH].
  unfold rbind. destruct (Vanilla.candidate_text e) as [c|] eqn:Ec;
    [|discriminate].
  destruct (accept c) eqn:Ea; [|exact IH].
  intros E. injection E as <-. split; [exact Ea|].
  exact (candidate_text_trimmed e Ec).
Qed.

End DescriptionAndAuthor.

(** X11. The metadata the content script reads from the page: a title
    is never empty; a description is trimmed and either empty or longer
    than 10 and shorter than 300 code units; an author is trimmed and
    either empty or longer than 2 and shorter than 100 code units.
    When no first match of one of their selectors is a [template] or
    a [form] element the three functions return: the description and
    the author
    are the trimmed content-or-text of the first match of the first
    selector for which that text has an accepted length, and empty
    when there is none. *)
Theorem X11_metadata_bounds (host : Host) (w : Store.World) :
  (forall t, Vanilla.getTitle w = Ok t -> t <> "")
  /\ (forall d, Vanilla.getDescription w = Ok d ->
        Js.trim d = d
        /\ (d = "" \/ 10 < String.length d < 300))
  /\ (forall a, Vanilla.getAuthor w = Ok a ->
        Js.trim a = a
        /\ (a = "" \/ 2 < String.length a < 100))
  /\ (Spec.reads_no_object (Store.live w)
        (Vanilla.title_selectors ++ Vanilla.description_selectors
           ++ Vanilla.author_selectors)%list ->
      (exists t, Vanilla.getTitle w = Ok t)
      /\ Vanilla.getDescription w
         = Ok (match Spec.first_some
                       (map (Spec.candidate (Spec.between 10 300)
                               (Store.live w))
                            Vanilla.description_selectors) with
               | Some t => t
               | None => ""
               end)
      /\ Vanilla.getAuthor w
         = Ok (match Spec.first_some
                       (map (Spec.candidate (Spec.between 2 100)
                               (Store.live w))
                            Vanilla.author_selectors) with
               | Some t => t
               | None => ""
               end)).
Proof.
  split; [|split; [|split]].
  - intros t. unfold Vanilla.getTitle, rbind.
    destruct (Vanilla.first_accepted _ _ _) as [[c|]|] eqn:E;
      try discriminate; intros R; injection R as <-.
    + apply first_accepted_sound in E as [A _].
      unfold Vanilla.title_ok in A. destruct c; [discriminate|].
      discriminate.
    + unfold Js.or_else. destruct (Store.w_title w); discriminate.
  - intros d. unfold Vanilla.getDescription, rbind.
    destruct (Vanilla.first_accepted _ _ _) as [[c|]|] eqn:E;
      try discriminate; intros R; injection R as <-.
    + apply first_accepted_sound in E as [A T]. split; [exact T|].
      right. unfold Vanilla.description_ok in A.
      apply andb_true_iff in A as [A A3].
      apply andb_true_iff in A as [_ A2].
      apply Nat.ltb_lt in A2, A3. lia.
    + split; [reflexivity | now left].
  - intros a. unfold Vanilla.getAuthor, rbind.
    destruct (Vanilla.first_accepted _ _ _) as [[c|]|] eqn:E;
      try discriminate; intros R; injection R as <-.
    + apply first_accepted_sound in E as [A T]. split; [exact T|].
      right. unfold Vanilla.author_ok in A.
      apply andb_true_iff in A as [A A3].
      apply andb_true_iff in A as [_ A2].
      apply Nat.ltb_lt in A2, A3. lia.
    + split; [reflexivity | now left].
  - intros Hsafe.
    assert (S : forall sels,
               incl sels (Vanilla.title_selectors
                            ++ Vanilla.description_selectors
                            ++ Vanilla.author_selectors)%list ->
               Spec.reads_no_object (Store.live w) sels)
      by (intros sels I sel e Hin; apply Hsafe, I, Hin).
    unfold Vanilla.getTitle, Vanilla.getDescription, Vanilla.getAuthor.
    rewrite !first_accepted_search
      by (apply S; intros x Hx; rewrite !in_app_iff; auto).
    rewrite (@candidate_ext Vanilla.description_ok (Spec.between 10 300)
               (Store.live w) _ description_ok_length).
    rewrite (@candidate_ext Vanilla.author_ok (Spec.between 2 100)
               (Store.live w) _ author_ok_length).
    split; [eexists; reflexivity|]. split; reflexivity.
Qed.

(** A form whose class makes it the first match for the author and
    that owns a control named [content]: the property read is that
    control, and the search throws. *)
Lemma getAuthor_throws_on_form :
  @Vanilla.getAuthor TestDoubles.host
    (Store.with_trees TestDoubles.banner_world
       (Dom.Elem 0 "html" []
          [ Dom.Elem 1 "body" []
              [ Dom.Elem 2 "form" [("class", "author")]
                  [ Dom.Elem 3 "input" [("name", "content")] [] ] ] ])
       [] 4)
  = Throw.
Proof. reflexivity. Qed.

(** The value of [rel] is compared without regard to case. *)
Lemma getAuthor_rel_any_case :
  @Vanilla.getAuthor TestDoubles.host
    (Store.with_trees TestDoubles.banner_world
       (Dom.Elem 0 "html" []
          [ Dom.Elem 1 "body" []
              [ Dom.Elem 2 "a" [("rel", "Author")] [Dom.Text "Jane Doe"] ] ])
       [] 3)
  = Ok "Jane Doe".
Proof. reflexivity. Qed.

(** The author the extractor finds: the first candidate. *)
Lemma extractAuthor_from_search (p : page) (sels : list Dom.selector) :
  Extractor.extractAuthor_from p sels
  = match Spec.first_some (map (Spec.author_candidate p) sels) with
    | Some t => t
    | None => ""
    end.
Proof.
  induction sels as [|sel rest IH]; simpl; [reflexivity|].
  unfold Spec.author_candidate at 1.
  destruct (page_querySelector sel p) as [e|]; [|exact IH].
  assert (E : match Dom.getAttribute "content" e with
              | Some v => Js.or_else v (Dom.textContent e)
              | None => Dom.textContent e
              end
              = match Dom.getAttribute "content" e with
                | Some v => if Js.is_empty v then Dom.textContent e else v
                | None => Dom.textContent e
                end).
  { destruct (Dom.getAttribute "content" e) as [[|c v]|]; reflexivity. }
  rewrite E. fold (Spec.attr_or_text e). unfold Js.truthy.
  destruct (Js.is_empty (Spec.attr_or_text e)); [exact IH | reflexivity].
Qed.

Lemma first_author_trimmed (p : page) (sels : list Dom.selector) :
  forall t, Spec.first_some (map (Spec.author_candidate p) sels) = Some t ->
            Js.trim t = t /\ t <> "".
Proof.
  induction sels as [|sel rest IH]; simpl; [discriminate|].
  unfold Spec.author_candidate at 1.
  destruct (page_querySelector sel p) as [e|]; [|exact IH].
  destruct (Js.is_empty (Spec.attr_or_text e)) eqn:E; [exact IH|].
  intros t R. injection R as <-. split.
  - apply trim_idempotent.
  - intros Z. rewrite Z in E. discriminate.
Qed.

(** X12. The author and the description of the extractor.  The author
    is found over the seven author selectors in their order: for each,
    the [content] attribute of its first match in the page when that is
    not empty, the text of that element otherwise, trimmed; the first
    such text that is not empty is the author, and the author is empty
    when there is none.  The description is the [content] of the first
    of the three description metadata that is not empty, and empty
    exactly when all three are; it is not trimmed. *)
Theorem X12_author_and_description (p : page) :
  let a := Extractor.extractAuthor p in
  let m := Extractor.extractMetaContent p in
  a = match Spec.first_some
              (map (Spec.author_candidate p) Extractor.author_selectors) with
      | Some t => t
      | None => ""
      end
  /\ Js.trim a = a
  /\ (a <> "" ->
      exists sel e,
        In sel Extractor.author_selectors
        /\ page_querySelector sel p = Some e
        /\ a = Spec.attr_or_text e)
  /\ Extractor.extractDescription p
     = match Spec.first_some
               (map (fun n => if Js.truthy (m n) then Some (m n) else None)
                    ["description"; "og:description"; "twitter:description"])
       with
       | Some v => v
       | None => ""
       end
  /\ (Extractor.extractDescription p = ""
      <-> m "description" = "" /\ m "og:description" = ""
          /\ m "twitter:description" = "").
Proof.
  intros a m.
  assert (A : a = match Spec.first_some
                          (map (Spec.author_candidate p)
                               Extractor.author_selectors) with
                  | Some t => t
                  | None => ""
                  end) by apply extractAuthor_from_search.
  split; [exact A|].
  split.
  { rewrite A. destruct (Spec.first_some _) as [t|] eqn:F; [|reflexivity].
    now apply first_author_trimmed in F. }
  split.
  { rewrite A. clear A. generalize Extractor.author_selectors as sels.
    induction sels as [|sel rest IH]; simpl; [congruence|].
    destruct (Spec.author_candidate p sel) as [t|] eqn:C.
    - intros _. unfold Spec.author_candidate in C.
      destruct (page_querySelector sel p) as [e|] eqn:Q; [|discriminate].
      destruct (Js.is_empty (Spec.attr_or_text e)); [discriminate|].
      injection C as <-. exists sel, e. split; [now left|]. now split.
    - intros Hne. destruct (IH Hne) as (s' & e' & Hin & He & Ha).
      exists s', e'. split; [now right|]. now split. }
  unfold Extractor.extractDescription, Js.or_else. fold m. simpl.
  destruct (m "description") as [|c1 r1]; simpl;
    [|split; [reflexivity | split; [discriminate | intros (E & _); discriminate]]].
  destruct (m "og:description") as [|c2 r2]; simpl;
    [|split; [reflexivity | split; [discriminate | intros (_ & E & _); discriminate]]].
  destruct (m "twitter:description") as [|c3 r3]; simpl;
    [|split; [reflexivity | split; [discriminate | intros (_ & _ & E); discriminate]]].
  split; [reflexivity | tauto].
Qed.

(** The value of [rel] is compared without regard to case here too. *)
Lemma extractAuthor_rel_any_case :
  Extractor.extractAuthor
    {| page_title := "";
       page_root :=
         Dom.Elem 0 "html" []
           [ Dom.Elem 1 "body" []
               [ Dom.Elem 2 "a" [("rel", "Author")]
                   [Dom.Text "Jane Doe"] ] ];
       location_href := "https://ex.com/";
       now_iso := "2024-01-01T00:00:00.000Z" |}
  = "Jane Doe".
Proof. reflexivity. Qed.

(* ================================================================== *)
(** * Deep copies *)
(* ================================================================== *)

Lemma shape_elem (i : nat) (t : string) (a : Dom.attrs)
      (ch : list Dom.node) :
  Spec.shape (Dom.Elem i t a ch) = Dom.Elem 0 t a (map Spec.shape ch).
Proof.
  simpl. apply f_equal.
  generalize ch as l. induction l as [|x r IH]; simpl; [reflexivity|].
  now rewrite IH.
Qed.

Lemma ids_list_cons (x : Dom.node) (r : list Dom.node) :
  Dom.ids_list (x :: r) = (Dom.ids x ++ Dom.ids_list r)%list.
Proof. reflexivity. Qed.

(** A copy has the shape of the original, and its elements carry the
    next identities in document order. *)
Lemma relabel_copy (n : Dom.node) :
  forall nx,
    Spec.shape (fst (Dom.relabel n nx)) = Spec.shape n
    /\ Dom.ids (fst (Dom.relabel n nx)) = seq nx (List.length (Dom.ids n))
    /\ snd (Dom.relabel n nx) = nx + List.length (Dom.ids n).
Proof.
  induction n as [d|d|i t a ch IH] using Dom.node_ind; intros nx;
    try (simpl; repeat split; lia).
  rewrite relabel_elem.
  assert (L : forall k,
             map Spec.shape (fst (Dom.relabel_list ch k)) = map Spec.shape ch
             /\ Dom.ids_list (fst (Dom.relabel_list ch k))
                = seq k (List.length (Dom.ids_list ch))
             /\ snd (Dom.relabel_list ch k)
                = k + List.length (Dom.ids_list ch)).
  { induction IH as [|x r Hx _ IHr]; intros k.
    - simpl. repeat split. lia.
    - cbn [Dom.relabel_list]. destruct (Hx k) as (S1 & I1 & K1).
      destruct (Dom.relabel x k) as [x' k1]. cbn [fst snd] in S1, I1, K1.
      destruct (IHr k1) as (S2 & I2 & K2).
      destruct (Dom.relabel_list r k1) as [r' k2]. cbn [fst snd] in S2, I2, K2.
      cbn [fst snd map]. rewrite S1, S2, !ids_list_cons, I1, I2.
      rewrite length_app, seq_app. subst k1 k2. repeat split. lia. }
  destruct (L (S nx)) as (S1 & I1 & K1).
  destruct (Dom.relabel_list ch (S nx)) as [ch' k]. simpl in S1, I1, K1.
  simpl fst. simpl snd. rewrite !shape_elem, !ids_elem, S1, I1.
  simpl. repeat split. lia.
Qed.

Lemma deref_elem (i : nat) (w : Store.World) (e : Dom.node) :
  Store.deref i w = Some e -> In i (Dom.ids e).
Proof.
  unfold Store.deref.
  destruct (Dom.find_elem i (Store.live w)) eqn:E.
  - intros R. injection R as <-. now apply find_elem_has_id in E.
  - intros R. apply find_in_list_ids in R as (x & _ & R).
    now apply find_elem_has_id in R.
Qed.

(** X13. [cloneNode(true)] on an element a reference denotes: the
    document and the detached trees stay, and one detached tree is
    added, with the tags, attributes and text of the original in their
    order, whose elements carry identities no element had before, each
    once, the reference returned denoting its root.  On a reference
    that denotes nothing the call throws and changes nothing. *)
Theorem X13_clone_is_a_fresh_copy (i : nat) (w : Store.World) :
  match Store.deref i w with
  | None => Store.cloneNode i w = (Throw, w)
  | Some e =>
      exists e',
        Store.cloneNode i w
        = (Ok (Store.next_id w),
           Store.with_trees w (Store.live w) (e' :: Store.detached w)
             (Store.next_id w + List.length (Dom.ids e)))
        /\ Spec.shape e' = Spec.shape e
        /\ Dom.ids e' = seq (Store.next_id w) (List.length (Dom.ids e))
        /\ NoDup (Dom.ids e')
        /\ Dom.has_id (Store.next_id w) e' = true
        /\ Dom.textContent e' = Dom.textContent e
  end.
Proof.
  unfold Store.cloneNode.
  destruct (Store.deref i w) as [e|] eqn:D; [|reflexivity].
  destruct (relabel_copy e (Store.next_id w)) as (S1 & I1 & K1).
  destruct (Dom.relabel e (Store.next_id w)) as [e' k].
  simpl in S1, I1, K1. exists e'. subst k.
  split; [reflexivity|]. split; [exact S1|]. split; [exact I1|].
  split; [rewrite I1; apply seq_NoDup|].
  split.
  - apply deref_elem in D.
    destruct e as [d|d|j t a ch]; try contradiction.
    destruct e' as [d|d|j' t' a' ch']; try discriminate.
    rewrite !ids_elem in I1. simpl in I1. injection I1 as -> _.
    simpl. apply Nat.eqb_refl.
  - clear -S1. revert e' S1.
    induction e as [d|d|j t a ch IH] using Dom.node_ind; intros e' S1.
    + destruct e' as [d'|d'|j' t' a' ch']; simpl in S1; congruence.
    + destruct e' as [d'|d'|j' t' a' ch']; simpl in S1; congruence.
    + destruct e' as [d'|d'|j' t' a' ch']; try (simpl in S1; discriminate).
      rewrite !shape_elem in S1. injection S1 as _ _ S1.
      rewrite !textContent_elem. f_equal.
      revert ch' S1. induction IH as [|x r Hx _ IHr]; intros [|x' r'] S1;
        simpl in S1; try discriminate; [reflexivity|].
      injection S1 as Sx Sr. simpl. now rewrite (Hx _ Sx), (IHr _ Sr).
Qed.

(* ================================================================== *)
(** * The language of a code block *)
(* ================================================================== *)

Lemma after_prefix_spec (p : string) :
  forall s rest, Js.after_prefix p s = Some rest <-> s = p ++ rest.
Proof.
  induction p as [|a p IH]; intros s rest; simpl.
  - split; [intros E; now injection E | intros ->; reflexivity].
  - destruct s as [|b s]; [split; discriminate|].
    destruct (Ascii.eqb a b) eqn:E.
    + apply Ascii.eqb_eq in E. subst b. rewrite IH.
      split; [intros ->; reflexivity | intros R; now injection R].
    + apply Ascii.eqb_neq in E. split; [discriminate|].
      intros R. injection R as R _. congruence.
Qed.

Lemma word_prefix_split (s : string) :
  exists post,
    s = Js.word_prefix s ++ post
    /\ Spec.all_chars Js.is_word (Js.word_prefix s) = true
    /\ Js.word_prefix post = "".
Proof.
  induction s as [|c r (post & E & A & P)]; simpl.
  - exists "". repeat split.
  - destruct (Js.is_word c) eqn:W.
    + exists post. simpl. rewrite W, A. split; [now rewrite <- E | now split].
    + exists (String c r). simpl. rewrite W. repeat split.
Qed.

Lemma match_language_unfold (className : string) :
  Js.match_language className
  = let next := match className with
                | EmptyString => None
                | String _ r => Js.match_language r
                end in
    match Js.after_prefix "language-" className with
    | Some rest =>
        if Js.is_empty (Js.word_prefix rest) then next
        else Some (Js.word_prefix rest)
    | None => next
    end.
Proof. destruct className; reflexivity. Qed.

(** The group of the leftmost match of [language-] followed by word
    characters, with all the word characters that follow. *)
Lemma match_language_leftmost (className : string) :
  match Js.match_language className with
  | Some l =>
      exists pre post,
        className = pre ++ "language-" ++ l ++ post
        /\ l <> ""
        /\ Spec.all_chars Js.is_word l = true
        /\ Js.word_prefix post = ""
        /\ (forall pre' rest,
              className = pre' ++ "language-" ++ rest ->
              Js.word_prefix rest <> "" ->
              String.length pre <= String.length pre')
  | None =>
      forall pre rest,
        className = pre ++ "language-" ++ rest -> Js.word_prefix rest = ""
  end.
Proof.
  induction className as [|c r IH]; rewrite match_language_unfold; cbv zeta.
  - simpl. intros [|x pre] rest E; discriminate.
  - destruct (Js.after_prefix "language-" (String c r)) as [rest|] eqn:A.
    + apply after_prefix_spec in A.
      destruct (Js.is_empty (Js.word_prefix rest)) eqn:W.
      * apply is_empty_true in W.
        destruct (Js.match_language r) as [l|].
        -- destruct IH as (pre & post & E & Hl & Hw & Hp & Hmin).
           exists (String c pre), post.
           split; [rewrite E; reflexivity|].
           split; [exact Hl|]. split; [exact Hw|]. split; [exact Hp|].
           intros [|x pre'] rest' E' Hne.
           ++ exfalso. apply Hne.
              assert (R : Some rest = Some rest').
              { rewrite <- (proj2 (after_prefix_spec "language-" _ rest) A).
                now apply after_prefix_spec. }
              injection R as <-. exact W.
           ++ simpl in E'. injection E' as _ E'.
              specialize (Hmin _ _ E' Hne). simpl. lia.
        -- intros [|x pre] rest' E'.
           ++ assert (R : Some rest = Some rest').
              { rewrite <- (proj2 (after_prefix_spec "language-" _ rest) A).
                now apply after_prefix_spec. }
              injection R as <-. exact W.
           ++ simpl in E'. injection E' as _ E'. exact (IH _ _ E').
      * destruct (word_prefix_split rest) as (post & E & Hw & Hp).
        exists EmptyString, post.
        split; [rewrite A; cbn [append]; do 9 f_equal; exact E|].
        split; [intros Z; rewrite Z in W; discriminate|].
        split; [exact Hw|]. split; [exact Hp|].
        intros pre' rest' _ _. simpl. lia.
    + assert (N : forall rest, String c r <> "language-" ++ rest).
      { intros rest E. apply after_prefix_spec in E. congruence. }
      destruct (Js.match_language r) as [l|].
      * destruct IH as (pre & post & E & Hl & Hw & Hp & Hmin).
        exists (String c pre), post.
        split; [rewrite E; reflexivity|].
        split; [exact Hl|]. split; [exact Hw|]. split; [exact Hp|].
        intros [|x pre'] rest' E' Hne.
        -- exfalso. exact (N _ E').
        -- simpl in E'. injection E' as _ E'.
           specialize (Hmin _ _ E' Hne). simpl. lia.
      * intros [|x pre] rest' E'.
        -- exfalso. exact (N _ E').
        -- simpl in E'. injection E' as _ E'. exact (IH _ _ E').
Qed.

(** X14. The [preformattedCode] rule.  A [pre] without a [code] element
    below keeps what turndown made of it; otherwise the block is a line
    feed, a fence with the language, the text of the first [code]
    element and a closing fence.  When the class name of that element
    holds [language-] followed by a word character, the language is the
    longest run of word characters after the leftmost such place: it is
    not empty, holds word characters only (no backquote, no
    whitespace), and no word character follows it.  Otherwise there is
    no language, and the fence is opened bare. *)
Theorem X14_language_of_code (content : string) (n : Dom.node) :
  match hd_error (Dom.querySelectorAll [[[Dom.STag "code"]]] n) with
  | None => Converter.code_replacement content n = content
  | Some codeElement =>
      let className :=
        match Dom.getAttribute "class" codeElement with
        | Some v => v
        | None => ""
        end in
      exists language,
        Converter.code_replacement content n
        = Js.str Js.nl ++ "```" ++ language ++ Js.str Js.nl
            ++ Dom.textContent codeElement ++ Js.str Js.nl ++ "```"
            ++ Js.str Js.nl
        /\ Spec.all_chars Js.is_word language = true
        /\ (language = ""
            -> forall pre rest,
                 className = pre ++ "language-" ++ rest ->
                 Js.word_prefix rest = "")
        /\ (language <> ""
            -> exists pre post,
                 className = pre ++ "language-" ++ language ++ post
                 /\ Js.word_prefix post = ""
                 /\ (forall pre' rest,
                       className = pre' ++ "language-" ++ rest ->
                       Js.word_prefix rest <> "" ->
                       String.length pre <= String.length pre'))
  end.
Proof.
  unfold Converter.code_replacement.
  destruct (hd_error (Dom.querySelectorAll [[[Dom.STag "code"]]] n))
    as [c|]; [|reflexivity].
  cbv zeta. set (cn := match Dom.getAttribute "class" c with
                       | Some v => v
                       | None => EmptyString
                       end).
  pose proof (match_language_leftmost cn) as M.
  rewrite or_else_empty.
  destruct (Js.match_language cn) as [l|].
  - destruct M as (pre & post & E & Hl & Hw & Hp & Hmin).
    exists l. split; [reflexivity|]. split; [exact Hw|].
    split; [intros Z; contradiction|].
    intros _. exists pre, post. now split.
  - exists EmptyString. split; [reflexivity|]. split; [reflexivity|].
    split; [intros _; exact M|]. intros Z. now contradiction Z.
Qed.

(* ================================================================== *)
(** * The recursive converter of the content script *)
(* ================================================================== *)

Lemma htmlToSimpleMarkdown_elem (i : nat) (t : string) (a : Dom.attrs)
      (ch : list Dom.node) :
  Vanilla.htmlToSimpleMarkdown (Dom.Elem i t a ch)
  = String.concat ""
      (map (fun n => match n with
                     | Dom.Text d => d
                     | Dom.Comment _ => EmptyString
                     | Dom.Elem _ tagName _ _ =>
                         Vanilla.emit tagName n (Vanilla.htmlToSimpleMarkdown n)
                     end) ch).
Proof.
  simpl. generalize ch as l. induction l as [|x r IH]; [reflexivity|].
  rewrite IH. destruct r as [|y r]; [|reflexivity].
  simpl. now rewrite append_nil_r.
Qed.

Lemma unruled_elem (i : nat) (t : string) (a : Dom.attrs)
      (ch : list Dom.node) :
  Spec.unruled (Dom.Elem i t a ch)
  = forallb (fun x => negb (Dom.is_elem x && Spec.ruled (Dom.tag_of x))
                      && Spec.unruled x) ch.
Proof.
  simpl. generalize ch as l. induction l as [|x r IH]; [reflexivity|].
  now rewrite IH.
Qed.

Ltac tag_cases H :=
  unfold Spec.ruled in H; cbn [existsb] in H;
  repeat (apply orb_false_iff in H; destruct H as [? H]);
  unfold Vanilla.emit;
  repeat match goal with
         | E : String.eqb _ _ = false |- _ => rewrite E; clear E
         end.

(** An element without a case contributes what its children do. *)
Lemma emit_unruled (t : string) (n : Dom.node) (inner : string) :
  Spec.ruled t = false -> Vanilla.emit t n inner = inner.
Proof. intros H. tag_cases H. reflexivity. Qed.

(** X15. The recursive converter of the content script on markup
    without any of the twenty tags it has a case for: the result is the
    text of the fragment, comments left out.  Of the twenty cases only
    [p] and [blockquote] convert what lies below the element; the
    others take its text, so markup inside a heading, a link or an
    emphasis leaves no trace. *)
Theorem X15_unruled_markup_is_text (n : Dom.node) :
  Spec.unruled n = true ->
  Vanilla.htmlToSimpleMarkdown n
  = match n with Dom.Elem _ _ _ _ => Dom.textContent n | _ => "" end
  /\ (forall t e inner inner',
        Spec.appends_inner t = false ->
        Vanilla.emit t e inner = Vanilla.emit t e inner').
Proof.
  intros U. split.
  - induction n as [d|d|i t a ch IH] using Dom.node_ind; try reflexivity.
    rewrite htmlToSimpleMarkdown_elem, textContent_elem. f_equal.
    rewrite unruled_elem in U.
    induction IH as [|x r Hx _ IHr]; [reflexivity|].
    cbn [forallb] in U. apply andb_true_iff in U as [Ux Ur].
    apply andb_true_iff in Ux as [Rx Ux].
    cbn [map]. rewrite (IHr Ur). f_equal.
    destruct x as [d|d|j tx ax cx]; try reflexivity.
    simpl in Rx. apply negb_true_iff in Rx.
    rewrite (@emit_unruled _ _ _ Rx). exact (Hx Ux).
  - intros t e inner inner' A. unfold Spec.appends_inner in A.
    apply orb_false_iff in A as [A Hb].
    apply orb_false_iff in A as [A Hp].
    apply negb_false_iff in A.
    unfold Spec.ruled in A. cbn [existsb] in A.
    unfold Vanilla.emit. rewrite Hp, Hb. rewrite Hp, Hb in A.
    revert A.
    repeat match goal with
           | |- context [String.eqb t ?x] =>
               destruct (String.eqb t x); try reflexivity
           end.
    discriminate.
Qed.

(** Nested wrappers around text and a comment. *)
Lemma X15_unruled_markup_is_text_witness :
  Vanilla.htmlToSimpleMarkdown
    (Dom.Elem 0 "div" []
       [ Dom.Text "a ";
         Dom.Elem 1 "span" [("class", "x")]
           [Dom.Elem 2 "u" [] [Dom.Text "b"]; Dom.Comment "c"];
         Dom.Text " d" ])
  = "a b d".
Proof.
  apply (X15_unruled_markup_is_text
           (Dom.Elem 0 "div" []
              [ Dom.Text "a ";
                Dom.Elem 1 "span" [("class", "x")]
                  [Dom.Elem 2 "u" [] [Dom.Text "b"]; Dom.Comment "c"];
                Dom.Text " d" ])).
  reflexivity.
Defined.
